(** * RLlib [Trainer]: worker-pool orchestration

    A shallow embedding of [rllib/agents/trainer.py]: the retry loop of
    [Trainer.train], the health check of [Trainer._try_recover], the
    evaluation scheduler [Trainer.evaluate], the checkpoint protocol
    [Trainer.__getstate__] / [Trainer.__setstate__], the resource request
    [Trainer.default_resource_request], the configuration merge
    [Trainer.merge_trainer_configs] and the validation of a config
    [Trainer._validate_config].

    The trainer drives code that lives elsewhere (the algorithm's training
    step, the rollout workers, Ray's object store).  That code is an
    interface here, the class [Cluster]: every call into it is answered by
    the cluster and recorded, with its answer, in the trace of the method
    that made it.  Methods of the trainer are computations in a state, error
    and trace monad over the trainer object [self] and the cluster. *)

From Stdlib Require Import ZArith QArith Lia.
From stdpp Require Import base strings list gmap.

Local Open Scope string_scope.
Local Open Scope list_scope.
Local Open Scope nat_scope.

(** ** Python values and exceptions *)

(** The values that cross the trainer's interfaces: results of a training
    step, metrics, serialized worker state.  A [ResultDict] is a [PyDict]. *)
#[warnings="-register-all"]
Inductive pyval :=
| PyNone
| PyBool (b : bool)
| PyInt (z : Z)
| PyStr (s : string)
| PyBytes (bs : list Byte.byte)
| PyDict (items : list (string * pyval)).

(** [bool(v)]: what [if v] and [not v] test. *)
Definition truthy (v : pyval) : bool :=
  match v with
  | PyNone => false
  | PyBool b => b
  | PyInt z => negb (z =? 0)%Z
  | PyStr s => negb (String.eqb s "")
  | PyBytes bs => match bs with [] => false | _ => true end
  | PyDict items => match items with [] => false | _ => true end
  end.

(** [isinstance(v, dict)] *)
Definition isinstance_dict (v : pyval) : bool :=
  match v with PyDict _ => true | _ => false end.

(** [v is None] *)
Definition is_None (v : pyval) : bool :=
  match v with PyNone => true | _ => false end.

(** The exception classes the trainer tells apart.  [RayError] stands for
    [ray.exceptions.RayError] and its subclasses, and [ValueError args] for
    a [ValueError] with the arguments [e.args]: [ValueError("...")] has one
    argument, the message; [OtherException] is any other subclass of
    [Exception]. *)
Inductive exn :=
| RayError (tag : nat)
| ValueError (args : list pyval)
| RuntimeError (msg : string)
| AssertionError
| AttributeError (attr : string)
| IndexError
| TypeError
| OverflowError
| ZeroDivisionError
| OtherException (tag : nat).

(** [isinstance(e, RayError)]: the test of [except RayError]. *)
Definition is_RayError (e : exn) : bool :=
  match e with RayError _ => true | _ => false end.

Inductive result (A : Type) :=
| Ok (a : A)
| Raise (e : exn).
Arguments Ok {A} a.
Arguments Raise {A} e.

(** [needle in haystack] on strings. *)
Fixpoint is_prefix (p s : string) : bool :=
  match p, s with
  | EmptyString, _ => true
  | String a p', String b s' => if Ascii.eqb a b then is_prefix p' s' else false
  | String _ _, EmptyString => false
  end.

Fixpoint str_in (needle haystack : string) : bool :=
  if is_prefix needle haystack then true
  else match haystack with
       | EmptyString => false
       | String _ rest => str_in needle rest
       end.

(** [needle in v] for a string [needle]: the substring test on a string,
    the test on the keys of a dict, and a [TypeError] on a value that is no
    container of strings ([None], a bool, an int, bytes). *)
Definition contains (v : pyval) (needle : string) : result bool :=
  match v with
  | PyStr s => Ok (str_in needle s)
  | PyDict items => Ok (existsb (λ item, String.eqb item.1 needle) items)
  | PyNone | PyBool _ | PyInt _ | PyBytes _ => Raise TypeError
  end.

(** ** Floats: true division and [math.ceil] *)

(** A finite float, [significand * 2 ^ exponent]. *)
Record float := {
  significand : Z;
  exponent : Z;
}.

(** The integer nearest to [n / d] for [0 < d]; of two nearest integers,
    the even one. *)
Definition round_half_even (n d : Z) : Z :=
  let q := (n / d)%Z in
  let r := (n mod d)%Z in
  if (2 * r <? d)%Z then q
  else if (d <? 2 * r)%Z then (q + 1)%Z
  else if Z.even q then q else (q + 1)%Z.

(** The integer part of the binary logarithm of [a / b], for positive [a]
    and [b]. *)
Definition log2_quotient (a b : Z) : Z :=
  let k := (Z.log2 a - Z.log2 b)%Z in
  if (if (0 <=? k)%Z then (a <? b * 2 ^ k)%Z else (a * 2 ^ (- k) <? b)%Z)
  then (k - 1)%Z else k.

(** [a / b] on two ints: the double nearest to the quotient, ties to the
    even significand.  A double has a significand of 53 bits and an exponent
    of -1074 at least; a quotient that rounds to 2^1024 or more is an
    [OverflowError], division by 0 a [ZeroDivisionError]. *)
Definition true_divide (a b : Z) : result float :=
  if (b =? 0)%Z then Raise ZeroDivisionError
  else if (a =? 0)%Z then Ok {| significand := 0; exponent := 0 |}
  else
    let n := Z.abs a in
    let d := Z.abs b in
    let e := Z.max (log2_quotient n d - 52) (-1074) in
    let m := if (0 <=? e)%Z then round_half_even n (d * 2 ^ e)
             else round_half_even (n * 2 ^ (- e)) d in
    if (0 <=? e)%Z && (2 ^ 1024 <=? m * 2 ^ e)%Z then Raise OverflowError
    else Ok {| significand := Z.sgn a * Z.sgn b * m; exponent := e |}.

(** [int(math.ceil(x))] *)
Definition math_ceil (x : float) : Z :=
  if (0 <=? exponent x)%Z then (significand x * 2 ^ exponent x)%Z
  else (- ((- significand x) / 2 ^ (- exponent x)))%Z.

(** ** Workers, pools and the trainer object *)

(** A worker is known to the trainer by its handle only. *)
Definition worker := nat.

(** [ray.put(v)]: a reference to an immutable copy of [v] in the object
    store. *)
Inductive ObjectRef :=
| ray_put (v : pyval).

(** An argument of a worker method: a value, or an object reference, which
    Ray resolves to the stored value before the method runs. *)
Inductive arg :=
| ByValue (v : pyval)
| ByRef (r : ObjectRef).

Definition arg_value (a : arg) : pyval :=
  match a with
  | ByValue v => v
  | ByRef (ray_put v) => v
  end.

(** The [RolloutWorker] methods the trainer calls. *)
Inductive method :=
| sample
| sample_with_count
| save
| restore (state : arg)
| __ray_terminate__.

(** [WorkerSet]: one local worker and the list of remote workers. *)
Record WorkerSet := {
  local_worker : worker;
  remote_workers : list worker;
}.

(** [WorkerSet.reset(new_remote_workers)] *)
Definition reset (ws : WorkerSet) (new_remote_workers : list worker) : WorkerSet :=
  {| local_worker := local_worker ws; remote_workers := new_remote_workers |}.

(** The keys of the trainer's config that the orchestration reads.  Keys
    read with [config.get] may be absent, and are options. *)
Record TrainerConfig := {
  ignore_worker_failures : bool;
  observation_filter : option string;
  synchronize_filters : bool;
  custom_eval_function : option nat;
  evaluation_num_episodes : Z;
  evaluation_num_workers : Z;
  store_buffer_in_checkpoints : option bool;
}.

(** The value of [self.execution_plan(workers, config)], uninterpreted. *)
Inductive ExecPlan :=
| execution_plan (workers : WorkerSet) (config : TrainerConfig).

(** The attributes of a [Trainer].  An attribute tested with [hasattr] or
    against [None] is an option; [optimizer] holds whether the optimizer
    object has a [save] method. *)
Record Trainer := {
  config : TrainerConfig;
  workers : option WorkerSet;
  has_execution_plan : bool;
  train_exec_impl : option ExecPlan;
  evaluation_workers : option WorkerSet;
  optimizer : option bool;
  local_replay_buffer : option nat;
}.

Definition set_workers (t : Trainer) (ws : WorkerSet) : Trainer :=
  {| config := config t; workers := Some ws;
     has_execution_plan := has_execution_plan t;
     train_exec_impl := train_exec_impl t;
     evaluation_workers := evaluation_workers t;
     optimizer := optimizer t;
     local_replay_buffer := local_replay_buffer t |}.

Definition set_train_exec_impl (t : Trainer) (p : ExecPlan) : Trainer :=
  {| config := config t; workers := workers t;
     has_execution_plan := has_execution_plan t;
     train_exec_impl := Some p;
     evaluation_workers := evaluation_workers t;
     optimizer := optimizer t;
     local_replay_buffer := local_replay_buffer t |}.

(** ** The cluster interface *)

(** Synchronous calls into code of other modules. *)
Inductive libcall :=
| FilterManager_synchronize (ws : WorkerSet) (update_remote : bool)
| foreach_worker_restore (ws : WorkerSet) (weights : ObjectRef)
| collect_metrics (local : worker) (remotes : list worker)
| call_custom_eval_function (f : nat) (t : Trainer) (ws : option WorkerSet)
| optimizer_save
| optimizer_restore (state : pyval)
| replay_buffer_get_state
| replay_buffer_set_state (state : pyval)
| log_once (key : string).

(** What [ray.get] gives: the value, or a [RayError]. *)
Inductive get_result :=
| GetOk (v : pyval)
| GetRayError (tag : nat).

Inductive loglevel := DEBUG | INFO | WARNING | ERROR.

(** What a method of the trainer does to the outside, in order; an event
    of a call that is waited for holds the answer, and the event of a
    training step the trainer object as the step leaves it. *)
Inductive event :=
| EvTrainableTrain (r : result pyval) (self' : Trainer)
| EvLocal (w : worker) (m : method) (r : result pyval)
| EvRemote (w : worker) (m : method)
| EvRayGet (refs : list (worker * method)) (r : get_result)
| EvLib (c : libcall) (r : result pyval)
| EvLog (level : loglevel) (fmt : string) (args : list pyval)
| EvSleep.

(** The code the trainer drives.  [Env] is the state of everything outside
    the trainer object: the cluster, the workers, the algorithm.
    - [Trainable_train]: one training step, [Trainable.train(self)]; it may
      change the trainer object whether it returns or raises;
    - [local_call w m]: the method [m] of the in-process worker [w];
    - [ray_get refs]: waiting for the results of the remote calls [refs];
    - [lib_call]: the calls of [libcall];
    - [str_format]: Python's [str.format]. *)
Class Cluster (Env : Type) := {
  Trainable_train : Trainer → Env → result pyval * Trainer * Env;
  local_call : worker → method → Env → result pyval * Env;
  ray_get : list (worker * method) → Env → get_result * Env;
  lib_call : libcall → Env → result pyval * Env;
  str_format : string → list pyval → string;
}.

(** Max number of times to retry a worker failure. *)
Definition MAX_WORKER_FAILURE_RETRIES : nat := 3.

Section Orchestrator.
Context {Env : Type} `{Cluster Env}.

(** *** The monad of trainer methods *)

Record Sys := {
  self : Trainer;
  env : Env;
}.

Definition M (A : Type) : Type := Sys → result A * list event * Sys.

Definition ret {A} (a : A) : M A := λ s, (Ok a, [], s).

Definition bind {A B} (m : M A) (k : A → M B) : M B := λ s,
  match m s with
  | (Ok a, tr, s1) =>
      let '(r, tr', s2) := k a s1 in (r, tr ++ tr', s2)
  | (Raise e, tr, s1) => (Raise e, tr, s1)
  end.

Definition raise {A} (e : exn) : M A := λ s, (Raise e, [], s).

Definition emit (ev : event) : M unit := λ s, (Ok tt, [ev], s).

Definition get_self : M Trainer := λ s, (Ok (self s), [], s).

Definition put_self (t : Trainer) : M unit := λ s,
  (Ok tt, [], {| self := t; env := env s |}).

(** [try: m except Exception: handler]: the handler sees the exception. *)
Definition try_except {A} (m : M A) (handler : exn → M A) : M A := λ s,
  match m s with
  | (Ok a, tr, s1) => (Ok a, tr, s1)
  | (Raise e, tr, s1) =>
      let '(r, tr', s2) := handler e s1 in (r, tr ++ tr', s2)
  end.

(** The three parts of a run: how it ended, what it did, the state it left. *)
Definition res {A} (x : result A * list event * Sys) : result A := x.1.1.
Definition trace {A} (x : result A * list event * Sys) : list event := x.1.2.
Definition final {A} (x : result A * list event * Sys) : Sys := x.2.

(** Computations all of whose events satisfy [P], and computations that
    leave the trainer object as it is. *)
Definition emits {A} (P : event → Prop) (m : M A) : Prop :=
  ∀ s : Sys, Forall P (trace (m s)).

Definition keeps_self {A} (m : M A) : Prop :=
  ∀ s : Sys, self (final (m s)) = self s.

Global Instance M_ret : MRet M := @ret.
Global Instance M_bind : MBind M := λ A B k m, bind m k.
Global Instance M_throw : MThrow exn M := @raise.

(** [for x in l: body x] *)
Fixpoint for_each {A} (l : list A) (body : A → M unit) : M unit :=
  match l with
  | [] => ret tt
  | x :: l' => body x;; for_each l' body
  end.

(** [for i in range(n)] is [for_each (seq 0 n)]. *)
Definition range (n : Z) : list nat := seq 0 (Z.to_nat n).

(** *** Calls to the outside *)

(** [Trainable.train(self)] *)
Definition call_Trainable_train : M pyval := λ s,
  let '(r, t', e') := Trainable_train (self s) (env s) in
  (r, [EvTrainableTrain r t'], {| self := t'; env := e' |}).

(** [w.m(...)] on the in-process worker. *)
Definition call_local (w : worker) (m : method) : M pyval := λ s,
  let '(r, e') := local_call w m (env s) in
  (r, [EvLocal w m r], {| self := self s; env := e' |}).

(** [w.m.remote(...)]: the call is sent, nothing is waited for. *)
Definition remote (w : worker) (m : method) : M (worker * method) :=
  emit (EvRemote w m);; ret (w, m).

(** [ray.get(refs)] *)
Definition call_ray_get (refs : list (worker * method)) : M pyval := λ s,
  let '(r, e') := ray_get refs (env s) in
  (match r with GetOk v => Ok v | GetRayError n => Raise (RayError n) end,
   [EvRayGet refs r], {| self := self s; env := e' |}).

Definition call_lib (c : libcall) : M pyval := λ s,
  let '(r, e') := lib_call c (env s) in
  (r, [EvLib c r], {| self := self s; env := e' |}).

Definition logger (level : loglevel) (fmt : string) (args : list pyval) : M unit :=
  emit (EvLog level fmt args).

(** [self.workers], an [AttributeError] when the attribute is missing. *)
Definition self_workers : M WorkerSet :=
  t ← get_self;
  match workers t with
  | Some ws => ret ws
  | None => raise (AttributeError "workers")
  end.

(** *** [Trainer._try_recover] *)

(** The body of the second loop of [_try_recover] after [w] is read: the
    [try] statement on the check [obj_ref] of the worker [w] at index [i];
    it returns the list [healthy_workers] as the statement leaves it. *)
Definition check_one (obj_ref : worker * method) (w : worker) (i : nat)
    (healthy_workers : list worker) : M (list worker) :=
  try_except
    (call_ray_get [obj_ref];;
     let healthy_workers' := healthy_workers ++ [w] in
     logger INFO "Worker {} looks healthy" [PyInt (Z.of_nat (i + 1))];;
     ret healthy_workers')
    (λ e,
       if is_RayError e then
         logger ERROR "Removing unhealthy worker {}" [PyInt (Z.of_nat (i + 1))];;
         try_except
           (remote w __ray_terminate__;; ret tt)
           (λ _, logger ERROR "Error terminating unhealthy worker" []);;
         ret healthy_workers
       else raise e).

(** The second loop of [_try_recover], from index [i] on: [checks] are
    the checks left, [healthy_workers] the list built so far. *)
Fixpoint check_loop (workers : WorkerSet) (i : nat)
    (checks : list (worker * method)) (healthy_workers : list worker)
    : M (list worker) :=
  match checks with
  | [] => ret healthy_workers
  | obj_ref :: checks' =>
      match remote_workers workers !! i with
      | None => raise IndexError
      | Some w =>
          healthy_workers' ← check_one obj_ref w i healthy_workers;
          check_loop workers (S i) checks' healthy_workers'
      end
  end.

Definition _try_recover : M unit :=
  t ← get_self;
  (if has_execution_plan t then ret tt else raise AssertionError);;
  workers ← self_workers;
  logger INFO "Health checking all workers..." [];;
  checks ← mapM (λ ev, remote ev sample_with_count) (remote_workers workers);
  healthy_workers ← check_loop workers 0 checks [];
  (if (length healthy_workers <? 1)%nat
   then raise (RuntimeError "Not enough healthy workers remain to continue.")
   else ret tt);;
  logger WARNING "Recreating execution plan after failure" [];;
  let workers := reset workers healthy_workers in
  put_self (set_workers t workers);;
  t ← get_self;
  put_self (set_train_exec_impl t (execution_plan workers (config t))).

(** *** [Trainer.train] *)

Definition _sync_filters_if_needed (workers : WorkerSet) : M unit :=
  t ← get_self;
  if negb (String.eqb (default "NoFilter" (observation_filter (config t))) "NoFilter")
  then
    call_lib (FilterManager_synchronize workers (synchronize_filters (config t)));;
    logger DEBUG "synchronized filters: {}" []
  else ret tt.

Definition attempting_to_recover_message : string :=
  "Error in train call, attempting to recover".

Definition worker_crashed_message : string :=
  String.concat ""
    [ "Worker crashed during call to train(). To attempt to ";
      "continue training without the failed worker, set ";
      "`'ignore_worker_failures': True`." ].

(** The [for] loop of [train], with [n] iterations left; it returns the
    value of the variable [result] at the end of the loop. *)
Fixpoint train_loop (n : nat) : M pyval :=
  match n with
  | O => ret PyNone
  | S n' =>
      step ← try_except
                (result ← call_Trainable_train; ret (Some result))
                (λ e,
                   if is_RayError e then
                     t ← get_self;
                     if ignore_worker_failures (config t) then
                       logger ERROR attempting_to_recover_message [];;
                       _try_recover;;
                       ret None
                     else
                       logger INFO worker_crashed_message [];;
                       raise e
                   else
                     emit EvSleep;;
                     raise e);
      match step with
      | Some result => ret result
      | None => train_loop n'
      end
  end.

(** What [train] does after its loop; [result] is the variable of that
    name. *)
Definition after_loop (result : pyval) : M pyval :=
  (if is_None result
   then raise (RuntimeError "Failed to recover from worker crash")
   else ret tt);;
  t ← get_self;
  match workers t with
  | Some ws => _sync_filters_if_needed ws
  | None => ret tt
  end;;
  ret result.

Definition train : M pyval :=
  result ← train_loop (1 + MAX_WORKER_FAILURE_RETRIES);
  after_loop result.

(** *** [Trainer.evaluate] *)

(** [int(math.ceil(a / b))]: the quotient is a float, rounded before its
    ceiling is taken. *)
Definition int_ceil_divide (a b : Z) : M Z :=
  match true_divide a b with
  | Ok x => ret (math_ceil x)
  | Raise e => raise e
  end.

Definition no_env_marker : string :=
  "RolloutWorker has no `input_reader` object".

Definition newline : string := String (Ascii.ascii_of_nat 10) EmptyString.

Definition no_env_message : string :=
  String.concat ""
    [ "Cannot evaluate w/o an evaluation worker set in ";
      "the Trainer or w/o an env on the local worker!"; newline;
      "Try one of the following:"; newline; "1) Set ";
      "`evaluation_interval` >= 0 to force creating a ";
      "separate evaluation worker set."; newline; "2) Set ";
      "`create_env_on_driver=True` to force the local ";
      "(non-eval) worker to have an environment to ";
      "evaluate on." ].

Definition _before_evaluate : M unit := ret tt.

Definition _sync_weights_to_workers (worker_set : option WorkerSet) : M unit :=
  match worker_set with
  | None => raise AssertionError
  | Some worker_set =>
      logger INFO "Synchronizing weights to workers." [];;
      workers ← self_workers;
      state ← call_local (local_worker workers) save;
      let weights := ray_put state in
      call_lib (foreach_worker_restore worker_set weights);;
      ret tt
  end.

(** The body of the loop of [evaluate] over the rounds, at round [i]: one
    sampling call is sent to every remote evaluation worker, and the round
    is waited for. *)
Definition evaluation_round (evaluation_workers : WorkerSet)
    (num_workers num_episodes : Z) (i : nat) : M unit :=
  logger INFO "Running round {} of parallel evaluation ({}/{} episodes)"
    [PyInt (Z.of_nat i); PyInt ((Z.of_nat i + 1) * num_workers);
     PyInt num_episodes];;
  refs ← mapM (λ w, remote w sample) (remote_workers evaluation_workers);
  call_ray_get refs;;
  ret tt.

(** The default procedure of [evaluate], the [else] branch of the test on
    [custom_eval_function], up to the final [collect_metrics]: it returns
    the value of the variable [metrics]. *)
Definition default_evaluation (t : Trainer) : M pyval :=
  let cfg := config t in
  match evaluation_workers t with
  | None =>
      try_except
        (workers ← self_workers;
         for_each (range (evaluation_num_episodes cfg))
           (λ _, call_local (local_worker workers) sample;; ret tt);;
         call_lib (collect_metrics (local_worker workers) []))
        (λ e,
           match e with
           | ValueError args =>
               match args with
               | [] => raise IndexError
               | arg0 :: _ =>
                   match contains arg0 no_env_marker with
                   | Ok true => raise (ValueError [PyStr no_env_message])
                   | Ok false => raise e
                   | Raise e' => raise e'
                   end
               end
           | _ => raise e
           end)
  | Some evaluation_workers =>
      if (evaluation_num_workers cfg =? 0)%Z then
        for_each (range (evaluation_num_episodes cfg))
          (λ _, call_local (local_worker evaluation_workers) sample;; ret tt);;
        ret PyNone
      else
        num_rounds ← int_ceil_divide (evaluation_num_episodes cfg)
                        (evaluation_num_workers cfg);
        let num_workers := Z.of_nat (length (remote_workers evaluation_workers)) in
        let num_episodes := (num_rounds * num_workers)%Z in
        for_each (range num_rounds)
          (evaluation_round evaluation_workers num_workers num_episodes);;
        ret PyNone
  end.

(** The error of [evaluate] on what a custom evaluation function returned. *)
Definition custom_eval_error (metrics : pyval) : exn :=
  ValueError
    [PyStr (str_format "Custom eval function must return dict of metrics, got {}."
              [metrics])].

(** The statement of [evaluate] on [self.evaluation_workers]: the weights
    and filters of the evaluation pool are brought up to date. *)
Definition sync_evaluation_workers : M unit :=
  t ← get_self;
  match evaluation_workers t with
  | Some evaluation_workers =>
      _sync_weights_to_workers (Some evaluation_workers);;
      _sync_filters_if_needed evaluation_workers
  | None => ret tt
  end.

(** The statement of [evaluate] on [custom_eval_function]: it returns the
    value of the variable [metrics]. *)
Definition compute_metrics : M pyval :=
  t ← get_self;
  match custom_eval_function (config t) with
  | Some f =>
      logger INFO "Running custom eval function {}" [];;
      metrics ← call_lib (call_custom_eval_function f t (evaluation_workers t));
      if negb (truthy metrics) || negb (isinstance_dict metrics)
      then raise (custom_eval_error metrics)
      else ret metrics
  | None =>
      logger INFO "Evaluating current policy for {} episodes."
        [PyInt (evaluation_num_episodes (config t))];;
      metrics ← default_evaluation t;
      if is_None metrics then
        match evaluation_workers t with
        | Some evaluation_workers =>
            call_lib (collect_metrics (local_worker evaluation_workers)
                        (remote_workers evaluation_workers))
        | None => raise (AttributeError "local_worker")
        end
      else ret metrics
  end.

(** The test on TensorFlow's eager mode that opens [evaluate] is left out:
    it touches no state of the trainer or of the workers. *)
Definition evaluate : M pyval :=
  _before_evaluate;;
  sync_evaluation_workers;;
  metrics ← compute_metrics;
  ret (PyDict [("evaluation", metrics)]).

(** *** [Trainer.__getstate__] and [Trainer.__setstate__] *)

(** [self.config.get("store_buffer_in_checkpoints")] as a condition. *)
Definition store_buffer_requested (t : Trainer) : bool :=
  default false (store_buffer_in_checkpoints (config t)).

Definition __getstate__ : M (gmap string pyval) :=
  t ← get_self;
  let state : gmap string pyval := ∅ in
  state ← match workers t with
          | Some workers =>
              v ← call_local (local_worker workers) save;
              ret (<["worker" := v]> state)
          | None => ret state
          end;
  state ← match optimizer t with
          | Some true =>
              v ← call_lib optimizer_save;
              ret (<["optimizer" := v]> state)
          | _ => ret state
          end;
  state ← match local_replay_buffer t with
          | Some _ =>
              if store_buffer_requested t then
                v ← call_lib replay_buffer_get_state;
                ret (<["local_replay_buffer" := v]> state)
              else ret state
          | None => ret state
          end;
  ret state.

Definition buffer_missing_warning : string :=
  "`store_buffer_in_checkpoints` is True, but no replay data found in state!".

Definition buffer_unrequested_warning : string :=
  "`store_buffer_in_checkpoints` is False, but some replay data found in state!".

(** The three statements of [__setstate__]: the state of the workers, of
    the optimizer and of the replay buffer. *)
Definition restore_worker_state (state : gmap string pyval) : M unit :=
  t ← get_self;
  match state !! "worker", workers t with
  | Some worker_state, Some workers =>
      call_local (local_worker workers) (restore (ByValue worker_state));;
      let remote_state := ray_put worker_state in
      for_each (remote_workers workers)
        (λ r, remote r (restore (ByRef remote_state));; ret tt)
  | _, _ => ret tt
  end.

Definition restore_optimizer_state (state : gmap string pyval) : M unit :=
  t ← get_self;
  match state !! "optimizer", optimizer t with
  | Some optimizer_state, Some _ =>
      call_lib (optimizer_restore optimizer_state);; ret tt
  | _, _ => ret tt
  end.

Definition log_once_key : string := "no_store_buffer_in_checkpoints_but_data_found".

Definition restore_replay_buffer (state : gmap string pyval) : M unit :=
  t ← get_self;
  match local_replay_buffer t with
  | Some _ =>
      if store_buffer_requested t then
        match state !! "local_replay_buffer" with
        | Some buffer_state =>
            call_lib (replay_buffer_set_state buffer_state);; ret tt
        | None => logger WARNING buffer_missing_warning []
        end
      else
        match state !! "local_replay_buffer" with
        | Some _ =>
            once ← call_lib (log_once log_once_key);
            if truthy once
            then logger WARNING buffer_unrequested_warning []
            else ret tt
        | None => ret tt
        end
  | None => ret tt
  end.

Definition __setstate__ (state : gmap string pyval) : M unit :=
  restore_worker_state state;;
  restore_optimizer_state state;;
  restore_replay_buffer state.

End Orchestrator.

(** ** Observations on traces *)

(** The training steps attempted. *)
Definition is_attempt (ev : event) : bool :=
  match ev with EvTrainableTrain _ _ => true | _ => false end.

Definition count (p : event → bool) (tr : list event) : nat :=
  length (List.filter p tr).

Definition attempts (tr : list event) : nat := count is_attempt tr.

(** The fan-out rounds of an evaluation that were waited for, and the
    sampling calls sent to remote workers. *)
Definition is_round (ev : event) : bool :=
  match ev with EvRayGet _ _ => true | _ => false end.

Definition is_remote_sample (ev : event) : bool :=
  match ev with EvRemote _ sample => true | _ => false end.

(** A call of the default evaluation procedure: a sampling call, on the
    local worker or a remote one, or the collection of metrics. *)
Definition is_default_evaluation (ev : event) : Prop :=
  match ev with
  | EvLocal _ sample _ | EvRemote _ sample | EvLib (collect_metrics _ _) _ => True
  | _ => False
  end.

(** A health check sent to a worker. *)
Definition is_probe (ev : event) : Prop :=
  ∃ w, ev = EvRemote w sample_with_count.

(** What follows an attempt of [train] that failed with [e] and left the
    trainer object [t]: [post] is the rest of the trace and [r] is how the
    call ends. *)
Definition failure_handled (r : result pyval) (e : exn) (t : Trainer)
    (post : list event) : Prop :=
  (is_RayError e = false → r = Raise e ∧ post = [EvSleep]) ∧
  (is_RayError e = true → ignore_worker_failures (config t) = false →
   r = Raise e ∧ post = [EvLog INFO worker_crashed_message []]) ∧
  (is_RayError e = true → ignore_worker_failures (config t) = true →
   ∃ post', post = EvLog ERROR attempting_to_recover_message [] :: post').

(** An attempt that ended in a worker error while the trainer tolerates
    worker failures. *)
Definition tolerated (out : result pyval) (t : Trainer) : Prop :=
  ∃ e, out = Raise e ∧ is_RayError e = true ∧
       ignore_worker_failures (config t) = true.

(** The health checks answered in a trace, in order: the worker, and
    whether its check returned. *)
Fixpoint probe_results (tr : list event) : list (worker * bool) :=
  match tr with
  | [] => []
  | EvRayGet [(w, sample_with_count)] r :: tr' =>
      (w, match r with GetOk _ => true | GetRayError _ => false end)
        :: probe_results tr'
  | _ :: tr' => probe_results tr'
  end.

Definition healthy (tr : list event) : list worker :=
  (List.filter snd (probe_results tr)).*1.

Definition unhealthy (tr : list event) : list worker :=
  (List.filter (λ p, negb (snd p)) (probe_results tr)).*1.

(** The workers sent [__ray_terminate__], in order. *)
Definition terminated (tr : list event) : list worker :=
  omap (λ ev, match ev with EvRemote w __ray_terminate__ => Some w | _ => None end) tr.

(** What the second loop of [_try_recover] does to the outside: it sends
    no check, and every wait is for the check of one worker. *)
Definition one_check_at_a_time (ev : event) : Prop :=
  ¬ is_probe ev ∧ ∀ refs r, ev = EvRayGet refs r → ∃ w, refs = [(w, sample_with_count)].

(** A synchronization of the observation filters. *)
Definition is_filter_sync (ev : event) : bool :=
  match ev with EvLib (FilterManager_synchronize _ _) _ => true | _ => false end.

(** The pool [after] has the local worker of the pool [before] and some of
    its remote workers, in their order; it has a remote worker left when
    [before] had one. *)
Definition pool_within (before after : option WorkerSet) : Prop :=
  match before, after with
  | Some ws, Some ws' =>
      local_worker ws' = local_worker ws ∧
      remote_workers ws' `sublist_of` remote_workers ws ∧
      (remote_workers ws ≠ [] → remote_workers ws' ≠ [])
  | None, None => True
  | _, _ => False
  end.

(** A sampling call on an in-process worker. *)
Definition is_local_sample (ev : event) : bool :=
  match ev with EvLocal _ sample _ => true | _ => false end.

(** A step of an evaluation: a step of the default procedure, or the call
    of the custom evaluation function. *)
Definition is_evaluation_step (ev : event) : Prop :=
  is_default_evaluation ev ∨
  ∃ f t ws r, ev = EvLib (call_custom_eval_function f t ws) r.


(** What comes out of the [except ValueError] of [evaluate] for the error
    [e] of an evaluation on the local worker: [e] itself, the error of the
    trainer for a worker without an environment, or the error of the
    handler's own test, [e.args[0]] on a [ValueError] without arguments and
    [in] on a first argument that holds no strings. *)
Definition reraised (e : exn) : exn :=
  match e with
  | ValueError [] => IndexError
  | ValueError (arg0 :: _) =>
      match contains arg0 no_env_marker with
      | Ok true => ValueError [PyStr no_env_message]
      | Ok false => e
      | Raise e' => e'
      end
  | _ => e
  end.

(** ** A scripted cluster *)

(** A cluster that answers from four scripts, one per kind of call, each in
    order; when a script is over, the call returns [None].  A training step
    leaves the trainer object as it is.  [str.format] is rendered by the
    format string alone. *)
Record Script := {
  steps : list (result pyval);
  gets : list get_result;
  locals : list (result pyval);
  libs : list (result pyval);
}.

Definition pop {A} (d : A) (l : list A) : A * list A :=
  match l with
  | [] => (d, [])
  | x :: l' => (x, l')
  end.

Global Instance scripted : Cluster Script := {|
  Trainable_train t e :=
    let '(r, rest) := pop (Ok PyNone) (steps e) in
    (r, t, {| steps := rest; gets := gets e; locals := locals e; libs := libs e |});
  local_call _ _ e :=
    let '(r, rest) := pop (Ok PyNone) (locals e) in
    (r, {| steps := steps e; gets := gets e; locals := rest; libs := libs e |});
  ray_get _ e :=
    let '(r, rest) := pop (GetOk PyNone) (gets e) in
    (r, {| steps := steps e; gets := rest; locals := locals e; libs := libs e |});
  lib_call _ e :=
    let '(r, rest) := pop (Ok PyNone) (libs e) in
    (r, {| steps := steps e; gets := gets e; locals := locals e; libs := rest |});
  str_format fmt _ := fmt;
|}.

Definition quiet : Script := {| steps := []; gets := []; locals := []; libs := [] |}.

(** A trainer with three remote workers and an execution plan; [tolerant]
    is its [ignore_worker_failures]. *)
Definition sample_config (tolerant : bool) : TrainerConfig := {|
  ignore_worker_failures := tolerant;
  observation_filter := Some "NoFilter";
  synchronize_filters := true;
  custom_eval_function := None;
  evaluation_num_episodes := 10;
  evaluation_num_workers := 0;
  store_buffer_in_checkpoints := None;
|}.

Definition sample_pool : WorkerSet :=
  {| local_worker := 0; remote_workers := [1; 2; 3] |}.

Definition sample_trainer (tolerant : bool) : Trainer := {|
  config := sample_config tolerant;
  workers := Some sample_pool;
  has_execution_plan := true;
  train_exec_impl := Some (execution_plan sample_pool (sample_config tolerant));
  evaluation_workers := None;
  optimizer := None;
  local_replay_buffer := None;
|}.

(** ** Example data *)

(** The answers of a health check in which the second of three workers
    fails. *)
Definition one_worker_lost : Script :=
  {| steps := []; gets := [GetOk PyNone; GetRayError 7; GetOk PyNone];
     locals := []; libs := [] |}.

Definition recover_state : @Sys Script :=
  {| self := sample_trainer true; env := one_worker_lost |}.

(** A training step that fails with a worker error, then returns. *)
Definition train_result : pyval := PyDict [("episodes_total", PyInt 5)].

Definition flaky_step : Script :=
  {| steps := [Raise (RayError 1); Ok train_result];
     gets := [GetOk PyNone; GetRayError 7; GetOk PyNone];
     locals := []; libs := [] |}.

(** A training step that fails with a worker error every time. *)
Definition broken_step : Script :=
  {| steps := [Raise (RayError 1); Raise (RayError 2); Raise (RayError 3);
               Raise (RayError 4); Raise (RayError 5)];
     gets := []; locals := []; libs := [] |}.

(** A trainer with an evaluation pool of three remote workers and a target
    of ten episodes. *)
Definition evaluation_pool : WorkerSet :=
  {| local_worker := 10; remote_workers := [11; 12; 13] |}.

Definition evaluating_config : TrainerConfig := {|
  ignore_worker_failures := false;
  observation_filter := Some "NoFilter";
  synchronize_filters := true;
  custom_eval_function := None;
  evaluation_num_episodes := 10;
  evaluation_num_workers := 3;
  store_buffer_in_checkpoints := None;
|}.

Definition evaluating_trainer : Trainer := {|
  config := evaluating_config;
  workers := Some sample_pool;
  has_execution_plan := true;
  train_exec_impl := Some (execution_plan sample_pool evaluating_config);
  evaluation_workers := Some evaluation_pool;
  optimizer := None;
  local_replay_buffer := None;
|}.

Definition evaluating_state : @Sys Script :=
  {| self := evaluating_trainer; env := quiet |}.

(** A local worker without an environment: sampling raises. *)
Definition no_env_error : string :=
  "RolloutWorker has no `input_reader` object! Cannot call `sample()`.".

Definition no_env_state : @Sys Script :=
  {| self := sample_trainer false;
     env := {| steps := []; gets := []; locals := [Raise (ValueError [PyStr no_env_error])];
               libs := [] |} |}.

(** A trainer with a custom evaluation function, which returns [metrics]. *)
Definition custom_eval_config : TrainerConfig := {|
  ignore_worker_failures := false;
  observation_filter := Some "NoFilter";
  synchronize_filters := true;
  custom_eval_function := Some 0;
  evaluation_num_episodes := 10;
  evaluation_num_workers := 0;
  store_buffer_in_checkpoints := None;
|}.

Definition custom_eval_trainer : Trainer := {|
  config := custom_eval_config;
  workers := Some sample_pool;
  has_execution_plan := true;
  train_exec_impl := None;
  evaluation_workers := None;
  optimizer := None;
  local_replay_buffer := None;
|}.


(** A bundle with the state of the local worker only, and a trainer that
    asks for the replay buffer in checkpoints but has no replay buffer. *)
Definition worker_blob : pyval := PyBytes [Byte.x80; Byte.x03; Byte.x7d].

Definition worker_bundle : gmap string pyval := {["worker" := worker_blob]}.

Definition checkpoint_state : @Sys Script :=
  {| self := sample_trainer false; env := quiet |}.

Definition bufferless_config : TrainerConfig := {|
  ignore_worker_failures := false;
  observation_filter := Some "NoFilter";
  synchronize_filters := true;
  custom_eval_function := None;
  evaluation_num_episodes := 10;
  evaluation_num_workers := 0;
  store_buffer_in_checkpoints := Some true;
|}.

Definition bufferless_trainer : Trainer := {|
  config := bufferless_config;
  workers := Some sample_pool;
  has_execution_plan := true;
  train_exec_impl := None;
  evaluation_workers := None;
  optimizer := None;
  local_replay_buffer := None;
|}.

Definition bufferless_state : @Sys Script :=
  {| self := bufferless_trainer; env := quiet |}.

(** A trainer without an evaluation pool whose local worker has an
    environment: every sampling call returns, and metrics are collected. *)
Definition local_evaluation_state : @Sys Script :=
  {| self := sample_trainer false;
     env := {| steps := []; gets := []; locals := []; libs := [Ok train_result] |} |}.

(** A local worker whose sampling fails with an error of its own. *)
Definition failing_sample_state : @Sys Script :=
  {| self := sample_trainer false;
     env := {| steps := []; gets := []; locals := [Raise (OtherException 3)];
               libs := [] |} |}.


(** A trainer without an evaluation pool that is asked for no evaluation
    episode; its local worker has no environment. *)
Definition no_episodes_config : TrainerConfig := {|
  ignore_worker_failures := false;
  observation_filter := Some "NoFilter";
  synchronize_filters := true;
  custom_eval_function := None;
  evaluation_num_episodes := 0;
  evaluation_num_workers := 0;
  store_buffer_in_checkpoints := None;
|}.

Definition no_episodes_trainer : Trainer := {|
  config := no_episodes_config;
  workers := Some sample_pool;
  has_execution_plan := true;
  train_exec_impl := None;
  evaluation_workers := None;
  optimizer := None;
  local_replay_buffer := None;
|}.

Definition no_episodes_state : @Sys Script :=
  {| self := no_episodes_trainer;
     env := {| steps := []; gets := [];
               locals := [Raise (ValueError [PyStr no_env_error])];
               libs := [Ok train_result] |} |}.

(** A trainer with a custom evaluation function, on a local worker
    without an environment. *)
Definition custom_eval_no_env_state : @Sys Script :=
  {| self := custom_eval_trainer;
     env := {| steps := []; gets := [];
               locals := [Raise (ValueError [PyStr no_env_error])];
               libs := [Ok train_result] |} |}.





(** The cluster of [flaky_step] after the step that fails. *)
Definition flaky_step_failed : Script :=
  {| steps := [Ok train_result];
     gets := [GetOk PyNone; GetRayError 7; GetOk PyNone];
     locals := []; libs := [] |}.

(** A trainer with an optimizer that can save and a replay buffer that
    goes into checkpoints. *)
Definition buffered_config : TrainerConfig := {|
  ignore_worker_failures := false;
  observation_filter := Some "NoFilter";
  synchronize_filters := true;
  custom_eval_function := None;
  evaluation_num_episodes := 10;
  evaluation_num_workers := 0;
  store_buffer_in_checkpoints := Some true;
|}.

Definition buffered_trainer : Trainer := {|
  config := buffered_config;
  workers := Some sample_pool;
  has_execution_plan := true;
  train_exec_impl := None;
  evaluation_workers := None;
  optimizer := Some true;
  local_replay_buffer := Some 0;
|}.

Definition buffered_state : @Sys Script :=
  {| self := buffered_trainer;
     env := {| steps := []; gets := []; locals := [Ok worker_blob];
               libs := [Ok (PyInt 1); Ok (PyInt 2)] |} |}.

(** The bundle that saving this trainer gives, and the trainer once more,
    on a cluster that answers [None] to every call. *)
Definition buffered_bundle : gmap string pyval :=
  <["local_replay_buffer" := PyInt 2]>
    (<["optimizer" := PyInt 1]> (<["worker" := worker_blob]> ∅)).

Definition restored_state : @Sys Script :=
  {| self := buffered_trainer; env := quiet |}.

(** ** [Trainer.default_resource_request] *)

Module Resources.

(** The keys of [evaluation_config] read with [eval_config.get]. *)
Record EvaluationConfig := {
  eval_num_cpus_per_worker : option Q;
  eval_num_gpus_per_worker : option Q;
}.

(** The keys of the full config [cf] the request reads. *)
Record Config := {
  num_cpus_for_driver : Q;
  num_gpus : Q;
  num_cpus_per_worker : Q;
  num_gpus_per_worker : Q;
  num_workers : Z;
  evaluation_num_workers : Z;
  evaluation_interval : option Z;
  evaluation_config : EvaluationConfig;
  placement_strategy : string;
}.

(** A partial config: any key may be absent. *)
Record PartialConfig := {
  p_num_cpus_for_driver : option Q;
  p_num_gpus : option Q;
  p_num_cpus_per_worker : option Q;
  p_num_gpus_per_worker : option Q;
  p_num_workers : option Z;
  p_evaluation_num_workers : option Z;
  p_evaluation_interval : option (option Z);
  p_evaluation_config : option EvaluationConfig;
  p_placement_strategy : option string;
}.

(** [dict(defaults, **config)]: the keys of [config] win. *)
Definition dict_update (defaults : Config) (config : PartialConfig) : Config := {|
  num_cpus_for_driver := default (num_cpus_for_driver defaults) (p_num_cpus_for_driver config);
  num_gpus := default (num_gpus defaults) (p_num_gpus config);
  num_cpus_per_worker := default (num_cpus_per_worker defaults) (p_num_cpus_per_worker config);
  num_gpus_per_worker := default (num_gpus_per_worker defaults) (p_num_gpus_per_worker config);
  num_workers := default (num_workers defaults) (p_num_workers config);
  evaluation_num_workers :=
    default (evaluation_num_workers defaults) (p_evaluation_num_workers config);
  evaluation_interval := default (evaluation_interval defaults) (p_evaluation_interval config);
  evaluation_config := default (evaluation_config defaults) (p_evaluation_config config);
  placement_strategy := default (placement_strategy defaults) (p_placement_strategy config);
|}.

(** The values of these keys in [COMMON_CONFIG]. *)
Definition COMMON_CONFIG : Config := {|
  num_cpus_for_driver := 1;
  num_gpus := 0;
  num_cpus_per_worker := 1;
  num_gpus_per_worker := 0;
  num_workers := 2;
  evaluation_num_workers := 0;
  evaluation_interval := None;
  evaluation_config :=
    {| eval_num_cpus_per_worker := None; eval_num_gpus_per_worker := None |};
  placement_strategy := "PACK";
|}.

(** [if cf["evaluation_interval"]]: [None] and [0] are false. *)
Definition interval_truthy (i : option Z) : bool :=
  match i with
  | None => false
  | Some z => negb (z =? 0)%Z
  end.

Record Bundle := {
  CPU : Q;
  GPU : Q;
}.

Record PlacementGroupFactory := {
  bundles : list Bundle;
  strategy : string;
}.

Definition driver_bundle (cf : Config) : Bundle :=
  {| CPU := num_cpus_for_driver cf; GPU := num_gpus cf |}.

Definition worker_bundle (cf : Config) : Bundle :=
  {| CPU := num_cpus_per_worker cf; GPU := num_gpus_per_worker cf |}.

Definition evaluation_bundle (cf : Config) : Bundle :=
  let eval_config := evaluation_config cf in
  {| CPU := default (num_cpus_per_worker cf) (eval_num_cpus_per_worker eval_config);
     GPU := default (num_gpus_per_worker cf) (eval_num_gpus_per_worker eval_config) |}.

(** [default_config] is [cls._default_config]. *)
Definition default_resource_request (default_config : Config) (config : PartialConfig)
    : PlacementGroupFactory :=
  let cf := dict_update default_config config in
  {| bundles :=
       [driver_bundle cf]
       ++ ((λ _, worker_bundle cf) <$> seq 0 (Z.to_nat (num_workers cf)))
       ++ (if interval_truthy (evaluation_interval cf)
           then (λ _, evaluation_bundle cf) <$> seq 0 (Z.to_nat (evaluation_num_workers cf))
           else []);
     strategy := default "PACK" (p_placement_strategy config) |}.

(** The empty partial config, [{}]. *)
Definition no_overrides : PartialConfig := {|
  p_num_cpus_for_driver := None; p_num_gpus := None;
  p_num_cpus_per_worker := None; p_num_gpus_per_worker := None;
  p_num_workers := None; p_evaluation_num_workers := None;
  p_evaluation_interval := None; p_evaluation_config := None;
  p_placement_strategy := None;
|}.

(** A partial config that asks for two evaluation workers and sets no
    evaluation interval. *)
Definition two_evaluation_workers : PartialConfig := {|
  p_num_cpus_for_driver := None; p_num_gpus := None;
  p_num_cpus_per_worker := None; p_num_gpus_per_worker := None;
  p_num_workers := None; p_evaluation_num_workers := Some 2%Z;
  p_evaluation_interval := None; p_evaluation_config := None;
  p_placement_strategy := None;
|}.

End Resources.

(** ** [Trainer.merge_trainer_configs] on the object store *)

(** Config dicts are mutable objects that callers share: the merge is
    modelled on a store of objects, where a dict holds references to its
    sub-dicts and a copy is a new object. *)
Module ConfigStore.

Abbreviation addr := nat.

(** A value held in a dict or a list.  [VAtom] stands for an immutable or
    opaque object (a float, a class, a function), which [copy.deepcopy]
    returns as it is; [VCallbacksFactory d] is the closure
    [make_callbacks] over the legacy callbacks dict at [d], a function as
    well; [VRef a] is the dict or list stored at [a]. *)
Inductive value :=
| VNone
| VBool (b : bool)
| VInt (z : Z)
| VStr (s : string)
| VAtom (id : nat)
| VCallbacksFactory (legacy_callbacks_dict : addr)
| VRef (a : addr).

Global Instance value_eq_dec : EqDecision value.
Proof. solve_decision. Defined.

Inductive object :=
| ODict (items : list (string * value))
| OList (items : list value).

(** The store: the object at address [a] is [h !! a]; a new object is
    appended. *)
Abbreviation heap := (list object).

(** [d.get(k)], [k in d] and [d[k] = v] on the items of a dict. *)
Fixpoint dict_get (k : string) (items : list (string * value)) : option value :=
  match items with
  | [] => None
  | (k', v) :: items' => if String.eqb k k' then Some v else dict_get k items'
  end.

Fixpoint dict_set (k : string) (v : value) (items : list (string * value))
    : list (string * value) :=
  match items with
  | [] => [(k, v)]
  | (k', v') :: items' =>
      if String.eqb k k' then (k, v) :: items' else (k', v') :: dict_set k v items'
  end.

(** The values an object holds. *)
Definition children (o : object) : list value :=
  match o with
  | ODict items => items.*2
  | OList items => items
  end.

(** [isinstance(v, dict)] in the store [h]: the address of the dict. *)
Definition as_dict (h : heap) (v : value) : option (addr * list (string * value)) :=
  match v with
  | VRef a => match h !! a with
              | Some (ODict items) => Some (a, items)
              | _ => None
              end
  | _ => None
  end.

(** *** [copy.deepcopy] *)

Abbreviation memo := (gmap addr addr).

(** The copies of the values [xs], in order, by the copy function [cp]. *)
Fixpoint copy_values (cp : heap → memo → value → option (heap * memo * value))
    (h : heap) (m : memo) (xs : list value) : option (heap * memo * list value) :=
  match xs with
  | [] => Some (h, m, [])
  | x :: xs' =>
      match cp h m x with
      | None => None
      | Some (h1, m1, y) =>
          match copy_values cp h1 m1 xs' with
          | None => None
          | Some (h2, m2, ys) => Some (h2, m2, y :: ys)
          end
      end
  end.

(** [copy.deepcopy(x, memo)]: a dict or list that the memo does not hold
    yet is copied to a new object, entered in the memo before its items
    are copied; everything else is returned as it is.  [fuel] bounds the
    depth of the recursion; the result is [None] when it runs out, or on a
    reference to no object. *)
Fixpoint deepcopy (fuel : nat) (h : heap) (m : memo) (x : value)
    : option (heap * memo * value) :=
  match x with
  | VRef a =>
      match m !! a with
      | Some y => Some (h, m, VRef y)
      | None =>
          match fuel, h !! a with
          | S fuel', Some (ODict items) =>
              let y := length h in
              match copy_values (deepcopy fuel') (h ++ [ODict []]) (<[a := y]> m) items.*2 with
              | None => None
              | Some (h', m', vs) => Some (<[y := ODict (zip items.*1 vs)]> h', m', VRef y)
              end
          | S fuel', Some (OList items) =>
              let y := length h in
              match copy_values (deepcopy fuel') (h ++ [OList []]) (<[a := y]> m) items with
              | None => None
              | Some (h', m', vs) => Some (<[y := OList vs]> h', m', VRef y)
              end
          | _, _ => None
          end
      end
  | _ => Some (h, m, x)
  end.

(** *** [deep_update] *)

Inductive error :=
| UnknownConfigKey (k : string)
| TypeError.

(** How a call ends: it returns, it raises, or the recursion is deeper
    than the fuel given. *)
Inductive outcome (A : Type) :=
| Returned (a : A)
| Raised (e : error)
| OutOfFuel.
Arguments Returned {A} a.
Arguments Raised {A} e.
Arguments OutOfFuel {A}.

(** The [type] fields of two sub-dicts are both there and differ. *)
Definition type_changes (old_items new_items : list (string * value)) : bool :=
  match dict_get "type" old_items, dict_get "type" new_items with
  | Some t1, Some t2 => negb (bool_decide (t1 = t2))
  | _, _ => false
  end.

Definition mem (k : string) (ks : list string) : bool :=
  existsb (String.eqb k) ks.

(** The loop of [deep_update] over the items of the override dict; [rec]
    merges a sub-dict of the override into a sub-dict of [original]. *)
Fixpoint update_items (rec : heap → addr → addr → heap * outcome unit)
    (new_keys_allowed : bool) (deep_merge_keys discriminator_keys : list string)
    (original : addr) (items : list (string * value)) (h : heap)
    : heap * outcome unit :=
  match items with
  | [] => (h, Returned tt)
  | (k, value) :: items' =>
      let continue h := update_items rec new_keys_allowed deep_merge_keys
                          discriminator_keys original items' h in
      match h !! original with
      | Some (ODict orig_items) =>
          let replace := <[original := ODict (dict_set k value orig_items)]> h in
          match dict_get k orig_items with
          | None =>
              if new_keys_allowed then continue replace
              else (h, Raised (UnknownConfigKey k))
          | Some old =>
              match as_dict h old, as_dict h value with
              | Some (a, old_items), Some (b, new_items) =>
                  if mem k discriminator_keys && type_changes old_items new_items
                  then continue replace
                  else if mem k deep_merge_keys then
                    match rec h a b with
                    | (h', Returned _) => continue h'
                    | (h', r) => (h', r)
                    end
                  else continue replace
              | _, _ => continue replace
              end
          end
      | _ => (h, Raised TypeError)
      end
  end.

(** Modelled from the spec: [ray.rllib.utils.deep_update], which
    [merge_trainer_configs] calls and whose source is not part of the
    file; it follows the merge contract of the specification (4.1), on
    the object [original], which it updates in place:
    - a key of the override that [original] lacks is an
      [UnknownConfigKey] error unless unknown keys are allowed;
    - for a discriminator key whose value is a sub-dict on both sides
      with differing [type] fields, the override's sub-dict replaces the
      one of [original] wholesale;
    - for a deep-merge key whose value is a sub-dict on both sides, the
      sub-dicts are merged by the same rules, unknown keys allowed;
    - for every other key the override's value replaces the one of
      [original]. *)
Fixpoint deep_update (fuel : nat) (deep_merge_keys discriminator_keys : list string)
    (h : heap) (original new_dict : addr) (new_keys_allowed : bool)
    : heap * outcome unit :=
  match fuel with
  | O => (h, OutOfFuel)
  | S fuel' =>
      match h !! new_dict with
      | Some (ODict items) =>
          update_items
            (λ h a b, deep_update fuel' deep_merge_keys discriminator_keys h a b true)
            new_keys_allowed deep_merge_keys discriminator_keys original items h
      | _ => (h, Raised TypeError)
      end
  end.

(** *** [merge_trainer_configs] *)

(** The class attributes of [Trainer] that the merge reads. *)
Definition _allow_unknown_configs : bool := false.

Definition _allow_unknown_subkeys : list string :=
  [ "tf_session_args"; "local_tf_session_args"; "env_config"; "model";
    "optimizer"; "multiagent"; "custom_resources_per_worker";
    "evaluation_config"; "exploration_config";
    "extra_python_environs_for_driver"; "extra_python_environs_for_worker";
    "input_config" ].

Definition _override_all_subkeys_if_type_changes : list string :=
  [ "exploration_config" ].

(** [config2["callbacks"] = make_callbacks] when [config2] has a dict
    under [callbacks]. *)
Definition wrap_legacy_callbacks (h : heap) (config2 : addr)
    (items2 : list (string * value)) : heap :=
  match dict_get "callbacks" items2 with
  | Some (VRef legacy_callbacks_dict) =>
      match h !! legacy_callbacks_dict with
      | Some (ODict _) =>
          <[config2 := ODict (dict_set "callbacks"
                                (VCallbacksFactory legacy_callbacks_dict) items2)]> h
      | _ => h
      end
  | _ => h
  end.

(** [config1] and [config2] are the addresses of the two dicts the caller
    passes; the result is the store after the call and the address of the
    merged dict. *)
Definition merge_trainer_configs (fuel : nat) (h : heap) (config1 config2 : addr)
    (allow_unknown_configs : option bool) : heap * outcome addr :=
  match deepcopy fuel h ∅ (VRef config1) with
  | Some (h1, _, VRef config1') =>
      match h1 !! config2 with
      | Some (ODict items2) =>
          let h2 := wrap_legacy_callbacks h1 config2 items2 in
          let allow := default _allow_unknown_configs allow_unknown_configs in
          match deep_update fuel _allow_unknown_subkeys
                  _override_all_subkeys_if_type_changes h2 config1' config2 allow with
          | (h3, Returned _) => (h3, Returned config1')
          | (h3, Raised e) => (h3, Raised e)
          | (h3, OutOfFuel) => (h3, OutOfFuel)
          end
      | _ => (h1, Raised TypeError)
      end
  | _ => (h, OutOfFuel)
  end.

(** A store with a base config at 0 and an override at 2, which share no
    object. *)
Definition separate_configs : heap :=
  [ ODict [("model", VRef 1); ("lr", VInt 1)]; ODict [("fcnet", VInt 256)];
    ODict [("model", VRef 3); ("lr", VInt 2)]; ODict [("lstm", VBool true)] ].

(** A store where one dict, with legacy callbacks, is passed as base and
    as override. *)
Definition shared_config : heap :=
  [ ODict [("callbacks", VRef 1)]; ODict [] ].

(** The objects of the tree under [root]: [root] and what the objects of
    the tree refer to. *)
Inductive reach (h : heap) (root : addr) : addr → Prop :=
| reach_root : reach h root root
| reach_step a o b :
    reach h root a → h !! a = Some o → VRef b ∈ children o → reach h root b.

(** [S] holds every object that an object of [S] refers to. *)
Definition closed_under (h : heap) (S : addr → Prop) : Prop :=
  ∀ a o b, S a → h !! a = Some o → VRef b ∈ children o → S b.

(** The stores that extend [h0] with new objects which refer to new
    objects only, with a memo of new objects. *)
Definition extends (h0 : heap) (h : heap) (m : memo) : Prop :=
  length h0 ≤ length h ∧
  (∀ a, a < length h0 → h !! a = h0 !! a) ∧
  (∀ a y, m !! a = Some y → length h0 ≤ y) ∧
  (∀ a o b, length h0 ≤ a → h !! a = Some o → VRef b ∈ children o → length h0 ≤ b).

(** A copy function that keeps the stores that extend [h0], and returns
    new objects only. *)
Definition copies_well (h0 : heap)
    (cp : heap → memo → value → option (heap * memo * value)) : Prop :=
  ∀ h m x h' m' y,
    extends h0 h m → cp h m x = Some (h', m', y) →
    extends h0 h' m' ∧ ∀ b, y = VRef b → length h0 ≤ b.

(** *** Trees of objects *)

(** The footprints of the values [xs] one after the other, by the
    footprint [fp] of one value. *)
Fixpoint footprints (fp : value → option (list addr)) (xs : list value)
    : option (list addr) :=
  match xs with
  | [] => Some []
  | x :: xs' =>
      match fp x, footprints fp xs' with
      | Some l, Some l' => Some (l ++ l')
      | _, _ => None
      end
  end.

(** The objects met on the way down from the value [x], each as often as
    it is met; [fuel] bounds the depth, and the result is [None] when it
    runs out, or on a reference to no object. *)
Fixpoint footprint (fuel : nat) (h : heap) (x : value) : option (list addr) :=
  match x with
  | VRef a =>
      match fuel, h !! a with
      | S fuel', Some o =>
          match footprints (footprint fuel' h) (children o) with
          | Some l => Some (a :: l)
          | None => None
          end
      | _, _ => None
      end
  | _ => Some []
  end.

(** The config at [root] is a tree: on the way down from [root] no dict
    or list is met twice. *)
Definition is_tree (fuel : nat) (h : heap) (root : addr) : bool :=
  match footprint fuel h (VRef root) with
  | Some l => bool_decide (NoDup l)
  | None => false
  end.

(** A store of Python objects: a reference refers to an object of the
    store, and the keys of a dict are distinct. *)
Definition well_formed (h : heap) : bool :=
  forallb (λ o,
    forallb (λ v, match v with VRef b => b <? length h | _ => true end) (children o)
    && match o with
       | ODict items => bool_decide (NoDup items.*1)
       | OList _ => true
       end) h.

(** The dict at [config2] has a dict under [callbacks]. *)
Definition legacy_callbacks (h : heap) (config2 : addr) : bool :=
  match h !! config2 with
  | Some (ODict items2) =>
      match dict_get "callbacks" items2 with
      | Some (VRef d) => match h !! d with Some (ODict _) => true | _ => false end
      | _ => false
      end
  | _ => false
  end.

(** The objects below [n0] are such that every dict has distinct keys and
    refers to objects below [n0]. *)
Definition old_ok (n0 : nat) (hc : heap) : Prop :=
  ∀ x items, x < n0 → hc !! x = Some (ODict items) →
    NoDup items.*1 ∧ ∀ c, VRef c ∈ items.*2 → c < n0.

(** A copy function that copies a tree of [h0] which the memo does not
    know to a tree of new objects, and enters the objects of the tree
    only in the memo. *)
Definition copies_trees (h0 : heap) (cp : heap → memo → value → option (heap * memo * value))
    (f : nat) : Prop :=
  ∀ hc m x l hc' m' y,
    footprint f h0 x = Some l → NoDup l → (∀ a, a ∈ l → m !! a = None) →
    (∀ a, a < length h0 → hc !! a = h0 !! a) → length h0 ≤ length hc →
    cp hc m x = Some (hc', m', y) →
    ∃ l', footprint f hc' y = Some l' ∧ NoDup l' ∧
          (∀ a, a ∈ l' → length hc ≤ a < length hc') ∧
          (∀ a, a < length hc → hc' !! a = hc !! a) ∧
          length hc ≤ length hc' ∧
          (∀ a, a ∉ l → m' !! a = m !! a).

(** A store with a base config at 0 and an override at 2 that is a shallow
    copy of it with another learning rate: the two share the dict under
    [model]. *)
Definition shallow_configs : heap :=
  [ ODict [("model", VRef 1); ("lr", VInt 1)]; ODict [("fcnet", VInt 256)];
    ODict [("model", VRef 1); ("lr", VInt 2)] ].

(** A store with a base config at 0 that holds one dict twice, under
    [model] and under [env_config], and an override at 3 that holds the
    dict which the base has under [optimizer]. *)
Definition aliased_configs : heap :=
  [ ODict [("model", VRef 1); ("env_config", VRef 1); ("optimizer", VRef 2)];
    ODict [("model", VInt 1)];
    ODict [("lr", VInt 1)];
    ODict [("model", VRef 4); ("env_config", VRef 5)];
    ODict [("model", VRef 2)];
    ODict [("model", VRef 6)];
    ODict [("lr", VInt 7)] ].

End ConfigStore.

(** ** [Trainer._validate_config] *)

(** The validation reads and updates the config dict in place, logs
    warnings and raises on the settings it rejects.  It is a computation
    over the config: a run gives how the call ended, the warnings it logged
    and the config as the call left it, also when it raised. *)
Module Validation.

(** [DEPRECATED_VALUE], the default of a deprecated key, and the test
    [v == DEPRECATED_VALUE]. *)
Definition DEPRECATED_VALUE : pyval := PyInt (-1).

Definition is_DEPRECATED_VALUE (v : pyval) : bool :=
  match v with PyInt z => (z =? -1)%Z | _ => false end.

Definition DEFAULT_POLICY_ID : string := "default_policy".

(** [v == s] for a string [s], and [isinstance(v, str)]. *)
Definition eq_str (v : pyval) (s : string) : bool :=
  match v with PyStr s' => String.eqb s' s | _ => false end.

Definition isinstance_str (v : pyval) : bool :=
  match v with PyStr _ => true | _ => false end.

(** A policy class; [multi_gpu] is whether it is a subclass of
    [DynamicTFPolicy] or of [TorchPolicy]. *)
Record PolicyClass := {
  class_name : string;
  multi_gpu : bool;
}.

(** What a policy spec can hold: a plain value, a policy class, or another
    object, such as a space, which is not a class and is true in a
    condition. *)
Inductive obj :=
| Val (v : pyval)
| Cls (c : PolicyClass)
| Obj (id : nat).

Definition truthy_obj (o : obj) : bool :=
  match o with Val v => truthy v | _ => true end.

Definition is_None_obj (o : obj) : bool :=
  match o with Val PyNone => true | _ => false end.

Definition isinstance_dict_obj (o : obj) : bool :=
  match o with Val (PyDict _) => true | _ => false end.

(** The named tuple [PolicySpec]; [PolicySpec()] has [None] in every
    field. *)
Record PolicySpec := {
  policy_class : obj;
  observation_space : obj;
  action_space : obj;
  config : obj;
}.

Definition PolicySpec_default : PolicySpec :=
  {| policy_class := Val PyNone; observation_space := Val PyNone;
     action_space := Val PyNone; config := Val PyNone |}.

(** [spec._replace(config=c)] *)
Definition _replace_config (spec : PolicySpec) (c : obj) : PolicySpec :=
  {| policy_class := policy_class spec; observation_space := observation_space spec;
     action_space := action_space spec; config := c |}.

(** A value of the dict [policies]: a [PolicySpec], a plain list or tuple,
    or anything else. *)
Inductive policy_entry :=
| Spec (spec : PolicySpec)
| Seq (elements : list obj)
| NotASpec (o : obj).

(** The value under [multiagent.policies], when there is one that is not
    [None]: a set of policy ids, in the order of its iteration, or a dict,
    the list of its items in order; an assignment to a key that the dict
    holds replaces the value of the item. *)
Inductive policies_value :=
| PolicySet (pids : list pyval)
| PolicyDict (items : list (pyval * policy_entry)).

(** The keys of the dict under [model] that the validation touches. *)
Record ModelConfig := {
  lstm_use_prev_action_reward : option pyval;
  lstm_use_prev_action : option pyval;
  lstm_use_prev_reward : option pyval;
}.

Record MultiAgentConfig := {
  policies : option policies_value;
  count_steps_by : option pyval;
}.

(** The value under [callbacks]. *)
Inductive callbacks_value :=
| CallbacksNone
| DefaultCallbacks
| OtherCallbacks (o : obj).

(** The value under [input_evaluation]. *)
Inductive input_evaluation_value :=
| InputTuple (elements : list pyval)
| InputList (elements : list pyval)
| InputOther (v : pyval).

(** The keys of the config that the validation touches.  A key read with
    [config.get] is an option, [None] when the key is absent; for [model]
    and [framework], which the validation compares with [None] or with
    strings only, [None] is also the value [None] and, for [framework],
    any value that is not a string.  The other keys are read with
    [config[...]] and are there in every merged config.  [num_gpus] and
    [evaluation_num_workers] are numbers, which the validation compares
    with 1 and 0. *)
Record Config := {
  model : option ModelConfig;
  monitor : option pyval;
  record_env : option pyval;
  callbacks : callbacks_value;
  simple_optimizer : option pyval;
  multiagent : MultiAgentConfig;
  framework : option string;
  num_gpus : option Q;
  input_evaluation : input_evaluation_value;
  batch_mode : pyval;
  evaluation_num_workers : Z;
  evaluation_interval : pyval;
  evaluation_parallel_to_training : option pyval;
}.

(** [config[key] = v] *)
Definition set_model (v : option ModelConfig) (c : Config) : Config :=
  {| model := v; monitor := monitor c; record_env := record_env c;
     callbacks := callbacks c; simple_optimizer := simple_optimizer c;
     multiagent := multiagent c; framework := framework c; num_gpus := num_gpus c;
     input_evaluation := input_evaluation c; batch_mode := batch_mode c;
     evaluation_num_workers := evaluation_num_workers c;
     evaluation_interval := evaluation_interval c;
     evaluation_parallel_to_training := evaluation_parallel_to_training c |}.

Definition set_record_env (v : option pyval) (c : Config) : Config :=
  {| model := model c; monitor := monitor c; record_env := v;
     callbacks := callbacks c; simple_optimizer := simple_optimizer c;
     multiagent := multiagent c; framework := framework c; num_gpus := num_gpus c;
     input_evaluation := input_evaluation c; batch_mode := batch_mode c;
     evaluation_num_workers := evaluation_num_workers c;
     evaluation_interval := evaluation_interval c;
     evaluation_parallel_to_training := evaluation_parallel_to_training c |}.

Definition set_callbacks (v : callbacks_value) (c : Config) : Config :=
  {| model := model c; monitor := monitor c; record_env := record_env c;
     callbacks := v; simple_optimizer := simple_optimizer c;
     multiagent := multiagent c; framework := framework c; num_gpus := num_gpus c;
     input_evaluation := input_evaluation c; batch_mode := batch_mode c;
     evaluation_num_workers := evaluation_num_workers c;
     evaluation_interval := evaluation_interval c;
     evaluation_parallel_to_training := evaluation_parallel_to_training c |}.

Definition set_simple_optimizer (v : option pyval) (c : Config) : Config :=
  {| model := model c; monitor := monitor c; record_env := record_env c;
     callbacks := callbacks c; simple_optimizer := v;
     multiagent := multiagent c; framework := framework c; num_gpus := num_gpus c;
     input_evaluation := input_evaluation c; batch_mode := batch_mode c;
     evaluation_num_workers := evaluation_num_workers c;
     evaluation_interval := evaluation_interval c;
     evaluation_parallel_to_training := evaluation_parallel_to_training c |}.

(** [config["multiagent"]["policies"] = v] *)
Definition set_policies (v : option policies_value) (c : Config) : Config :=
  {| model := model c; monitor := monitor c; record_env := record_env c;
     callbacks := callbacks c; simple_optimizer := simple_optimizer c;
     multiagent := {| policies := v; count_steps_by := count_steps_by (multiagent c) |};
     framework := framework c; num_gpus := num_gpus c;
     input_evaluation := input_evaluation c; batch_mode := batch_mode c;
     evaluation_num_workers := evaluation_num_workers c;
     evaluation_interval := evaluation_interval c;
     evaluation_parallel_to_training := evaluation_parallel_to_training c |}.

Definition set_input_evaluation (v : input_evaluation_value) (c : Config) : Config :=
  {| model := model c; monitor := monitor c; record_env := record_env c;
     callbacks := callbacks c; simple_optimizer := simple_optimizer c;
     multiagent := multiagent c; framework := framework c; num_gpus := num_gpus c;
     input_evaluation := v; batch_mode := batch_mode c;
     evaluation_num_workers := evaluation_num_workers c;
     evaluation_interval := evaluation_interval c;
     evaluation_parallel_to_training := evaluation_parallel_to_training c |}.

Definition set_evaluation_interval (v : pyval) (c : Config) : Config :=
  {| model := model c; monitor := monitor c; record_env := record_env c;
     callbacks := callbacks c; simple_optimizer := simple_optimizer c;
     multiagent := multiagent c; framework := framework c; num_gpus := num_gpus c;
     input_evaluation := input_evaluation c; batch_mode := batch_mode c;
     evaluation_num_workers := evaluation_num_workers c;
     evaluation_interval := v;
     evaluation_parallel_to_training := evaluation_parallel_to_training c |}.

Definition set_evaluation_parallel_to_training (v : option pyval) (c : Config) : Config :=
  {| model := model c; monitor := monitor c; record_env := record_env c;
     callbacks := callbacks c; simple_optimizer := simple_optimizer c;
     multiagent := multiagent c; framework := framework c; num_gpus := num_gpus c;
     input_evaluation := input_evaluation c; batch_mode := batch_mode c;
     evaluation_num_workers := evaluation_num_workers c;
     evaluation_interval := evaluation_interval c;
     evaluation_parallel_to_training := v |}.

(** *** Errors and warnings *)

(** The settings that the validation rejects with a [ValueError], one per
    [raise] of the function, with the value that its message shows. *)
Inductive invalid :=
| policy_key_not_str (pid : pyval)
| policy_spec_not_4_tuple (policy_spec : policy_entry)
| policy_config_not_dict (pid : pyval) (config : obj)
| multi_gpu_eager (framework : option string)
| simple_optimizer_multi_gpu
| simple_optimizer_off_eager (framework : option string)
| input_evaluation_not_list (v : input_evaluation_value)
| batch_mode_unknown (v : pyval)
| count_steps_by_unknown (v : pyval).

(** [TypeError] is what [issubclass] raises on an object that is not a
    class, and a subscript on an object without items; [IndexError] is the
    subscript [p[0]] of an empty sequence. *)
Inductive exception :=
| ValueError (why : invalid)
| TypeError
| IndexError.

Inductive answer (A : Type) :=
| Returns (a : A)
| Raises (e : exception).
Arguments Returns {A} a.
Arguments Raises {A} e.

Inductive warning :=
| deprecation_warning (old : string) (new : option string)
| logger_warning (message : string) (args : list pyval).

(** *** The monad of the validation *)

Definition V (A : Type) : Type := Config → answer A * list warning * Config.

Definition ret {A} (a : A) : V A := λ c, (Returns a, [], c).

Definition bind {A B} (m : V A) (k : A → V B) : V B := λ c,
  match m c with
  | (Returns a, ws, c1) => let '(r, ws', c2) := k a c1 in (r, ws ++ ws', c2)
  | (Raises e, ws, c1) => (Raises e, ws, c1)
  end.

Definition raise {A} (e : exception) : V A := λ c, (Raises e, [], c).

Definition warn (w : warning) : V unit := λ c, (Returns tt, [w], c).

(** [reads f] is the value of [f config]; [update f] is an assignment. *)
Definition reads {A} (f : Config → A) : V A := λ c, (Returns (f c), [], c).

Definition update (f : Config → Config) : V unit := λ c, (Returns tt, [], f c).

Global Instance V_ret : MRet V := @ret.
Global Instance V_bind : MBind V := λ A B k m, bind m k.

(** The three parts of a run. *)
Definition answer_of {A} (x : answer A * list warning * Config) : answer A := x.1.1.
Definition warnings_of {A} (x : answer A * list warning * Config) : list warning := x.1.2.
Definition config_of {A} (x : answer A * list warning * Config) : Config := x.2.

(** [m] keeps the observation [f] of the config, however it ends. *)
Definition keeps {A B} (f : Config → B) (m : V A) : Prop :=
  ∀ c, f (config_of (m c)) = f c.

(** *** The statements of [_validate_config], in order *)

(** [model_config = config.get("model")], replaced by a new dict when it is
    [None]. *)
Definition default_model : V unit :=
  model_config ← reads model;
  match model_config with
  | None =>
      update (set_model (Some {| lstm_use_prev_action_reward := None;
                                 lstm_use_prev_action := None;
                                 lstm_use_prev_reward := None |}))
  | Some _ => ret tt
  end.

(** Monitor should be replaced by [record_env]. *)
Definition replace_monitor : V unit :=
  monitor ← reads monitor;
  if negb (is_DEPRECATED_VALUE (default DEPRECATED_VALUE monitor)) then
    warn (deprecation_warning "monitor" (Some "record_env"));;
    update (set_record_env (Some (default (PyBool false) monitor)))
  else ret tt.

(** Empty string would fail some if-blocks checking for this setting; set
    to [True] instead. *)
Definition default_record_env : V unit :=
  record_env ← reads record_env;
  match record_env with
  | Some v => if eq_str v "" then update (set_record_env (Some (PyBool true))) else ret tt
  | None => ret tt
  end.

(** [DefaultCallbacks] if callbacks is set to [None]. *)
Definition default_callbacks : V unit :=
  callbacks ← reads callbacks;
  match callbacks with
  | CallbacksNone => update (set_callbacks DefaultCallbacks)
  | _ => ret tt
  end.

(** Multi-GPU settings: [simple_optim_setting] is read, with the warning
    for a setting that is not the default. *)
Definition read_simple_optimizer : V pyval :=
  simple_optimizer ← reads simple_optimizer;
  let simple_optim_setting := default DEPRECATED_VALUE simple_optimizer in
  (if negb (is_DEPRECATED_VALUE simple_optim_setting)
   then warn (deprecation_warning "simple_optimizer" None)
   else ret tt);;
  ret simple_optim_setting.

(** The body of the loop over the policies, for the item [pid],
    [policy_spec]: the value of the item as the body leaves it, and the
    error when it raises. *)
Definition check_policy (pid : pyval) (policy_spec : policy_entry)
    : policy_entry * option invalid :=
  if negb (isinstance_str pid) then (policy_spec, Some (policy_key_not_str pid))
  else
    let converted :=
      match policy_spec with
      | Spec spec => Some spec
      | Seq [a; b; c; d] =>
          Some {| policy_class := a; observation_space := b;
                  action_space := c; config := d |}
      | _ => None
      end in
    match converted with
    | None => (policy_spec, Some (policy_spec_not_4_tuple policy_spec))
    | Some spec =>
        if is_None_obj (config spec)
        then (Spec (_replace_config spec (Val (PyDict []))), None)
        else if negb (isinstance_dict_obj (config spec))
             then (Spec spec, Some (policy_config_not_dict pid (config spec)))
             else (Spec spec, None)
    end.

(** The loop over the items of [policies]: the items as the loop leaves
    them, and the error when it raises. *)
Fixpoint check_policy_loop (items : list (pyval * policy_entry))
    : list (pyval * policy_entry) * option invalid :=
  match items with
  | [] => ([], None)
  | (pid, policy_spec) :: items' =>
      match check_policy pid policy_spec with
      | (entry, Some e) => ((pid, entry) :: items', Some e)
      | (entry, None) =>
          let '(checked, r) := check_policy_loop items' in
          ((pid, entry) :: checked, r)
      end
  end.

(** [not policies] *)
Definition no_policies (policies : option policies_value) : bool :=
  match policies with
  | None | Some (PolicySet []) | Some (PolicyDict []) => true
  | _ => false
  end.

(** [pid in policies] and [len(policies)] for a dict. *)
Definition has_policy (pid : string) (items : list (pyval * policy_entry)) : bool :=
  existsb (λ item, eq_str item.1 pid) items.

(** Loop through all policy definitions in multi-agent policies; the result
    is [is_multiagent]. *)
Definition check_policies : V bool :=
  multiagent_config ← reads multiagent;
  let policies :=
    match policies multiagent_config with
    | Some given =>
        if no_policies (Some given) then PolicySet [PyStr DEFAULT_POLICY_ID] else given
    | None => PolicySet [PyStr DEFAULT_POLICY_ID]
    end in
  policies ← match policies with
             | PolicySet pids =>
                 let items := (λ pid, (pid, Spec PolicySpec_default)) <$> pids in
                 update (set_policies (Some (PolicyDict items)));;
                 ret items
             | PolicyDict items => ret items
             end;
  let is_multiagent :=
    (1 <? length policies) || negb (has_policy DEFAULT_POLICY_ID policies) in
  let '(checked, r) := check_policy_loop policies in
  update (set_policies (Some (PolicyDict checked)));;
  match r with
  | Some e => raise (ValueError e)
  | None => ret is_multiagent
  end.

(** [framework in ["tfe", "tf2"]] and [framework in ["tf", "torch"]] *)
Definition eager (framework : option string) : bool :=
  match framework with
  | Some f => String.eqb f "tfe" || String.eqb f "tf2"
  | None => false
  end.

Definition graph_or_torch (framework : option string) : bool :=
  match framework with
  | Some f => String.eqb f "tf" || String.eqb f "torch"
  | None => false
  end.

(** What [_validate_config] reads of [trainer_obj_or_none]: [None] for no
    trainer, and else the attribute [_policy_class] of the trainer, when it
    has one. *)
Definition default_policy_cls (trainer_obj_or_none : option (option obj)) : obj :=
  match trainer_obj_or_none with
  | None => Val PyNone
  | Some _policy_class => default (Val PyNone) _policy_class
  end.

(** [p[0]] for a value [p] of the dict of policies. *)
Definition first_field (p : policy_entry) : exception + obj :=
  match p with
  | Spec spec => inr (policy_class spec)
  | Seq (o :: _) => inr o
  | Seq [] => inl IndexError
  | NotASpec _ => inl TypeError
  end.

(** The condition of the [any] over the policies: the class of the policy,
    or the default class, is [None] or not a subclass of
    [DynamicTFPolicy] or [TorchPolicy]. *)
Definition needs_simple_optimizer (default_policy_cls : obj) (p : policy_entry)
    : exception + bool :=
  match first_field p with
  | inl e => inl e
  | inr p0 =>
      let cls := if truthy_obj p0 then p0 else default_policy_cls in
      if is_None_obj cls then inr true
      else match cls with
           | Cls c => inr (negb (multi_gpu c))
           | _ => inl TypeError
           end
  end.

(** [any(... for p in policies.values())], which stops at the first policy
    that makes the condition true. *)
Fixpoint any_needs_simple_optimizer (default_policy_cls : obj)
    (values : list policy_entry) : exception + bool :=
  match values with
  | [] => inr false
  | p :: values' =>
      match needs_simple_optimizer default_policy_cls p with
      | inl e => inl e
      | inr true => inr true
      | inr false => any_needs_simple_optimizer default_policy_cls values'
      end
  end.

(** [v is True] and [v is False] *)
Definition is_True (v : pyval) : bool :=
  match v with PyBool true => true | _ => false end.

Definition is_False (v : pyval) : bool :=
  match v with PyBool false => true | _ => false end.

(** [config.get("num_gpus", 0) > 1] *)
Definition multi_gpu_setting (num_gpus : option Q) : bool :=
  negb (Qle_bool (default 0%Q num_gpus) 1).

(** The multi-GPU setting and the auto-setting of [simple_optimizer]. *)
Definition resolve_simple_optimizer (simple_optim_setting : pyval)
    (is_multiagent : bool) (trainer_obj_or_none : option (option obj)) : V unit :=
  framework ← reads framework;
  num_gpus ← reads num_gpus;
  if multi_gpu_setting num_gpus then
    if eager framework then raise (ValueError (multi_gpu_eager framework))
    else if is_True simple_optim_setting
         then raise (ValueError simple_optimizer_multi_gpu)
         else update (set_simple_optimizer (Some (PyBool false)))
  else if is_DEPRECATED_VALUE simple_optim_setting then
    if negb (graph_or_torch framework)
    then update (set_simple_optimizer (Some (PyBool true)))
    else if is_multiagent then
      multiagent_config ← reads multiagent;
      let values :=
        match policies multiagent_config with
        | Some (PolicyDict items) => items.*2
        | _ => []
        end in
      match any_needs_simple_optimizer (default_policy_cls trainer_obj_or_none) values with
      | inl e => raise e
      | inr true => update (set_simple_optimizer (Some (PyBool true)))
      | inr false => update (set_simple_optimizer (Some (PyBool false)))
      end
    else update (set_simple_optimizer (Some (PyBool false)))
  else if is_False simple_optim_setting then
    if eager framework then raise (ValueError (simple_optimizer_off_eager framework))
    else ret tt
  else ret tt.

(** Offline RL settings. *)
Definition check_input_evaluation : V unit :=
  input_evaluation ← reads input_evaluation;
  match input_evaluation with
  | InputTuple elements => update (set_input_evaluation (InputList elements))
  | InputList _ => ret tt
  | InputOther _ => raise (ValueError (input_evaluation_not_list input_evaluation))
  end.

(** Check model config: [model_config] is the dict that the first statement
    read or made, which is the one under [model]. *)
Definition replace_lstm_use_prev_action_reward : V unit :=
  model ← reads model;
  let model_config :=
    default {| lstm_use_prev_action_reward := None; lstm_use_prev_action := None;
               lstm_use_prev_reward := None |} model in
  let prev_a_r := default DEPRECATED_VALUE (lstm_use_prev_action_reward model_config) in
  if negb (is_DEPRECATED_VALUE prev_a_r) then
    warn (deprecation_warning "model.lstm_use_prev_action_reward"
            (Some "model.lstm_use_prev_action and model.lstm_use_prev_reward"));;
    update (set_model
              (Some {| lstm_use_prev_action_reward :=
                         lstm_use_prev_action_reward model_config;
                       lstm_use_prev_action := Some prev_a_r;
                       lstm_use_prev_reward := Some prev_a_r |}))
  else ret tt.

(** Check batching/sample collection settings. *)
Definition check_batch_mode : V unit :=
  batch_mode ← reads batch_mode;
  if negb (eq_str batch_mode "truncate_episodes" || eq_str batch_mode "complete_episodes")
  then raise (ValueError (batch_mode_unknown batch_mode))
  else ret tt.

(** Check multi-agent batch count mode. *)
Definition check_count_steps_by : V unit :=
  multiagent_config ← reads multiagent;
  let count_steps_by := default (PyStr "env_steps") (count_steps_by multiagent_config) in
  if negb (eq_str count_steps_by "env_steps" || eq_str count_steps_by "agent_steps")
  then raise (ValueError (count_steps_by_unknown count_steps_by))
  else ret tt.

Definition no_evaluation_interval_warning : string :=
  String.concat ""
    [ "You have specified {} evaluation workers, but no evaluation ";
      "interval! Will set the interval to 1 (each `train()` call). ";
      "If this is too frequent, set `evaluation_interval` to some ";
      "larger value." ].

Definition no_parallel_evaluation_warning : string :=
  String.concat ""
    [ "`evaluation_parallel_to_training` can only be done if ";
      "`evaluation_num_workers` > 0! Setting ";
      "`evaluation_parallel_to_training` to False." ].

(** If [evaluation_num_workers] > 0, warn if [evaluation_interval] is
    [None] (also set it to 1). *)
Definition check_evaluation : V unit :=
  evaluation_num_workers ← reads evaluation_num_workers;
  evaluation_interval ← reads evaluation_interval;
  evaluation_parallel_to_training ← reads evaluation_parallel_to_training;
  if (0 <? evaluation_num_workers)%Z && negb (truthy evaluation_interval) then
    warn (logger_warning no_evaluation_interval_warning [PyInt evaluation_num_workers]);;
    update (set_evaluation_interval (PyInt 1))
  else if (evaluation_num_workers =? 0)%Z
          && truthy (default (PyBool false) evaluation_parallel_to_training) then
    warn (logger_warning no_parallel_evaluation_warning []);;
    update (set_evaluation_parallel_to_training (Some (PyBool false)))
  else ret tt.

Definition _validate_config (trainer_obj_or_none : option (option obj)) : V unit :=
  default_model;;
  replace_monitor;;
  default_record_env;;
  default_callbacks;;
  simple_optim_setting ← read_simple_optimizer;
  is_multiagent ← check_policies;
  resolve_simple_optimizer simple_optim_setting is_multiagent trainer_obj_or_none;;
  check_input_evaluation;;
  replace_lstm_use_prev_action_reward;;
  check_batch_mode;;
  check_count_steps_by;;
  check_evaluation.

(** *** Observations on configs *)

(** An item of the dict of policies as the validation wants it: the key is a
    string and the value a [PolicySpec] whose config is a dict. *)
Definition normalized (item : pyval * policy_entry) : Prop :=
  isinstance_str item.1 = true ∧
  ∃ spec, item.2 = Spec spec ∧ isinstance_dict_obj (config spec) = true.

(** The ids of the policies that a config names: those of the set or dict
    under [multiagent.policies], and the default id when there is none. *)
Definition policy_ids (policies : option policies_value) : list pyval :=
  match policies with
  | Some (PolicySet (pid :: pids)) => pid :: pids
  | Some (PolicyDict (item :: items)) => (item :: items).*1
  | _ => [PyStr DEFAULT_POLICY_ID]
  end.

(** A config on which the validation has nothing left to do: every key
    that it would set has the value that it would give it, and every check
    passes. *)
Definition settled (c : Config) : Prop :=
  (∃ m, model c = Some m ∧
        ∀ v, lstm_use_prev_action_reward m = Some v → is_DEPRECATED_VALUE v = false →
             lstm_use_prev_action m = Some v ∧ lstm_use_prev_reward m = Some v) ∧
  (∀ m, monitor c = Some m → is_DEPRECATED_VALUE m = false →
        record_env c = Some (if eq_str m "" then PyBool true else m)) ∧
  (∀ v, record_env c = Some v → eq_str v "" = false) ∧
  callbacks c ≠ CallbacksNone ∧
  (∃ items, policies (multiagent c) = Some (PolicyDict items) ∧ items ≠ [] ∧
            check_policy_loop items = (items, None)) ∧
  (∃ v, simple_optimizer c = Some v ∧ is_DEPRECATED_VALUE v = false ∧
        (multi_gpu_setting (num_gpus c) = true →
         v = PyBool false ∧ eager (framework c) = false) ∧
        (eager (framework c) = true → v ≠ PyBool false)) ∧
  (∃ l, input_evaluation c = InputList l) ∧
  eq_str (batch_mode c) "truncate_episodes"
    || eq_str (batch_mode c) "complete_episodes" = true ∧
  (let v := default (PyStr "env_steps") (count_steps_by (multiagent c)) in
   eq_str v "env_steps" || eq_str v "agent_steps" = true) ∧
  (0 <? evaluation_num_workers c)%Z && negb (truthy (evaluation_interval c)) = false ∧
  (evaluation_num_workers c =? 0)%Z
    && truthy (default (PyBool false) (evaluation_parallel_to_training c)) = false.

(** The keys that no statement of the validation assigns. *)
Definition fixed_keys (c : Config)
    : option pyval * option string * option Q * pyval * Z * option pyval :=
  (monitor c, framework c, num_gpus c, batch_mode c, evaluation_num_workers c,
   count_steps_by (multiagent c)).

(** *** Example configs *)

(** The values that [COMMON_CONFIG] gives to these keys, with an empty dict
    for the model. *)
Definition default_settings : Config := {|
  model := Some {| lstm_use_prev_action_reward := None; lstm_use_prev_action := None;
                   lstm_use_prev_reward := None |};
  monitor := Some DEPRECATED_VALUE;
  record_env := Some (PyBool false);
  callbacks := DefaultCallbacks;
  simple_optimizer := Some DEPRECATED_VALUE;
  multiagent := {| policies := Some (PolicyDict []);
                   count_steps_by := Some (PyStr "env_steps") |};
  framework := Some "tf";
  num_gpus := Some 0%Q;
  input_evaluation := InputList [PyStr "is"; PyStr "wis"];
  batch_mode := PyStr "truncate_episodes";
  evaluation_num_workers := 0;
  evaluation_interval := PyNone;
  evaluation_parallel_to_training := Some (PyBool false);
|}.

(** The default settings with two evaluation workers: no evaluation
    interval is given. *)
Definition evaluation_without_interval : Config := {|
  model := model default_settings;
  monitor := monitor default_settings;
  record_env := record_env default_settings;
  callbacks := callbacks default_settings;
  simple_optimizer := simple_optimizer default_settings;
  multiagent := multiagent default_settings;
  framework := framework default_settings;
  num_gpus := num_gpus default_settings;
  input_evaluation := input_evaluation default_settings;
  batch_mode := batch_mode default_settings;
  evaluation_num_workers := 2;
  evaluation_interval := PyNone;
  evaluation_parallel_to_training := evaluation_parallel_to_training default_settings;
|}.

(** A config with deprecated keys, two policies named by a set, a tuple of
    estimators, and two evaluation workers without an evaluation
    interval. *)
Definition legacy_settings : Config := {|
  model := Some {| lstm_use_prev_action_reward := Some (PyBool true);
                   lstm_use_prev_action := None; lstm_use_prev_reward := None |};
  monitor := Some (PyStr "");
  record_env := Some (PyBool false);
  callbacks := CallbacksNone;
  simple_optimizer := Some DEPRECATED_VALUE;
  multiagent := {| policies := Some (PolicySet [PyStr "pursuer"; PyStr "evader"]);
                   count_steps_by := None |};
  framework := Some "torch";
  num_gpus := Some 0%Q;
  input_evaluation := InputTuple [PyStr "is"];
  batch_mode := PyStr "complete_episodes";
  evaluation_num_workers := 2;
  evaluation_interval := PyNone;
  evaluation_parallel_to_training := None;
|}.

End Validation.

(** * Properties *)

(** ** The monad: runs of composed computations *)

Section OrchestratorFacts.
Context {Env : Type} `{Cluster Env}.
Local Abbreviation State := (@Sys Env).
Local Abbreviation emits := (emits (Env:=Env)).
Local Abbreviation keeps_self := (keeps_self (Env:=Env)).

Lemma run_bind {A B} (m : M A) (k : A → M B) (s : State) :
  (m ≫= k) s =
  match m s with
  | (Ok a, tr, s1) => let '(r, tr', s2) := k a s1 in (r, tr ++ tr', s2)
  | (Raise e, tr, s1) => (Raise e, tr, s1)
  end.
Proof. reflexivity. Qed.

Lemma run_bind_ok {A B} (m : M A) (k : A → M B) (s s1 : State) a tr :
  m s = (Ok a, tr, s1) →
  (m ≫= k) s = (res (k a s1), tr ++ trace (k a s1), final (k a s1)).
Proof.
  intros Hm. rewrite run_bind, Hm. by destruct (k a s1) as [[r tr'] s2].
Qed.

Lemma run_bind_raise {A B} (m : M A) (k : A → M B) (s s1 : State) e tr :
  m s = (Raise e, tr, s1) → (m ≫= k) s = (Raise e, tr, s1).
Proof. intros Hm. by rewrite run_bind, Hm. Qed.

Lemma res_bind {A B} (m : M A) (k : A → M B) (s : State) :
  res ((m ≫= k) s) =
  match res (m s) with
  | Ok a => res (k a (final (m s)))
  | Raise e => Raise e
  end.
Proof.
  rewrite run_bind. destruct (m s) as [[[a|e] tr] s1]; cbn; [|done].
  by destruct (k a s1) as [[r tr'] s2].
Qed.

Lemma trace_bind {A B} (m : M A) (k : A → M B) (s : State) :
  trace ((m ≫= k) s) =
  trace (m s) ++ match res (m s) with
                 | Ok a => trace (k a (final (m s)))
                 | Raise e => []
                 end.
Proof.
  rewrite run_bind. destruct (m s) as [[[a|e] tr] s1]; cbn.
  - by destruct (k a s1) as [[r tr'] s2].
  - by rewrite app_nil_r.
Qed.

Lemma final_bind {A B} (m : M A) (k : A → M B) (s : State) :
  final ((m ≫= k) s) =
  match res (m s) with
  | Ok a => final (k a (final (m s)))
  | Raise e => final (m s)
  end.
Proof.
  rewrite run_bind. destruct (m s) as [[[a|e] tr] s1]; cbn; [|done].
  by destruct (k a s1) as [[r tr'] s2].
Qed.

Lemma run_eta {A} (x : result A * list event * State) :
  x = (res x, trace x, final x).
Proof. by destruct x as [[r tr] s]. Qed.

(** *** Computations all of whose events satisfy a predicate *)

Lemma emits_ret {A} P (a : A) : emits P (ret a).
Proof. intros s. constructor. Qed.

Lemma emits_mret {A} P (a : A) : emits P (mret a : M A).
Proof. intros s. constructor. Qed.

Lemma emits_raise {A} P e : emits P (raise e : M A).
Proof. intros s. constructor. Qed.

Lemma emits_get_self P : emits P get_self.
Proof. intros s. constructor. Qed.

Lemma emits_put_self P t : emits P (put_self t).
Proof. intros s. constructor. Qed.

Lemma emits_emit (P : event → Prop) ev : P ev → emits P (emit ev).
Proof. intros HP s. by repeat constructor. Qed.

Lemma emits_logger (P : event → Prop) level fmt args :
  P (EvLog level fmt args) → emits P (logger level fmt args).
Proof. apply emits_emit. Qed.

Lemma emits_bind {A B} P (m : M A) (k : A → M B) :
  emits P m → (∀ a, emits P (k a)) → emits P (m ≫= k).
Proof.
  intros Hm Hk s. rewrite run_bind.
  specialize (Hm s). destruct (m s) as [[[a|e] tr] s1]; cbn in *; [|done].
  specialize (Hk a s1). destruct (k a s1) as [[r tr'] s2]; cbn in *.
  by apply Forall_app.
Qed.

Lemma emits_try_except {A} P (m : M A) handler :
  emits P m → (∀ e, emits P (handler e)) → emits P (try_except m handler).
Proof.
  intros Hm Hk s. unfold try_except.
  specialize (Hm s). destruct (m s) as [[[a|e] tr] s1]; cbn in *; [done|].
  specialize (Hk e s1). destruct (handler e s1) as [[r tr'] s2]; cbn in *.
  by apply Forall_app.
Qed.

Lemma emits_for_each {A} P (l : list A) body :
  (∀ x, emits P (body x)) → emits P (for_each l body).
Proof.
  intros Hb. induction l as [|x l IH]; cbn.
  - apply emits_ret.
  - apply emits_bind; auto.
Qed.

Lemma emits_mapM {A B} P (f : A → M B) (l : list A) :
  (∀ x, emits P (f x)) → emits P (mapM f l).
Proof.
  intros Hf. induction l as [|x l IH]; cbn.
  - apply emits_mret.
  - apply emits_bind; [done|]. intros y. apply emits_bind; [done|].
    intros ys. apply emits_mret.
Qed.

Lemma emits_remote (P : event → Prop) w m :
  P (EvRemote w m) → emits P (remote w m).
Proof.
  intros HP. apply emits_bind; [by apply emits_emit|]. intros _. apply emits_ret.
Qed.

Lemma emits_call_ray_get (P : event → Prop) refs :
  (∀ r, P (EvRayGet refs r)) → emits P (call_ray_get refs).
Proof.
  intros HP s. unfold call_ray_get. destruct (ray_get refs (env s)) as [r e'].
  by repeat constructor.
Qed.

Lemma emits_call_local (P : event → Prop) w m :
  (∀ r, P (EvLocal w m r)) → emits P (call_local w m).
Proof.
  intros HP s. unfold call_local. destruct (local_call w m (env s)) as [r e'].
  by repeat constructor.
Qed.

Lemma emits_call_lib (P : event → Prop) c :
  (∀ r, P (EvLib c r)) → emits P (call_lib c).
Proof.
  intros HP s. unfold call_lib. destruct (lib_call c (env s)) as [r e'].
  by repeat constructor.
Qed.

Lemma emits_call_Trainable_train (P : event → Prop) :
  (∀ r t, P (EvTrainableTrain r t)) → emits P call_Trainable_train.
Proof.
  intros HP s. unfold call_Trainable_train.
  destruct (Trainable_train (self s) (env s)) as [[r t'] e'].
  by repeat constructor.
Qed.

Lemma emits_self_workers P : emits P self_workers.
Proof.
  apply emits_bind; [apply emits_get_self|]. intros t.
  destruct (workers t); [apply emits_ret | apply emits_raise].
Qed.

Lemma emits_if {A} P (b : bool) (m1 m2 : M A) :
  emits P m1 → emits P m2 → emits P (if b then m1 else m2).
Proof. by destruct b. Qed.

End OrchestratorFacts.

Ltac solve_emits :=
  repeat first
    [ progress intros
    | apply emits_bind | apply emits_try_except
    | apply emits_for_each | apply emits_mapM
    | apply emits_ret | apply emits_mret | apply emits_raise
    | apply emits_get_self | apply emits_put_self | apply emits_self_workers
    | apply emits_logger | apply emits_emit | apply emits_remote
    | apply emits_call_ray_get | apply emits_call_local | apply emits_call_lib
    | apply emits_call_Trainable_train
    | match goal with |- emits _ (match ?x with _ => _ end) => destruct x end
    | done ].

(** ** [train]: the retry loop *)

Section TrainFacts.
Context {Env : Type} `{Cluster Env}.
Local Abbreviation State := (@Sys Env).
Local Abbreviation emits := (emits (Env:=Env)).
Local Abbreviation keeps_self := (keeps_self (Env:=Env)).

Lemma check_loop_emits P workers i checks healthy_workers :
  (∀ refs r, P (EvRayGet refs r)) → (∀ l f a, P (EvLog l f a)) →
  (∀ w m, P (EvRemote w m)) →
  emits P (check_loop workers i checks healthy_workers).
Proof.
  intros ???. revert i healthy_workers.
  induction checks as [|c checks IH]; intros i hw; cbn [check_loop];
    unfold check_one; solve_emits.
Qed.

Lemma _try_recover_emits P :
  (∀ refs r, P (EvRayGet refs r)) → (∀ l f a, P (EvLog l f a)) →
  (∀ w m, P (EvRemote w m)) →
  emits P _try_recover.
Proof.
  intros ???. unfold _try_recover. solve_emits. by apply check_loop_emits.
Qed.

Lemma train_loop_step n (s : State) :
  train_loop (S n) s =
  let '(r, t1, e1) := Trainable_train (self s) (env s) in
  match r with
  | Ok v => (Ok v, [EvTrainableTrain r t1], {| self := t1; env := e1 |})
  | Raise e =>
      if is_RayError e then
        if ignore_worker_failures (config t1) then
          match _try_recover {| self := t1; env := e1 |} with
          | (Ok _, tr2, s2) =>
              (res (train_loop n s2),
               EvTrainableTrain r t1 :: EvLog ERROR attempting_to_recover_message []
                 :: tr2 ++ trace (train_loop n s2),
               final (train_loop n s2))
          | (Raise e2, tr2, s2) =>
              (Raise e2,
               EvTrainableTrain r t1 :: EvLog ERROR attempting_to_recover_message []
                 :: tr2, s2)
          end
        else (Raise e, [EvTrainableTrain r t1; EvLog INFO worker_crashed_message []],
              {| self := t1; env := e1 |})
      else (Raise e, [EvTrainableTrain r t1; EvSleep], {| self := t1; env := e1 |})
  end.
Proof.
  cbn [train_loop]. rewrite run_bind. unfold try_except at 1.
  rewrite run_bind. unfold call_Trainable_train at 1.
  destruct (Trainable_train (self s) (env s)) as [[[v|e] t1] e1]; [done|].
  destruct (is_RayError e) eqn:He; [|done].
  rewrite run_bind. cbn [get_self self config].
  destruct (ignore_worker_failures (config t1)); [|done].
  rewrite !run_bind. cbn [logger emit].
  destruct (_try_recover _) as [[[[]|e2] tr2] s2] eqn:Hrec.
  - rewrite (run_bind_ok _ _ _ _ _ _ Hrec). cbn.
    rewrite app_nil_r. by destruct (train_loop n s2) as [[r3 tr3] s3].
  - by rewrite (run_bind_raise _ _ _ _ _ _ Hrec).
Qed.



Lemma count_app p tr1 tr2 : count p (tr1 ++ tr2) = count p tr1 + count p tr2.
Proof. unfold count. by rewrite List.filter_app, length_app. Qed.

Lemma count_cons p ev tr :
  count p (ev :: tr) = (if p ev then 1 else 0) + count p tr.
Proof. unfold count. cbn. by destruct (p ev). Qed.

Lemma count_none p tr : Forall (λ ev, p ev = false) tr → count p tr = 0.
Proof.
  unfold count. induction 1 as [|ev tr Hev _ IH]; [done|].
  cbn. by rewrite Hev.
Qed.

Lemma attempts_app tr1 tr2 : attempts (tr1 ++ tr2) = attempts tr1 + attempts tr2.
Proof. apply count_app. Qed.

Lemma attempts_cons ev tr :
  attempts (ev :: tr) = (if is_attempt ev then 1 else 0) + attempts tr.
Proof. apply count_cons. Qed.

Lemma attempts_none tr :
  Forall (λ ev, is_attempt ev = false) tr → attempts tr = 0.
Proof. apply count_none. Qed.

Lemma _try_recover_attempts (s : State) : attempts (trace (_try_recover s)) = 0.
Proof. apply attempts_none. by apply _try_recover_emits. Qed.

Lemma train_loop_attempts n (s : State) : attempts (trace (train_loop n s)) ≤ n.
Proof.
  revert s. induction n as [|n IH]; intros s; [done|].
  rewrite train_loop_step.
  destruct (Trainable_train (self s) (env s)) as [[[v|e] t1] e1]; [cbn; lia|].
  destruct (is_RayError e); [|cbn; lia].
  destruct (ignore_worker_failures (config t1)); [|cbn; lia].
  pose proof (_try_recover_attempts {| self := t1; env := e1 |}) as Hrec.
  destruct (_try_recover _) as [[[[]|e2] tr2] s2]; unfold trace at 1 in Hrec;
    unfold trace at 1; cbn [fst snd] in *;
    rewrite !attempts_cons, ?attempts_app, Hrec; cbn [is_attempt].
  - specialize (IH s2). lia.
  - lia.
Qed.

(** The value the loop ends with is [None] or the value of a step of the
    loop that returned. *)
Lemma train_loop_result n (s : State) v :
  res (train_loop n s) = Ok v →
  v = PyNone ∨ ∃ t, EvTrainableTrain (Ok v) t ∈ trace (train_loop n s).
Proof.
  revert s. induction n as [|n IH]; intros s.
  { cbn. intros [= <-]. by left. }
  rewrite train_loop_step.
  destruct (Trainable_train (self s) (env s)) as [[[v'|e] t1] e1].
  { cbn. intros [= <-]. right. exists t1. set_solver. }
  destruct (is_RayError e); [|done].
  destruct (ignore_worker_failures (config t1)); [|done].
  destruct (_try_recover _) as [[[[]|e2] tr2] s2]; [|done].
  unfold res at 1, trace at 1; cbn [fst snd]. intros Hv.
  destruct (IH _ Hv) as [->|[t Ht]]; [by left|].
  right. exists t. set_solver.
Qed.

Lemma after_loop_emits P result :
  (∀ c r, P (EvLib c r)) → (∀ l f a, P (EvLog l f a)) → emits P (after_loop result).
Proof. intros ??. unfold after_loop, _sync_filters_if_needed. solve_emits. Qed.

Lemma after_loop_result result (s : State) v :
  res (after_loop result s) = Ok v → v = result ∧ result ≠ PyNone.
Proof.
  unfold after_loop. rewrite res_bind.
  destruct (is_None result) eqn:Hn; [by cbn|]. cbn [ret res final fst snd].
  rewrite !res_bind. cbn [get_self res final fst snd].
  rewrite res_bind.
  match goal with |- context [res (?m s)] => destruct (res (m s)) end; [|done].
  cbn. intros [= <-]. split; [done|].
  by intros ->.
Qed.

(** C1.  A call of [train] attempts the training step at most 1 + R times,
    R = MAX_WORKER_FAILURE_RETRIES = 3.  When it returns a value, the value
    is not [None] and is the value that an attempt of this call returned;
    so when no attempt returns a result, [train] raises. *)
Theorem train_retry_bound (s : State) :
  MAX_WORKER_FAILURE_RETRIES = 3 ∧
  attempts (trace (train s)) ≤ 1 + MAX_WORKER_FAILURE_RETRIES ∧
  (∀ v, res (train s) = Ok v →
        v ≠ PyNone ∧ ∃ t, EvTrainableTrain (Ok v) t ∈ trace (train s)) ∧
  ((∀ v t, EvTrainableTrain (Ok v) t ∈ trace (train s) → v = PyNone) →
   ∃ e, res (train s) = Raise e).
Proof.
  assert (Hret : ∀ v, res (train s) = Ok v →
            v ≠ PyNone ∧ ∃ t, EvTrainableTrain (Ok v) t ∈ trace (train s)).
  { intros v. unfold train. rewrite res_bind, trace_bind.
    destruct (res (train_loop _ s)) as [result|e] eqn:Hloop; [|done].
    intros [-> Hnone]%after_loop_result. split; [done|].
    destruct (train_loop_result _ _ _ Hloop) as [?|[t Ht]]; [done|].
    exists t. set_solver. }
  split_and!; [done| |done|].
  - unfold train. rewrite trace_bind, attempts_app.
    pose proof (train_loop_attempts (1 + MAX_WORKER_FAILURE_RETRIES) s).
    destruct (res (train_loop _ s)) as [result|e];
      [|change (attempts []) with 0; lia].
    rewrite (attempts_none (trace (after_loop _ _))); [lia|].
    by apply after_loop_emits.
  - intros Hnone. destruct (res (train s)) as [v|e] eqn:Hres; [|by eexists].
    destruct (Hret v eq_refl) as [Hv [t Ht]]. by destruct (Hnone _ _ Ht).
Qed.

(** Where an element that is not in [l1] sits in [l1 ++ l2]. *)
Lemma app_split_l {A} (P : A → Prop) (l1 l2 pre post : list A) x :
  l1 ++ l2 = pre ++ x :: post → Forall (λ y, ¬ P y) l1 → P x →
  ∃ pre', pre = l1 ++ pre' ∧ l2 = pre' ++ x :: post.
Proof.
  revert pre. induction l1 as [|y l1 IH]; intros pre Heq Hl1 Hx.
  - by exists pre.
  - inversion Hl1 as [|?? Hy Hl1']; subst. destruct pre as [|p pre]; cbn in Heq.
    + injection Heq as -> _. done.
    + injection Heq as <- Heq. destruct (IH _ Heq Hl1' Hx) as (pre' & -> & ->).
      by exists pre'.
Qed.

Lemma app_split_r {A} (P : A → Prop) (l1 l2 pre post : list A) x :
  l1 ++ l2 = pre ++ x :: post → Forall (λ y, ¬ P y) l2 → P x →
  ∃ post', post = post' ++ l2 ∧ l1 = pre ++ x :: post'.
Proof.
  revert pre. induction l1 as [|y l1 IH]; intros pre Heq Hl2 Hx.
  - cbn in Heq. subst l2. apply Forall_app in Hl2 as [_ Hl2].
    inversion Hl2; subst. done.
  - destruct pre as [|p pre]; cbn in Heq.
    + injection Heq as -> <-. by exists l1.
    + injection Heq as <- Heq. destruct (IH _ Heq Hl2 Hx) as (post' & -> & ->).
      by exists post'.
Qed.

Lemma _try_recover_no_attempt (s : State) :
  Forall (λ ev, ¬ is_attempt ev = true) (trace (_try_recover s)).
Proof. apply _try_recover_emits; by intros. Qed.

Lemma train_loop_failure n (s : State) pre e t post :
  trace (train_loop n s) = pre ++ EvTrainableTrain (Raise e) t :: post →
  failure_handled (res (train_loop n s)) e t post.
Proof.
  revert s pre. induction n as [|n IH]; intros s pre.
  { cbn. by destruct pre. }
  rewrite train_loop_step.
  destruct (Trainable_train (self s) (env s)) as [[[v|e0] t1] e1].
  { cbn. destruct pre as [|? [|??]]; done. }
  destruct (is_RayError e0) eqn:He0.
  2:{ cbn. destruct pre as [|? [|? [|??]]]; intros [=]; subst.
      split_and!; [done|congruence..]. }
  destruct (ignore_worker_failures (config t1)) eqn:Hig.
  2:{ cbn. destruct pre as [|? [|? [|??]]]; intros [=]; subst.
      split_and!; [congruence|done|congruence]. }
  pose proof (_try_recover_no_attempt {| self := t1; env := e1 |}) as Hrec.
  destruct (_try_recover _) as [[[[]|e2] tr2] s2]; unfold trace at 1 in Hrec;
    unfold trace at 1, res at 1; cbn [fst snd] in *.
  - destruct pre as [|p pre]; cbn; intros [=]; subst.
    { split_and!; [congruence..|]. by eexists. }
    destruct pre as [|p' pre]; simplify_eq/=.
    match goal with Heq : _ ++ _ = _ ++ _ |- _ =>
      apply (app_split_l (λ ev, is_attempt ev = true)) in Heq as (pre' & -> & Heq);
        [|done..] end.
    by eapply IH.
  - destruct pre as [|p pre]; cbn; intros [=]; subst.
    { split_and!; [congruence..|]. by eexists. }
    destruct pre as [|p' pre]; simplify_eq/=.
    apply Forall_app in Hrec as [_ Hrec]. by inversion Hrec.
Qed.

Lemma train_loop_retry n (s : State) pre out t post :
  trace (train_loop n s) = pre ++ EvTrainableTrain out t :: post →
  attempts post ≠ 0 → tolerated out t.
Proof.
  revert s pre. induction n as [|n IH]; intros s pre.
  { cbn. by destruct pre. }
  rewrite train_loop_step.
  destruct (Trainable_train (self s) (env s)) as [[[v|e0] t1] e1].
  { cbn. destruct pre as [|? [|??]]; intros [=]; by subst. }
  destruct (is_RayError e0) eqn:He0.
  2:{ cbn. destruct pre as [|? [|? [|??]]]; intros [=]; by subst. }
  destruct (ignore_worker_failures (config t1)) eqn:Hig.
  2:{ cbn. destruct pre as [|? [|? [|??]]]; intros [=]; by subst. }
  pose proof (_try_recover_no_attempt {| self := t1; env := e1 |}) as Hrec.
  destruct (_try_recover _) as [[[[]|e2] tr2] s2]; unfold trace at 1 in Hrec;
    unfold trace at 1; cbn [fst snd] in *.
  - destruct pre as [|p pre]; cbn; intros [=]; subst.
    { intros _. by exists e0. }
    destruct pre as [|p' pre]; simplify_eq/=.
    match goal with Heq : _ ++ _ = _ ++ _ |- _ =>
      apply (app_split_l (λ ev, is_attempt ev = true)) in Heq as (pre' & -> & Heq);
        [|done..] end.
    by eapply IH.
  - destruct pre as [|p pre]; cbn; intros [=]; subst.
    { intros _. by exists e0. }
    destruct pre as [|p' pre]; simplify_eq/=.
    apply Forall_app in Hrec as [_ Hrec]. by inversion Hrec.
Qed.

Lemma train_loop_probe n (s : State) pre w post :
  trace (train_loop n s) = pre ++ EvRemote w sample_with_count :: post →
  ∃ e t, EvTrainableTrain (Raise e) t ∈ pre ∧ is_RayError e = true ∧
         ignore_worker_failures (config t) = true.
Proof.
  destruct n as [|n].
  { cbn. by destruct pre. }
  rewrite train_loop_step.
  destruct (Trainable_train (self s) (env s)) as [[[v|e0] t1] e1].
  { cbn. destruct pre as [|? [|??]]; intros [=]. }
  destruct (is_RayError e0) eqn:He0.
  2:{ cbn. by destruct pre as [|? [|? [|??]]]. }
  destruct (ignore_worker_failures (config t1)) eqn:Hig.
  2:{ cbn. by destruct pre as [|? [|? [|??]]]. }
  destruct (_try_recover _) as [[[[]|e2] tr2] s2]; unfold trace at 1;
    cbn [fst snd]; (destruct pre as [|p pre]; cbn; intros [=]; subst;
    exists e0, t1; split; [set_solver|done]).
Qed.

(** A loop with an iteration left starts with an attempt, on the state it
    is given. *)
Lemma train_loop_head n (s : State) :
  ∃ rest, trace (train_loop (S n) s) =
          EvTrainableTrain (Trainable_train (self s) (env s)).1.1
            (Trainable_train (self s) (env s)).1.2 :: rest.
Proof.
  rewrite train_loop_step.
  destruct (Trainable_train (self s) (env s)) as [[[v|e] t1] e1]; [by eexists|].
  destruct (is_RayError e); [|by eexists].
  destruct (ignore_worker_failures (config t1)); [|by eexists].
  destruct (_try_recover _) as [[[[]|e2] tr2] s2]; by eexists.
Qed.

(** What follows, in the loop, an attempt that failed with a worker error
    which the trainer tolerates: the recovery, on the trainer as the
    attempt left it, and then, when the recovery returns, the iterations
    that are left. *)
Lemma train_loop_tolerated n (s : State) pre e t post :
  trace (train_loop n s) = pre ++ EvTrainableTrain (Raise e) t :: post →
  is_RayError e = true → ignore_worker_failures (config t) = true →
  ∃ s1, self s1 = t ∧
    match res (_try_recover s1) with
    | Raise e2 =>
        post = EvLog ERROR attempting_to_recover_message [] :: trace (_try_recover s1) ∧
        res (train_loop n s) = Raise e2
    | Ok _ =>
        ∃ m, S (attempts pre) + m = n ∧
          post = EvLog ERROR attempting_to_recover_message []
                   :: trace (_try_recover s1)
                   ++ trace (train_loop m (final (_try_recover s1))) ∧
          res (train_loop n s) = res (train_loop m (final (_try_recover s1)))
    end.
Proof.
  revert s pre. induction n as [|n IH]; intros s pre.
  { cbn. by destruct pre. }
  rewrite train_loop_step.
  destruct (Trainable_train (self s) (env s)) as [[[v|e0] t1] e1].
  { cbn. destruct pre as [|? [|??]]; done. }
  destruct (is_RayError e0) eqn:He0.
  2:{ cbn. destruct pre as [|? [|? [|??]]]; intros [=]; subst. congruence. }
  destruct (ignore_worker_failures (config t1)) eqn:Hig.
  2:{ cbn. destruct pre as [|? [|? [|??]]]; intros [=]; subst. congruence. }
  pose proof (_try_recover_no_attempt {| self := t1; env := e1 |}) as Hrec.
  destruct (_try_recover {| self := t1; env := e1 |}) as [[[[]|e2] tr2] s2] eqn:Hrun;
    unfold trace at 1 in Hrec; unfold trace at 1, res at 1; cbn [fst snd] in *.
  - destruct pre as [|p pre]; cbn; intros [=] He Ht; subst.
    { exists {| self := t; env := e1 |}. split; [done|]. rewrite Hrun.
      cbn [res trace final fst snd]. by exists n. }
    destruct pre as [|p' pre]; simplify_eq/=.
    match goal with Heq : _ ++ _ = _ ++ _ |- _ =>
      apply (app_split_l (λ ev, is_attempt ev = true)) in Heq as (pre' & -> & Heq);
        [|done..] end.
    match goal with Hx : trace (train_loop n s2) = _ |- _ => rename Hx into Hloop end.
    destruct (IH _ _ Hloop He Ht) as (s1 & Hs1 & Hcase).
    exists s1. split; [done|].
    destruct (res (_try_recover s1)) as [[]|e3]; [|done].
    destruct Hcase as (m & Hm & Hpost & Hres). exists m. split; [|done].
    rewrite List.filter_app, length_app.
    change (length (List.filter is_attempt tr2)) with (attempts tr2).
    rewrite (attempts_none tr2); [unfold attempts, count in Hm; lia|].
    eapply Forall_impl; [exact Hrec|]. intros ev. apply not_true_is_false.
  - destruct pre as [|p pre]; cbn; intros [=] He Ht; subst.
    { exists {| self := t; env := e1 |}. split; [done|]. by rewrite Hrun. }
    destruct pre as [|p' pre]; simplify_eq/=.
    apply Forall_app in Hrec as [_ Hrec]. by inversion Hrec.
Qed.

(** C3.  A call of [train] starts with an attempt of the training step.
    In its trace:
    - an attempt that fails with an error other than a worker error is
      followed by nothing but the pause, and the call raises that error;
    - an attempt that fails with a worker error while
      [ignore_worker_failures] is off is followed by nothing but the log
      line, and the call raises that error;
    - an attempt that fails with a worker error while
      [ignore_worker_failures] is on is followed by the announcement of
      the recovery and by the recovery, run on the trainer as the attempt
      left it; when the recovery raises, the call raises its error and
      does nothing more; when it returns, the next thing the call does is
      a further attempt, on the trainer as the recovery left it, unless
      this was the last of the 1 + 3 attempts, after which the call
      raises;
    - an attempt that is followed by another attempt, and a health check,
      come after a worker error met while [ignore_worker_failures] is on.
    When the first attempt fails, the whole call is given by the failure:
    the two ways to propagate the error, and the recovery followed by
    the second attempt. *)
Theorem train_failure_policy (s : State) :
  (∀ pre e t post,
     trace (train s) = pre ++ EvTrainableTrain (Raise e) t :: post →
     failure_handled (res (train s)) e t post) ∧
  (∀ pre out t post,
     trace (train s) = pre ++ EvTrainableTrain out t :: post →
     attempts post ≠ 0 → tolerated out t) ∧
  (∀ pre w post,
     trace (train s) = pre ++ EvRemote w sample_with_count :: post →
     ∃ e t, EvTrainableTrain (Raise e) t ∈ pre ∧ tolerated (Raise e) t) ∧
  (∃ rest, trace (train s) =
           EvTrainableTrain (Trainable_train (self s) (env s)).1.1
             (Trainable_train (self s) (env s)).1.2 :: rest) ∧
  (∀ pre e t post,
     trace (train s) = pre ++ EvTrainableTrain (Raise e) t :: post →
     tolerated (Raise e) t →
     ∃ s1 rest,
       self s1 = t ∧
       post = EvLog ERROR attempting_to_recover_message []
                :: trace (_try_recover s1) ++ rest ∧
       match res (_try_recover s1) with
       | Raise e2 => rest = [] ∧ res (train s) = Raise e2
       | Ok _ =>
           let s2 := final (_try_recover s1) in
           if attempts pre <? MAX_WORKER_FAILURE_RETRIES
           then ∃ rest', rest = EvTrainableTrain (Trainable_train (self s2) (env s2)).1.1
                                  (Trainable_train (self s2) (env s2)).1.2 :: rest'
           else rest = [] ∧
                res (train s) = Raise (RuntimeError "Failed to recover from worker crash")
       end) ∧
  (∀ e t1 e1,
     Trainable_train (self s) (env s) = (Raise e, t1, e1) →
     let s1 := {| self := t1; env := e1 |} in
     let failed := EvTrainableTrain (Raise e) t1 in
     if is_RayError e && ignore_worker_failures (config t1)
     then ∃ rest,
            trace (train s) =
              failed :: EvLog ERROR attempting_to_recover_message []
                :: trace (_try_recover s1) ++ rest ∧
            match res (_try_recover s1) with
            | Raise e2 => rest = [] ∧ res (train s) = Raise e2
            | Ok _ =>
                let s2 := final (_try_recover s1) in
                ∃ rest', rest = EvTrainableTrain (Trainable_train (self s2) (env s2)).1.1
                                  (Trainable_train (self s2) (env s2)).1.2 :: rest'
            end
     else train s =
          (Raise e,
           [failed; if is_RayError e then EvLog INFO worker_crashed_message []
                    else EvSleep],
           s1)).
Proof.
  set (loop := train_loop (1 + MAX_WORKER_FAILURE_RETRIES) s).
  set (tail := match res loop with
               | Ok a => trace (after_loop a (final loop))
               | Raise _ => []
               end).
  assert (Htail : ∀ (P : event → Prop),
            (∀ c r, ¬ P (EvLib c r)) → (∀ l f a, ¬ P (EvLog l f a)) →
            Forall (λ ev, ¬ P ev) tail).
  { intros P ??. subst tail. destruct (res loop); [|done]. by apply after_loop_emits. }
  assert (Htrace : trace (train s) = trace loop ++ tail).
  { unfold train. by rewrite trace_bind. }
  assert (Htolerated : ∀ pre e t post,
     trace (train s) = pre ++ EvTrainableTrain (Raise e) t :: post →
     tolerated (Raise e) t →
     ∃ s1 rest,
       self s1 = t ∧
       post = EvLog ERROR attempting_to_recover_message []
                :: trace (_try_recover s1) ++ rest ∧
       match res (_try_recover s1) with
       | Raise e2 => rest = [] ∧ res (train s) = Raise e2
       | Ok _ =>
           let s2 := final (_try_recover s1) in
           if attempts pre <? MAX_WORKER_FAILURE_RETRIES
           then ∃ rest', rest = EvTrainableTrain (Trainable_train (self s2) (env s2)).1.1
                                  (Trainable_train (self s2) (env s2)).1.2 :: rest'
           else rest = [] ∧
                res (train s) = Raise (RuntimeError "Failed to recover from worker crash")
       end).
  { intros pre e t post Heq (e' & [= <-] & He & Hig). rewrite Htrace in Heq.
    apply (app_split_r (λ ev, is_attempt ev = true)) in Heq as (post' & -> & Hloop);
      [|by apply Htail|done].
    destruct (train_loop_tolerated _ _ _ _ _ _ Hloop He Hig) as (s1 & Hs1 & Hcase).
    exists s1. fold loop in Hcase.
    assert (res (train s) = match res loop with
                            | Ok a => res (after_loop a (final loop))
                            | Raise e => Raise e
                            end) as Hres.
    { unfold train. by rewrite res_bind. }
    destruct (res (_try_recover s1)) as [[]|e2].
    - destruct Hcase as (m & Hm & -> & Hresloop). cbv zeta.
      destruct m as [|m].
      + exists tail. split; [done|]. split; [cbn; by rewrite app_nil_r|].
        assert ((attempts pre <? MAX_WORKER_FAILURE_RETRIES) = false) as ->.
        { apply Nat.ltb_ge. unfold MAX_WORKER_FAILURE_RETRIES in *. lia. }
        subst tail. rewrite Hres, Hresloop. cbn. done.
      + destruct (train_loop_head m (final (_try_recover s1))) as [rest' Hhead].
        rewrite Hhead.
        exists (EvTrainableTrain
                  (Trainable_train (self (final (_try_recover s1)))
                     (env (final (_try_recover s1)))).1.1
                  (Trainable_train (self (final (_try_recover s1)))
                     (env (final (_try_recover s1)))).1.2 :: rest' ++ tail).
        split; [done|]. split.
        { cbn. by rewrite <-!app_assoc. }
        assert ((attempts pre <? MAX_WORKER_FAILURE_RETRIES) = true) as ->.
        { apply Nat.ltb_lt. unfold MAX_WORKER_FAILURE_RETRIES in *. lia. }
        by eexists.
    - destruct Hcase as [-> Hresloop]. exists []. split; [done|].
      subst tail. rewrite Hres, Hresloop. cbn. by rewrite !app_nil_r. }
  split_and!.
  - intros pre e t post. rewrite Htrace. unfold train. rewrite res_bind. fold loop.
    intros (post' & -> & Hloop)%(app_split_r (λ ev, is_attempt ev = true));
      [|by apply Htail|done].
    destruct (train_loop_failure _ _ _ _ _ _ Hloop) as (Hother & Hoff & Hon).
    fold loop in Hother, Hoff. subst tail.
    split_and!.
    + intros He. by destruct (Hother He) as [-> ->].
    + intros He Hig. by destruct (Hoff He Hig) as [-> ->].
    + intros He Hig. destruct (Hon He Hig) as [post'' ->]. by eexists.
  - intros pre out t post. rewrite Htrace.
    intros (post' & -> & Hloop)%(app_split_r (λ ev, is_attempt ev = true));
      [|by apply Htail|done].
    rewrite attempts_app. intros Hne.
    eapply train_loop_retry; [done|]. intros Hpost. apply Hne.
    rewrite Hpost. apply attempts_none.
    eapply Forall_impl; [apply (Htail (λ ev, is_attempt ev = true)); done|].
    intros ev. apply not_true_is_false.
  - intros pre w post. rewrite Htrace.
    intros (post' & -> & Hloop)%(app_split_r is_probe);
      [|apply Htail; intros; by intros [? ?]|by eexists].
    destruct (train_loop_probe _ _ _ _ _ Hloop) as (e & t & ? & ? & ?).
    exists e, t. split; [done|]. by exists e.
  - rewrite Htrace. destruct (train_loop_head MAX_WORKER_FAILURE_RETRIES s) as [rest Hrest].
    subst loop. change (1 + MAX_WORKER_FAILURE_RETRIES) with (S MAX_WORKER_FAILURE_RETRIES).
    rewrite Hrest. by eexists.
  - exact Htolerated.
  - intros e t1 e1 Hstep s1 failed.
    destruct (is_RayError e && ignore_worker_failures (config t1)) eqn:Htol.
    + apply andb_true_iff in Htol as [He Hig].
      assert (loop =
              match _try_recover s1 with
              | (Ok _, tr2, s2) =>
                  (res (train_loop 3 s2),
                   failed :: EvLog ERROR attempting_to_recover_message []
                     :: tr2 ++ trace (train_loop 3 s2),
                   final (train_loop 3 s2))
              | (Raise e2, tr2, s2) =>
                  (Raise e2,
                   failed :: EvLog ERROR attempting_to_recover_message [] :: tr2, s2)
              end) as Hloop.
      { subst loop. change (1 + MAX_WORKER_FAILURE_RETRIES) with 4.
        by rewrite train_loop_step, Hstep, He, Hig. }
      unfold train. rewrite trace_bind, res_bind. fold loop. rewrite Hloop.
      destruct (_try_recover s1) as [[[[]|e2] tr2] s2] eqn:Hrun;
        cbn [res trace final fst snd].
      * destruct (train_loop_head 2 s2) as [rest' Hhead].
        exists (trace (train_loop 3 s2)
                ++ match res (train_loop 3 s2) with
                   | Ok a => trace (after_loop a (final (train_loop 3 s2)))
                   | Raise _ => []
                   end).
        split; [cbn; by rewrite <-app_assoc|].
        rewrite Hhead. cbn. by eexists.
      * exists []. by rewrite !app_nil_r.
    + unfold train. subst loop.
      change (1 + MAX_WORKER_FAILURE_RETRIES) with (S MAX_WORKER_FAILURE_RETRIES).
      rewrite run_bind, train_loop_step, Hstep.
      destruct (is_RayError e); [|done]. cbn in Htol. by rewrite Htol.
Qed.

End TrainFacts.

(** ** [_try_recover]: the health check *)

Section RecoverFacts.
Context {Env : Type} `{Cluster Env}.
Local Abbreviation State := (@Sys Env).
Local Abbreviation emits := (emits (Env:=Env)).
Local Abbreviation keeps_self := (keeps_self (Env:=Env)).

Lemma probe_results_app tr1 tr2 :
  probe_results (tr1 ++ tr2) = probe_results tr1 ++ probe_results tr2.
Proof.
  induction tr1 as [|ev tr1 IH]; [done|].
  destruct ev as [| | |refs r| | |]; cbn; try done.
  destruct refs as [|[w []] [|]]; cbn; by rewrite ?IH.
Qed.

Lemma run_remote w m (s : State) :
  remote w m s = (Ok (w, m), [EvRemote w m], s).
Proof. reflexivity. Qed.

(** A list of remote calls, one per worker, sends them in order. *)
Lemma run_mapM_remote m (l : list worker) (s : State) :
  mapM (λ w, remote w m) l s =
  (Ok ((λ w, (w, m)) <$> l), (λ w, EvRemote w m) <$> l, s).
Proof.
  induction l as [|w l IH]; [done|].
  cbn [mapM]. rewrite run_bind, run_remote, run_bind, IH. cbn. by rewrite app_nil_r.
Qed.

Lemma probe_results_issue (l : list worker) :
  probe_results ((λ w, EvRemote w sample_with_count) <$> l) = [].
Proof. by induction l. Qed.

Lemma run_check_one w i acc (s : State) :
  check_one (w, sample_with_count) w i acc s =
  match ray_get [(w, sample_with_count)] (env s) with
  | (GetOk v, e1) =>
      (Ok (acc ++ [w]),
       [EvRayGet [(w, sample_with_count)] (GetOk v);
        EvLog INFO "Worker {} looks healthy" [PyInt (Z.of_nat (i + 1))]],
       {| self := self s; env := e1 |})
  | (GetRayError n, e1) =>
      (Ok acc,
       [EvRayGet [(w, sample_with_count)] (GetRayError n);
        EvLog ERROR "Removing unhealthy worker {}" [PyInt (Z.of_nat (i + 1))];
        EvRemote w __ray_terminate__],
       {| self := self s; env := e1 |})
  end.
Proof.
  unfold check_one, try_except. rewrite run_bind. unfold call_ray_get.
  by destruct (ray_get _ (env s)) as [[v|n] e1].
Qed.

(** The second loop: every check is answered, a worker is kept exactly
    when its check returned, and the trainer object is not touched. *)
Lemma check_loop_spec ws i (l : list worker) acc (s : State) :
  drop i (remote_workers ws) = l →
  let x := check_loop ws i ((λ w, (w, sample_with_count)) <$> l) acc s in
  res x = Ok (acc ++ healthy (trace x)) ∧
  (probe_results (trace x)).*1 = l ∧
  self (final x) = self s.
Proof.
  revert i acc s. induction l as [|w l IH]; intros i acc s Hdrop x; subst x.
  { cbn. by rewrite app_nil_r. }
  assert (remote_workers ws !! i = Some w) as Hw.
  { rewrite <-(Nat.add_0_r i), <-lookup_drop, Hdrop. done. }
  assert (drop (S i) (remote_workers ws) = l) as Hdrop'.
  { by rewrite <-(Nat.add_1_r i), <-drop_drop, Hdrop. }
  cbn [check_loop fmap list_fmap]. rewrite Hw.
  rewrite res_bind, trace_bind, final_bind, run_check_one.
  destruct (ray_get [(w, sample_with_count)] (env s)) as [[v|n] e1];
    cbn [res trace final fst snd].
  - destruct (IH (S i) (acc ++ [w]) {| self := self s; env := e1 |} Hdrop')
      as (Hres & Hprobes & Hself).
    rewrite Hres, Hself. unfold healthy.
    rewrite probe_results_app, List.filter_app, fmap_app. cbn.
    rewrite Hprobes. by rewrite <-app_assoc.
  - destruct (IH (S i) acc {| self := self s; env := e1 |} Hdrop')
      as (Hres & Hprobes & Hself).
    rewrite Hres, Hself. unfold healthy.
    rewrite probe_results_app, List.filter_app, fmap_app. cbn.
    by rewrite Hprobes.
Qed.

Lemma healthy_unhealthy_length tr :
  length (healthy tr) + length (unhealthy tr) = length (probe_results tr).
Proof.
  unfold healthy, unhealthy. rewrite !length_fmap.
  induction (probe_results tr) as [|[w []] l IH]; cbn; lia.
Qed.

Lemma healthy_issue (l : list worker) tr :
  healthy (((λ w, EvRemote w sample_with_count) <$> l) ++ tr) = healthy tr.
Proof.
  unfold healthy. by rewrite probe_results_app, probe_results_issue.
Qed.

Lemma run_self_workers (s : State) ws :
  workers (self s) = Some ws → self_workers s = (Ok ws, [], s).
Proof. intros Hws. unfold self_workers. rewrite run_bind. cbn. by rewrite Hws. Qed.

Lemma run_try_recover (s : State) ws :
  workers (self s) = Some ws →
  has_execution_plan (self s) = true →
  let pre := EvLog INFO "Health checking all workers..." []
             :: ((λ w, EvRemote w sample_with_count) <$> remote_workers ws) in
  let c := check_loop ws 0 ((λ w, (w, sample_with_count)) <$> remote_workers ws) [] s in
  _try_recover s =
  match res c with
  | Ok healthy_workers =>
      if length healthy_workers <? 1
      then (Raise (RuntimeError "Not enough healthy workers remain to continue."),
            pre ++ trace c, final c)
      else (Ok tt,
            pre ++ trace c ++ [EvLog WARNING "Recreating execution plan after failure" []],
            {| self := set_train_exec_impl
                         (set_workers (self s) (reset ws healthy_workers))
                         (execution_plan (reset ws healthy_workers) (config (self s)));
               env := env (final c) |})
  | Raise e => (Raise e, pre ++ trace c, final c)
  end.
Proof.
  intros Hws Hplan pre c. unfold _try_recover.
  rewrite run_bind. cbn [get_self]. rewrite Hplan.
  rewrite run_bind. cbn [ret].
  rewrite run_bind, (run_self_workers _ _ Hws).
  rewrite run_bind. cbn [logger emit].
  rewrite run_bind, run_mapM_remote.
  rewrite run_bind. fold c.
  destruct c as [[[hw|e] trc] sc]; cbn [res trace final fst snd]; [|done].
  rewrite run_bind.
  subst pre. destruct (length hw <? 1); cbn; by rewrite ?app_nil_r.
Qed.

(** A worker is healthy in a trace exactly when a check of it returned. *)
Lemma elem_of_healthy w tr : w ∈ healthy tr ↔ (w, true) ∈ probe_results tr.
Proof.
  unfold healthy. rewrite list_elem_of_fmap. split.
  - intros ([w' b] & -> & Hin). apply list_elem_of_In, List.filter_In in Hin as [Hin Hb].
    cbn in Hb. subst b. by apply list_elem_of_In.
  - intros Hin. exists (w, true). split; [done|].
    apply list_elem_of_In, List.filter_In. split; [by apply list_elem_of_In|done].
Qed.

(** C2.  Recovery on a trainer with an execution plan and a pool of N
    remote workers: every worker is checked once; when the checks of K < N
    workers fail, recovery returns, the remote workers of the pool are the
    N - K workers whose check returned, in their order, the local worker
    is the one it was, and the execution plan is rebuilt over that pool;
    when the checks of all N workers fail, recovery raises, and the
    trainer object keeps its pool. *)
Theorem try_recover_prunes (s : State) ws :
  workers (self s) = Some ws →
  has_execution_plan (self s) = true →
  let N := length (remote_workers ws) in
  let x := _try_recover s in
  let K := length (unhealthy (trace x)) in
  (probe_results (trace x)).*1 = remote_workers ws ∧
  (K < N →
   res x = Ok tt ∧
   (∃ ws', workers (self (final x)) = Some ws' ∧
           remote_workers ws' = healthy (trace x) ∧
           (∀ w, w ∈ remote_workers ws' ↔ (w, true) ∈ probe_results (trace x)) ∧
           length (remote_workers ws') = N - K ∧
           remote_workers ws' ≠ [] ∧
           local_worker ws' = local_worker ws ∧
           train_exec_impl (self (final x)) =
             Some (execution_plan ws' (config (self s)))) ∧
   workers (self (final x)) = Some (reset ws (healthy (trace x))) ∧
   length (healthy (trace x)) = N - K ∧
   train_exec_impl (self (final x)) =
     Some (execution_plan (reset ws (healthy (trace x))) (config (self s)))) ∧
  (K = N →
   res x = Raise (RuntimeError "Not enough healthy workers remain to continue.") ∧
   self (final x) = self s).
Proof.
  intros Hws Hplan N x K.
  pose proof (run_try_recover s ws Hws Hplan) as Hrun. cbv zeta in Hrun.
  destruct (check_loop_spec ws 0 (remote_workers ws) [] s eq_refl)
    as (Hres & Hprobes & Hself).
  set (c := check_loop ws 0 _ [] s) in *.
  rewrite Hres in Hrun. cbn [app] in Hrun.
  pose proof (healthy_unhealthy_length (trace c)) as Hlen.
  rewrite <-(length_fmap fst), Hprobes in Hlen. fold N in Hlen.
  assert (probe_results (trace x) = probe_results (trace c)) as Hsame.
  { subst x. rewrite Hrun. destruct (length (healthy (trace c)) <? 1);
      unfold trace at 1; cbn [fst snd app probe_results];
      rewrite !probe_results_app, probe_results_issue; cbn;
      by rewrite ?app_nil_r. }
  assert (healthy (trace x) = healthy (trace c)) as Hh
    by (unfold healthy; by rewrite Hsame).
  assert (K = length (unhealthy (trace c))) as HK
    by (subst K; unfold unhealthy; by rewrite Hsame).
  rewrite Hsame, Hh. split; [done|].
  subst x. rewrite Hrun.
  destruct (length (healthy (trace c)) <? 1) eqn:Hlt.
  - apply Nat.ltb_lt in Hlt. split; [lia|]. intros _. by split.
  - apply Nat.ltb_ge in Hlt. split; [|lia]. intros _.
    split_and!; [done| |done|lia|done].
    exists (reset ws (healthy (trace c))). cbn [reset remote_workers local_worker].
    split_and!; [done|done| |lia| |done|done].
    + intros w. apply elem_of_healthy.
    + intros Hnil. rewrite Hnil in Hlt. cbn in Hlt. lia.
Qed.
End RecoverFacts.

(** ** Floats: the ceiling of a quotient *)

Section FloatFacts.
Local Open Scope Z_scope.








End FloatFacts.

(** ** [evaluate]: the evaluation scheduler *)

Section EvaluateFacts.
Context {Env : Type} `{Cluster Env}.
Local Abbreviation State := (@Sys Env).
Local Abbreviation emits := (emits (Env:=Env)).
Local Abbreviation keeps_self := (keeps_self (Env:=Env)).

(** *** Computations that leave the trainer object as it is *)

Lemma keeps_ret {A} (a : A) : keeps_self (ret a).
Proof. done. Qed.

Lemma keeps_raise {A} e : keeps_self (raise e : M A).
Proof. done. Qed.

Lemma keeps_get_self : keeps_self get_self.
Proof. done. Qed.

Lemma keeps_emit ev : keeps_self (emit ev).
Proof. done. Qed.

Lemma keeps_logger level fmt args : keeps_self (logger level fmt args).
Proof. done. Qed.

Lemma keeps_bind {A B} (m : M A) (k : A → M B) :
  keeps_self m → (∀ a, keeps_self (k a)) → keeps_self (m ≫= k).
Proof.
  intros Hm Hk s. rewrite final_bind. specialize (Hm s).
  destruct (res (m s)); [|done]. by rewrite Hk.
Qed.

Lemma keeps_try_except {A} (m : M A) handler :
  keeps_self m → (∀ e, keeps_self (handler e)) → keeps_self (try_except m handler).
Proof.
  intros Hm Hk s. unfold try_except. specialize (Hm s).
  destruct (m s) as [[[a|e] tr] s1]; [done|]. cbn in Hm.
  specialize (Hk e s1). destruct (handler e s1) as [[r tr'] s2]. cbn in *. congruence.
Qed.

Lemma keeps_for_each {A} (l : list A) body :
  (∀ x, keeps_self (body x)) → keeps_self (for_each l body).
Proof.
  intros Hb. induction l as [|x l IH]; cbn; [done|]. by apply keeps_bind.
Qed.

Lemma keeps_call_local w m : keeps_self (call_local w m).
Proof. intros s. unfold call_local. by destruct (local_call w m (env s)). Qed.

Lemma keeps_call_lib c : keeps_self (call_lib c).
Proof. intros s. unfold call_lib. by destruct (lib_call c (env s)). Qed.

Lemma keeps_call_ray_get refs : keeps_self (call_ray_get refs).
Proof. intros s. unfold call_ray_get. by destruct (ray_get refs (env s)). Qed.

Lemma keeps_self_workers : keeps_self self_workers.
Proof.
  apply keeps_bind; [done|]. intros t. by destruct (workers t).
Qed.

Lemma keeps_sync_filters ws : keeps_self (_sync_filters_if_needed ws).
Proof.
  apply keeps_bind; [done|]. intros t.
  destruct (negb _); [|done].
  apply keeps_bind; [apply keeps_call_lib|done].
Qed.

Lemma keeps_sync_weights ws : keeps_self (_sync_weights_to_workers ws).
Proof.
  destruct ws as [ws|]; [|done]. unfold _sync_weights_to_workers.
  repeat first [apply keeps_self_workers | apply keeps_logger
               | apply keeps_call_local | apply keeps_call_lib | apply keeps_ret
               | apply keeps_bind
               | match goal with |- ∀ _, _ => intro end ].
Qed.

Lemma keeps_sync_evaluation_workers : keeps_self sync_evaluation_workers.
Proof.
  apply keeps_bind; [done|]. intros t.
  destruct (evaluation_workers t); [|done].
  apply keeps_bind; [apply keeps_sync_weights|]. intros _. apply keeps_sync_filters.
Qed.

Lemma sync_evaluation_workers_emits P :
  (∀ ws b r, P (EvLib (FilterManager_synchronize ws b) r)) →
  (∀ ws x r, P (EvLib (foreach_worker_restore ws x) r)) →
  (∀ l f a, P (EvLog l f a)) →
  (∀ w r, P (EvLocal w save r)) →
  emits P sync_evaluation_workers.
Proof.
  intros ????. unfold sync_evaluation_workers, _sync_weights_to_workers,
    _sync_filters_if_needed. solve_emits.
Qed.

(** *** The run of [evaluate] *)

Lemma run_evaluate (s : State) :
  evaluate s =
  let x0 := sync_evaluation_workers s in
  match res x0 with
  | Raise e => (Raise e, trace x0, final x0)
  | Ok _ =>
      let x1 := compute_metrics (final x0) in
      (match res x1 with
       | Ok metrics => Ok (PyDict [("evaluation", metrics)])
       | Raise e => Raise e
       end, trace x0 ++ trace x1, final x1)
  end.
Proof.
  unfold evaluate, _before_evaluate. rewrite run_bind. cbn [ret].
  rewrite run_bind.
  destruct (sync_evaluation_workers s) as [[[[]|e] tr0] s0]; cbn; [|done].
  rewrite run_bind.
  destruct (compute_metrics s0) as [[[m|e] tr1] s1]; cbn; [|done].
  by rewrite app_nil_r.
Qed.

(** *** A custom evaluation function *)



(** *** Evaluation on the local worker *)

Lemma run_sync_none (s : State) :
  evaluation_workers (self s) = None → sync_evaluation_workers s = (Ok tt, [], s).
Proof.
  intros Hew. unfold sync_evaluation_workers. rewrite run_bind. cbn [get_self].
  by rewrite Hew.
Qed.

(** C7 (amended).  With no evaluation worker set, no custom evaluation
    function and at least one episode to run, when sampling on the local
    worker fails for the lack of an environment (a [ValueError] whose
    message holds the marker of [RolloutWorker]), [evaluate] raises a
    [ValueError] whose message names the two remedies: a separate
    evaluation worker set, or an environment on the local worker. *)
Theorem evaluate_without_env (s : State) ws msg args e1 :
  evaluation_workers (self s) = None →
  custom_eval_function (config (self s)) = None →
  workers (self s) = Some ws →
  (1 ≤ evaluation_num_episodes (config (self s)))%Z →
  local_call (local_worker ws) sample (env s)
    = (Raise (ValueError (PyStr msg :: args)), e1) →
  str_in no_env_marker msg = true →
  res (evaluate s) = Raise (ValueError [PyStr no_env_message]) ∧
  str_in "Set `evaluation_interval` >= 0 to force creating a separate evaluation worker set."
    no_env_message = true ∧
  str_in "Set `create_env_on_driver=True` to force the local (non-eval) worker to have an environment to evaluate on."
    no_env_message = true.
Proof.
  intros Hew Hcustom Hws Hep Hsample Hmarker.
  split; [|by vm_compute].
  rewrite run_evaluate, (run_sync_none _ Hew). cbv zeta.
  cbn [res trace final fst snd].
  unfold compute_metrics. rewrite !res_bind. cbn [get_self res final fst snd].
  rewrite Hcustom. rewrite !res_bind. cbn [logger emit res final fst snd].
  unfold default_evaluation. rewrite Hew.
  unfold try_except. rewrite run_bind, (run_self_workers _ _ Hws).
  unfold range.
  destruct (Z.to_nat (evaluation_num_episodes (config (self s)))) as [|n] eqn:Hn;
    [lia|].
  cbn [seq for_each]. rewrite !run_bind. unfold call_local at 1.
  rewrite Hsample. cbn. by rewrite Hmarker.
Qed.

(** *** Evaluation rounds on the remote workers *)









End EvaluateFacts.

(** ** [__setstate__]: restoring a checkpoint *)

Section CheckpointFacts.
Context {Env : Type} `{Cluster Env}.
Local Abbreviation State := (@Sys Env).
Local Abbreviation emits := (emits (Env:=Env)).
Local Abbreviation keeps_self := (keeps_self (Env:=Env)).

Lemma run_for_each_remote m (l : list worker) (s : State) :
  for_each l (λ r, remote r m;; ret tt) s = (Ok tt, (λ r, EvRemote r m) <$> l, s).
Proof.
  induction l as [|w l IH]; [done|].
  cbn [for_each]. rewrite run_bind, run_bind, run_remote. cbn. by rewrite IH.
Qed.

Lemma run_restore_worker_state state worker_state ws (s : State) :
  state !! "worker" = Some worker_state →
  workers (self s) = Some ws →
  restore_worker_state state s =
  match local_call (local_worker ws) (restore (ByValue worker_state)) (env s) with
  | (Ok v, e1) =>
      (Ok tt,
       EvLocal (local_worker ws) (restore (ByValue worker_state)) (Ok v)
         :: ((λ r, EvRemote r (restore (ByRef (ray_put worker_state))))
               <$> remote_workers ws),
       {| self := self s; env := e1 |})
  | (Raise e, e1) =>
      (Raise e, [EvLocal (local_worker ws) (restore (ByValue worker_state)) (Raise e)],
       {| self := self s; env := e1 |})
  end.
Proof.
  intros Hstate Hws. unfold restore_worker_state. rewrite run_bind. cbn [get_self].
  rewrite Hstate, Hws, run_bind. unfold call_local.
  destruct (local_call _ _ (env s)) as [[v|e] e1]; [|done].
  by rewrite run_for_each_remote.
Qed.

Lemma restore_optimizer_state_emits P state :
  (∀ b r, state !! "optimizer" = Some b → P (EvLib (optimizer_restore b) r)) →
  emits P (restore_optimizer_state state).
Proof.
  intros HP. unfold restore_optimizer_state.
  apply emits_bind; [apply emits_get_self|]. intros t.
  destruct (state !! "optimizer") as [b|] eqn:Hb; [|solve_emits].
  destruct (optimizer t); solve_emits. by apply HP.
Qed.

Lemma restore_replay_buffer_emits P state :
  (∀ b r, state !! "local_replay_buffer" = Some b →
          P (EvLib (replay_buffer_set_state b) r)) →
  (∀ r, P (EvLib (log_once log_once_key) r)) →
  (∀ msg, P (EvLog WARNING msg [])) →
  emits P (restore_replay_buffer state).
Proof.
  intros HP ??. unfold restore_replay_buffer.
  apply emits_bind; [apply emits_get_self|]. intros t.
  destruct (local_replay_buffer t); [|solve_emits].
  destruct (store_buffer_requested t);
    destruct (state !! "local_replay_buffer") as [b|] eqn:Hb; solve_emits.
  by apply HP.
Qed.

Lemma restore_worker_state_emits P state :
  (∀ w m r, P (EvLocal w m r)) → (∀ w m, P (EvRemote w m)) →
  emits P (restore_worker_state state).
Proof.
  intros ??. unfold restore_worker_state. solve_emits.
Qed.

Lemma after_workers_emits P state :
  (∀ c r, P (EvLib c r)) → (∀ l f a, P (EvLog l f a)) →
  emits P (restore_optimizer_state state;; restore_replay_buffer state).
Proof.
  intros ??. apply emits_bind.
  - by apply restore_optimizer_state_emits.
  - intros _. by apply restore_replay_buffer_emits.
Qed.

(** C4.  Restoring a bundle that holds the state of the local worker, on a
    trainer with a pool whose local worker accepts that state: the local
    worker is restored from the bundle's blob, then every remote worker of
    the pool is sent a [restore] of a reference to that same blob, and
    nothing else is sent to a worker; what a remote worker receives is the
    blob the local worker was restored from. *)
Theorem setstate_broadcasts_worker_state (s : State) state worker_state ws v e1 :
  state !! "worker" = Some worker_state →
  workers (self s) = Some ws →
  local_call (local_worker ws) (restore (ByValue worker_state)) (env s) = (Ok v, e1) →
  let tr := trace (__setstate__ state s) in
  let sent := restore (ByRef (ray_put worker_state)) in
  (∃ rest,
     tr = EvLocal (local_worker ws) (restore (ByValue worker_state)) (Ok v)
          :: ((λ r, EvRemote r sent) <$> remote_workers ws) ++ rest ∧
     Forall (λ ev, ∀ w m, ev ≠ EvRemote w m) rest) ∧
  (∀ r, r ∈ remote_workers ws → EvRemote r sent ∈ tr) ∧
  (∀ w a, EvRemote w (restore a) ∈ tr →
          w ∈ remote_workers ws ∧ arg_value a = worker_state).
Proof.
  intros Hstate Hws Hlocal tr sent.
  pose proof (run_restore_worker_state state worker_state ws s Hstate Hws) as Hrun.
  rewrite Hlocal in Hrun.
  assert (∃ rest,
            tr = EvLocal (local_worker ws) (restore (ByValue worker_state)) (Ok v)
                 :: ((λ r, EvRemote r sent) <$> remote_workers ws) ++ rest ∧
            Forall (λ ev, ∀ w m, ev ≠ EvRemote w m) rest) as (rest & Htr & Hrest).
  { subst tr. unfold __setstate__. rewrite (run_bind_ok _ _ _ _ _ _ Hrun).
    eexists. split; [done|].
    by apply (after_workers_emits (λ ev, ∀ w m, ev ≠ EvRemote w m)). }
  split; [by exists rest|]. rewrite Htr. split.
  - intros r Hr. apply elem_of_cons. right. apply elem_of_app. left.
    by apply (list_elem_of_fmap_2 (λ r, EvRemote r sent)).
  - intros w a [Hin|[Hin|Hin]%elem_of_app]%elem_of_cons; [done| |].
    + apply list_elem_of_fmap in Hin as (r & [= -> ->] & Hr). done.
    + rewrite Forall_forall in Hrest. by destruct (Hrest _ Hin w (restore a)).
Qed.

Lemma keeps_restore_worker_state state : keeps_self (restore_worker_state state).
Proof.
  apply keeps_bind; [done|]. intros t.
  destruct (state !! "worker"); [|done]. destruct (workers t); [|done].
  apply keeps_bind; [apply keeps_call_local|]. intros _.
  apply keeps_for_each. intros r. by apply keeps_bind.
Qed.

Lemma keeps_restore_optimizer_state state : keeps_self (restore_optimizer_state state).
Proof.
  apply keeps_bind; [done|]. intros t.
  destruct (state !! "optimizer"); [|done]. destruct (optimizer t); [|done].
  apply keeps_bind; [apply keeps_call_lib|done].
Qed.

(** The warnings of the third statement of [__setstate__], when it
    returns. *)
Lemma restore_replay_buffer_warnings state (s : State) :
  let tr := trace (restore_replay_buffer state s) in
  let t := self s in
  res (restore_replay_buffer state s) = Ok tt →
  (EvLog WARNING buffer_missing_warning [] ∈ tr ↔
   is_Some (local_replay_buffer t) ∧ store_buffer_requested t = true ∧
   state !! "local_replay_buffer" = None) ∧
  (EvLog WARNING buffer_unrequested_warning [] ∈ tr ↔
   is_Some (local_replay_buffer t) ∧ store_buffer_requested t = false ∧
   is_Some (state !! "local_replay_buffer") ∧
   ∃ once, EvLib (log_once log_once_key) (Ok once) ∈ tr ∧ truthy once = true).
Proof.
  intros tr t. subst tr t. unfold restore_replay_buffer.
  rewrite run_bind. cbn [get_self].
  destruct (local_replay_buffer (self s)) as [buf|].
  2:{ cbn. intros _. rewrite !list_elem_of_In. cbn [In].
      split; (split; [done|]); by intros [[? [=]] _]. }
  destruct (store_buffer_requested (self s));
    destruct (state !! "local_replay_buffer") as [b|].
  - rewrite run_bind. unfold call_lib.
    destruct (lib_call _ (env s)) as [[r|e] e1]; cbn; [|done]. intros _.
    rewrite !list_elem_of_In. cbn [In].
    split; (split; [intros [[=]|[]]|]); [by intros (_ & _ & [=])|by intros (_ & [=] & _)].
  - cbn. intros _. rewrite !list_elem_of_In. cbn [In]. split; split.
    + done.
    + intros _. by left.
    + by intros [[=]|[]].
    + by intros (_ & [=] & _).
  - rewrite run_bind. unfold call_lib.
    destruct (lib_call _ (env s)) as [[once|e] e1]; cbn; [|done].
    destruct (truthy once) eqn:Honce; cbn; intros _.
    + split; split.
      * rewrite list_elem_of_In. cbn [In]. by intros [[=]|[[=]|[]]].
      * by intros (_ & [=] & _).
      * intros _. split_and!; [done..|]. exists once. split; [|done].
        apply elem_of_cons. by left.
      * intros _. apply elem_of_cons. right. apply elem_of_cons. by left.
    + split; split.
      * rewrite list_elem_of_In. cbn [In]. by intros [[=]|[]].
      * by intros (_ & [=] & _).
      * rewrite list_elem_of_In. cbn [In]. by intros [[=]|[]].
      * intros (_ & _ & _ & once' & Hin & Ht).
        apply list_elem_of_singleton in Hin. congruence.
  - cbn. intros _. rewrite !list_elem_of_In. cbn [In]. split; split.
    + done.
    + by intros (_ & [=] & _).
    + done.
    + by intros (_ & _ & [? [=]] & _).
Qed.

(** C6 (amended).  On restore, the optimizer is restored only from the
    optimizer state of the bundle and the replay buffer only from the buffer
    state of the bundle.  When the restore returns: the warning that replay
    data is missing is logged exactly when the trainer has a replay buffer,
    storing the buffer is requested and the bundle holds no buffer state;
    the warning that unrequested replay data was found is logged exactly
    when the trainer has a replay buffer, storing the buffer is not
    requested, the bundle holds buffer state and [log_once] answers true. *)
Theorem setstate_restores_what_is_present (s : State) state :
  let x := __setstate__ state s in
  let t := self s in
  (∀ b r, EvLib (optimizer_restore b) r ∈ trace x → state !! "optimizer" = Some b) ∧
  (∀ b r, EvLib (replay_buffer_set_state b) r ∈ trace x →
          state !! "local_replay_buffer" = Some b) ∧
  (res x = Ok tt →
   (EvLog WARNING buffer_missing_warning [] ∈ trace x ↔
    is_Some (local_replay_buffer t) ∧ store_buffer_requested t = true ∧
    state !! "local_replay_buffer" = None) ∧
   (EvLog WARNING buffer_unrequested_warning [] ∈ trace x ↔
    is_Some (local_replay_buffer t) ∧ store_buffer_requested t = false ∧
    is_Some (state !! "local_replay_buffer") ∧
    ∃ once, EvLib (log_once log_once_key) (Ok once) ∈ trace x ∧ truthy once = true)).
Proof.
  intros x t.
  assert (emits (λ ev,
            (∀ b r, ev = EvLib (optimizer_restore b) r → state !! "optimizer" = Some b) ∧
            (∀ b r, ev = EvLib (replay_buffer_set_state b) r →
                    state !! "local_replay_buffer" = Some b))
            (__setstate__ state)) as Hemits.
  { unfold __setstate__. apply emits_bind; [|intros _; apply emits_bind; [|intros _]].
    - by apply restore_worker_state_emits.
    - apply restore_optimizer_state_emits. intros b r Hb. split; congruence.
    - apply restore_replay_buffer_emits; [|done..]. intros b r Hb. split; congruence. }
  specialize (Hemits s). rewrite Forall_forall in Hemits.
  split; [intros b r Hin; by eapply (proj1 (Hemits _ Hin))|].
  split; [intros b r Hin; by eapply (proj2 (Hemits _ Hin))|].
  subst x. unfold __setstate__. rewrite !res_bind, !trace_bind.
  pose proof (keeps_restore_worker_state state s) as Hself1.
  pose proof (restore_worker_state_emits
                (λ ev, (∀ l f a, ev ≠ EvLog l f a) ∧ (∀ c r, ev ≠ EvLib c r)) state
                ltac:(done) ltac:(done) s) as Hev1.
  destruct (res (restore_worker_state state s)) as [[]|e]; [|done].
  set (s1 := final (restore_worker_state state s)) in *.
  pose proof (keeps_restore_optimizer_state state s1) as Hself2.
  pose proof (restore_optimizer_state_emits
                (λ ev, (∀ l f a, ev ≠ EvLog l f a) ∧ (∀ r, ev ≠ EvLib (log_once log_once_key) r))
                state ltac:(done) s1) as Hev2.
  destruct (res (restore_optimizer_state state s1)) as [[]|e]; [|done].
  set (s2 := final (restore_optimizer_state state s1)) in *.
  intros Hres.
  destruct (restore_replay_buffer_warnings state s2 Hres) as [Hmissing Hunrequested].
  cbv zeta in Hmissing, Hunrequested. rewrite Hself2, Hself1 in Hmissing, Hunrequested.
  rewrite Forall_forall in Hev1, Hev2.
  assert (∀ l f a, EvLog l f a ∈
            trace (restore_worker_state state s) ++
            trace (restore_optimizer_state state s1) ++
            trace (restore_replay_buffer state s2) ↔
            EvLog l f a ∈ trace (restore_replay_buffer state s2)) as Hlog.
  { intros l f a. rewrite !elem_of_app. split; [|tauto].
    intros [Hin|[Hin|Hin]]; [|..|done].
    - by destruct (proj1 (Hev1 _ Hin) l f a).
    - by destruct (proj1 (Hev2 _ Hin) l f a). }
  assert (∀ r, EvLib (log_once log_once_key) r ∈
            trace (restore_worker_state state s) ++
            trace (restore_optimizer_state state s1) ++
            trace (restore_replay_buffer state s2) ↔
            EvLib (log_once log_once_key) r ∈ trace (restore_replay_buffer state s2))
    as Honce.
  { intros r. rewrite !elem_of_app. split; [|tauto].
    intros [Hin|[Hin|Hin]]; [|..|done].
    - by destruct (proj2 (Hev1 _ Hin) (log_once log_once_key) r).
    - by destruct (proj2 (Hev2 _ Hin) r). }
  rewrite !Hlog, Hmissing, Hunrequested. split; [done|].
  by setoid_rewrite Honce.
Qed.

End CheckpointFacts.

(** ** [default_resource_request] *)

Module ResourcesFacts.
Import Resources.

Lemma fmap_const_replicate {A B} (b : B) (l : list A) :
  (λ _, b) <$> l = replicate (length l) b.
Proof. induction l as [|x l IH]; [done|]. cbn. by rewrite <-IH. Qed.

(** The request holds one bundle for the driver, then one bundle per
    configured rollout worker, then, when [evaluation_interval] is set
    (neither [None] nor 0), one bundle per configured evaluation worker,
    and no evaluation bundle otherwise; its strategy is the
    [placement_strategy] of the given config, [PACK] when it gives none. *)
Lemma resource_request_bundles (defaults : Config) (config : PartialConfig) :
  let cf := dict_update defaults config in
  let r := default_resource_request defaults config in
  let workers := Z.to_nat (num_workers cf) in
  let eval_workers :=
    if interval_truthy (evaluation_interval cf)
    then Z.to_nat (evaluation_num_workers cf) else 0 in
  bundles r =
    driver_bundle cf :: replicate workers (worker_bundle cf)
      ++ replicate eval_workers (evaluation_bundle cf) ∧
  length (bundles r) = 1 + workers + eval_workers ∧
  strategy r = default "PACK" (p_placement_strategy config).
Proof.
  intros cf r workers eval_workers.
  assert (bundles r =
    driver_bundle cf :: replicate workers (worker_bundle cf)
      ++ replicate eval_workers (evaluation_bundle cf)) as Hb.
  { subst r eval_workers workers. unfold default_resource_request. cbn [bundles app].
    fold cf. rewrite !fmap_const_replicate, !length_seq.
    by destruct (interval_truthy (evaluation_interval cf)). }
  split; [done|]. split; [|done].
  rewrite Hb. cbn [length]. rewrite length_app, !length_replicate. lia.
Qed.

(** C9.  A config that asks for two evaluation workers and gives no
    evaluation interval: the request holds the bundles of the driver and of
    the two rollout workers, and none for the evaluation workers; the
    validation of such a config sets the interval to 1, so that the
    trainer does evaluate on two workers. *)
Theorem evaluation_bundles_need_interval :
  let cf := dict_update COMMON_CONFIG two_evaluation_workers in
  let r := default_resource_request COMMON_CONFIG two_evaluation_workers in
  evaluation_num_workers cf = 2%Z ∧
  num_workers cf = 2%Z ∧
  bundles r = [driver_bundle cf; worker_bundle cf; worker_bundle cf] ∧
  length (bundles r) = 3 ∧
  length (bundles r) ≠ 1 + Z.to_nat (num_workers cf) + Z.to_nat (evaluation_num_workers cf) ∧
  Validation.evaluation_num_workers Validation.evaluation_without_interval = 2%Z ∧
  Validation.evaluation_interval
    (Validation.config_of
       (Validation._validate_config None Validation.evaluation_without_interval))
    = PyInt 1.
Proof.
  cbv zeta. split_and!; [by vm_compute..| |reflexivity|by vm_compute].
  vm_compute. discriminate.
Qed.

End ResourcesFacts.

(** ** [merge_trainer_configs]: the base config is left alone *)

Module ConfigStoreFacts.
Import ConfigStore.

Lemma dict_get_children k items v :
  dict_get k items = Some v → v ∈ items.*2.
Proof.
  induction items as [|[k' v'] items IH]; [done|]. cbn.
  destruct (String.eqb k k').
  - intros [= ->]. apply elem_of_cons. by left.
  - intros Hget. apply elem_of_cons. right. by apply IH.
Qed.

Lemma dict_set_children k v items x :
  x ∈ (dict_set k v items).*2 → x = v ∨ x ∈ items.*2.
Proof.
  induction items as [|[k' v'] items IH]; cbn.
  - intros [->|[]%elem_of_nil]%elem_of_cons. by left.
  - destruct (String.eqb k k'); cbn.
    + intros [->|Hin]%elem_of_cons; [by left|]. right. apply elem_of_cons. by right.
    + intros [->|Hin]%elem_of_cons.
      * right. apply elem_of_cons. by left.
      * destruct (IH Hin) as [->|?]; [by left|]. right. apply elem_of_cons. by right.
Qed.

Lemma zip_children (ks : list string) (vs : list value) x :
  x ∈ (zip ks vs).*2 → x ∈ vs.
Proof.
  intros ([k v] & -> & Hin)%list_elem_of_fmap. by eapply elem_of_zip_r.
Qed.

(** *** [deepcopy] writes new objects only *)

Section Deepcopy.
Variable h0 : heap.
Local Abbreviation copies_well := (copies_well h0).

Lemma copy_values_well cp h m xs h' m' ys :
  copies_well cp → extends h0 h m →
  copy_values cp h m xs = Some (h', m', ys) →
  extends h0 h' m' ∧ ∀ b, VRef b ∈ ys → length h0 ≤ b.
Proof.
  intros Hcp. revert h m h' m' ys.
  induction xs as [|x xs IH]; intros h m h' m' ys Hext; cbn.
  - intros [= <- <- <-]. split; [done|]. by intros b ?%elem_of_nil.
  - destruct (cp h m x) as [[[h1 m1] y]|] eqn:Hx; [|done].
    destruct (Hcp _ _ _ _ _ _ Hext Hx) as [Hext1 Hy].
    destruct (copy_values cp h1 m1 xs) as [[[h2 m2] ys']|] eqn:Hxs; [|done].
    destruct (IH _ _ _ _ _ Hext1 Hxs) as [Hext2 Hys].
    intros [= <- <- <-]. split; [done|].
    intros b [Hb|Hb]%elem_of_cons; [by apply Hy|by apply Hys].
Qed.

Lemma extends_alloc h m a o :
  extends h0 h m → children o = [] →
  extends h0 (h ++ [o]) (<[a := length h]> m).
Proof.
  intros (Hlen & Hold & Hmemo & Hnew) Ho. split_and!.
  - rewrite length_app. lia.
  - intros a' Ha'. rewrite lookup_app_l by lia. by apply Hold.
  - intros a' y. rewrite lookup_insert. case_decide.
    + intros [= <-]. done.
    + apply Hmemo.
  - intros a' o' b Ha'. destruct (decide (a' < length h)) as [Hlt|Hge].
    + rewrite lookup_app_l by done. by apply Hnew.
    + rewrite lookup_app_r by lia. destruct (a' - length h) as [|?]; [|done].
      intros [= <-]. rewrite Ho. by intros ?%elem_of_nil.
Qed.

Lemma extends_fill h m y o :
  extends h0 h m → length h0 ≤ y →
  (∀ b, VRef b ∈ children o → length h0 ≤ b) →
  extends h0 (<[y := o]> h) m.
Proof.
  intros (Hlen & Hold & Hmemo & Hnew) Hy Ho. split_and!.
  - by rewrite length_insert.
  - intros a Ha. rewrite list_lookup_insert_ne by lia. by apply Hold.
  - done.
  - intros a o' b Ha. destruct (decide (y = a)) as [->|Hne].
    + destruct (decide (a < length h)) as [Hlt|Hge].
      * rewrite list_lookup_insert_eq by done. intros [= <-]. apply Ho.
      * rewrite list_insert_ge by lia. by apply Hnew.
    + rewrite list_lookup_insert_ne by done. by apply Hnew.
Qed.

Lemma deepcopy_well fuel : copies_well (deepcopy fuel).
Proof.
  induction fuel as [|fuel IH]; intros h m x h' m' y Hext;
    (destruct x as [| | | | | |a]; cbn;
     try (intros [= <- <- <-]; by split)).
  - destruct (m !! a) as [y'|] eqn:Hm; [|done].
    intros [= <- <- <-]. split; [done|]. intros b [= <-].
    destruct Hext as (_ & _ & Hmemo & _). by eapply Hmemo.
  - destruct (m !! a) as [y'|] eqn:Hm.
    { intros [= <- <- <-]. split; [done|]. intros b [= <-].
      destruct Hext as (_ & _ & Hmemo & _). by eapply Hmemo. }
    assert (length h0 ≤ length h) as Hlen by apply Hext.
    destruct (h !! a) as [[items|items]|] eqn:Ha; [| |done].
    + destruct (copy_values _ _ _ _) as [[[h1 m1] vs]|] eqn:Hcopy; [|done].
      intros [= <- <- <-].
      destruct (copy_values_well _ _ _ _ _ _ _ IH
                  (extends_alloc h m a (ODict []) Hext eq_refl) Hcopy)
        as [Hext1 Hvs].
      split; [|by intros b [= <-]].
      apply extends_fill; [done..|]. intros b Hb%zip_children. by apply Hvs.
    + destruct (copy_values _ _ _ _) as [[[h1 m1] vs]|] eqn:Hcopy; [|done].
      intros [= <- <- <-].
      destruct (copy_values_well _ _ _ _ _ _ _ IH
                  (extends_alloc h m a (OList []) Hext eq_refl) Hcopy)
        as [Hext1 Hvs].
      split; [|by intros b [= <-]].
      apply extends_fill; [done..|]. intros b Hb. by apply Hvs.
Qed.

End Deepcopy.

(** *** [deep_update] writes to the objects of a closed set only *)

Section DeepUpdate.
Variable S : addr → Prop.

Local Abbreviation unchanged_outside h h' := (∀ a : addr, ¬ S a → h' !! a = h !! a).

Lemma closed_under_insert h a items k v :
  closed_under h S → S a → h !! a = Some (ODict items) →
  (∀ b, v = VRef b → S b) →
  closed_under (<[a := ODict (dict_set k v items)]> h) S.
Proof.
  intros Hclosed Ha Hitems Hv a' o b Ha'.
  destruct (decide (a = a')) as [<-|Hne].
  - rewrite list_lookup_insert_eq by by eapply lookup_lt_Some.
    intros [= <-]. cbn. intros [Heq|Hin]%dict_set_children; [by apply Hv|].
    by eapply (Hclosed a).
  - rewrite list_lookup_insert_ne by done. by apply Hclosed.
Qed.

Lemma unchanged_outside_insert (h : heap) a o :
  S a → unchanged_outside h (<[a := o]> h).
Proof.
  intros Ha a' Ha'. rewrite list_lookup_insert_ne; [done|]. by intros ->.
Qed.

Lemma as_dict_ref h v a items :
  as_dict h v = Some (a, items) → v = VRef a ∧ h !! a = Some (ODict items).
Proof.
  destruct v as [| | | | | |a']; try done. cbn.
  destruct (h !! a') as [[items'|items']|] eqn:Hlook; try done.
  intros [= <- <-]. by rewrite Hlook.
Qed.

Lemma update_items_frame rec allow dm dk original items h :
  (∀ h a b, closed_under h S → S a → S b →
            unchanged_outside h (rec h a b).1 ∧ closed_under (rec h a b).1 S) →
  closed_under h S → S original →
  (∀ b, VRef b ∈ items.*2 → S b) →
  let h' := (update_items rec allow dm dk original items h).1 in
  unchanged_outside h h' ∧ closed_under h' S.
Proof.
  intros Hrec. revert h.
  induction items as [|[k v] items IH]; intros h Hclosed Horig Hitems; [done|].
  cbn [update_items].
  assert (∀ b, v = VRef b → S b) as Hv.
  { intros b ->. apply Hitems. apply elem_of_cons. by left. }
  assert (∀ b, VRef b ∈ items.*2 → S b) as Hitems'.
  { intros b Hb. apply Hitems. apply elem_of_cons. by right. }
  destruct (h !! original) as [[orig_items|]|] eqn:Ho; [|done..].
  assert (let h1 := <[original := ODict (dict_set k v orig_items)]> h in
          let h' := (update_items rec allow dm dk original items h1).1 in
          unchanged_outside h h' ∧ closed_under h' S) as Hreplace.
  { intros h1 h'.
    destruct (IH h1) as [Hframe Hclosed']; [by apply closed_under_insert|done..|].
    split; [|done]. intros a Ha. subst h'. rewrite (Hframe a Ha).
    by apply unchanged_outside_insert. }
  destruct (dict_get k orig_items) as [old|] eqn:Hold.
  2:{ by destruct allow. }
  destruct (as_dict h old) as [[a old_items]|] eqn:Hda; [|done].
  destruct (as_dict h v) as [[b new_items]|] eqn:Hdb; [|done].
  destruct (mem k dk && type_changes old_items new_items); [done|].
  destruct (mem k dm); [|done].
  apply as_dict_ref in Hda as [-> Ha], Hdb as [-> Hb].
  assert (S a) as HSa.
  { eapply (Hclosed original); [done..|]. cbn. by eapply dict_get_children. }
  destruct (Hrec h a b Hclosed HSa (Hv b eq_refl)) as [Hframe1 Hclosed1].
  destruct (rec h a b) as [h1 [[]| |]]; cbn [fst] in *; [|done..].
  destruct (IH h1 Hclosed1 Horig Hitems') as [Hframe2 Hclosed2].
  split; [|done]. intros a' Ha'. by rewrite (Hframe2 a' Ha'), (Hframe1 a' Ha').
Qed.

Lemma deep_update_frame fuel dm dk h original new_dict allow :
  closed_under h S → S original → S new_dict →
  let h' := (deep_update fuel dm dk h original new_dict allow).1 in
  unchanged_outside h h' ∧ closed_under h' S.
Proof.
  revert h original new_dict allow.
  induction fuel as [|fuel IH]; intros h original new_dict allow Hclosed Ho Hn; [done|].
  cbn [deep_update].
  destruct (h !! new_dict) as [[items|]|] eqn:Hitems; [|done..].
  apply update_items_frame; [|done..|].
  - intros h1 a b ???. by apply IH.
  - intros b Hb. by eapply (Hclosed new_dict).
Qed.

End DeepUpdate.

(** *** The merge *)

Lemma wrap_legacy_callbacks_frame (S : addr → Prop) h config2 items2 :
  closed_under h S → S config2 → h !! config2 = Some (ODict items2) →
  let h' := wrap_legacy_callbacks h config2 items2 in
  (∀ a, ¬ S a → h' !! a = h !! a) ∧ closed_under h' S.
Proof.
  intros Hclosed Hc Hitems. unfold wrap_legacy_callbacks.
  destruct (dict_get "callbacks" items2) as [[| | | | | |l]|]; try done.
  destruct (h !! l) as [[]|]; try done.
  split; [by apply unchanged_outside_insert|].
  by apply closed_under_insert.
Qed.

(** *** Trees: what a footprint reads *)

Lemma footprints_stable fp fp' xs l :
  (∀ x lx, x ∈ xs → fp x = Some lx → (∀ a, a ∈ lx → a ∈ l) → fp' x = Some lx) →
  footprints fp xs = Some l → footprints fp' xs = Some l.
Proof.
  revert l. induction xs as [|x xs IH]; intros l Hfp; [done|]. cbn.
  destruct (fp x) as [lx|] eqn:Hx; [|done].
  destruct (footprints fp xs) as [lxs|] eqn:Hxs; [|done].
  intros [= <-].
  rewrite (Hfp x lx); [|by left|done|intros a Ha; apply elem_of_app; by left].
  rewrite (IH lxs); [done| |done].
  intros y ly Hy Hfy Hin. apply Hfp; [by right|done|].
  intros a Ha. apply elem_of_app. right. by apply Hin.
Qed.

(** The footprint of a value reads the objects of the footprint only. *)
Lemma footprint_stable f h h' x l :
  footprint f h x = Some l → (∀ a, a ∈ l → h' !! a = h !! a) →
  footprint f h' x = Some l.
Proof.
  revert x l. induction f as [|f IH]; intros x l; (destruct x as [| | | | | |a]; try done).
  cbn. destruct (h !! a) as [o|] eqn:Ha; [|done].
  destruct (footprints (footprint f h) (children o)) as [lr|] eqn:Hlr; [|done].
  intros [= <-] Hsame. rewrite (Hsame a) by by left. rewrite Ha.
  rewrite (footprints_stable (footprint f h) (footprint f h') _ lr); [done| |done].
  intros y ly _ Hy Hin. apply IH; [done|].
  intros b Hb. apply Hsame. right. by apply Hin.
Qed.

Lemma footprint_lookup f h a l :
  footprint f h (VRef a) = Some l →
  ∃ f' o lr, f = S f' ∧ h !! a = Some o ∧
             footprints (footprint f' h) (children o) = Some lr ∧ l = a :: lr.
Proof.
  destruct f as [|f']; [done|]. cbn.
  destruct (h !! a) as [o|]; [|done].
  destruct (footprints _ _) as [lr|] eqn:Hlr; [|done].
  intros [= <-]. by exists f', o, lr.
Qed.

(** The footprints of the values of a dict, by key: each is a part of the
    footprint of the dict, and those of two keys share no object. *)
Lemma footprints_dict fp (items : list (string * value)) lr :
  footprints fp items.*2 = Some lr → NoDup lr →
  (∀ k v, dict_get k items = Some v →
     ∃ lv, fp v = Some lv ∧ NoDup lv ∧ ∀ x, x ∈ lv → x ∈ lr) ∧
  (∀ k k' v v' lv lv', k ≠ k' →
     dict_get k items = Some v → dict_get k' items = Some v' →
     fp v = Some lv → fp v' = Some lv' → ∀ x, x ∈ lv → x ∈ lv' → False).
Proof.
  revert lr. induction items as [|[k0 v0] items IH]; intros lr; [done|].
  cbn. destruct (fp v0) as [l0|] eqn:H0; [|done].
  destruct (footprints fp items.*2) as [lrest|] eqn:Hrest; [|done].
  intros [= <-] [Hl0 [Hdisj Hlrest]]%NoDup_app.
  destruct (IH lrest eq_refl Hlrest) as [IH1 IH2]. split.
  - intros k v. destruct (String.eqb k k0).
    + intros [= <-]. exists l0. split_and!; [done..|]. intros x Hx. apply elem_of_app. by left.
    + intros (lv & ? & ? & Hin)%IH1. exists lv. split_and!; [done..|].
      intros x Hx. apply elem_of_app. right. by apply Hin.
  - intros k k' v v' lv lv' Hne.
    destruct (String.eqb k k0) eqn:Hk, (String.eqb k' k0) eqn:Hk'.
    + apply String.eqb_eq in Hk, Hk'. congruence.
    + intros [= <-] (lv'' & Hv' & _ & Hin)%IH1 Hlv Hlv' x Hx Hx'.
      simplify_eq. by eapply Hdisj, Hin.
    + intros (lv'' & Hv & _ & Hin)%IH1 [= <-] Hlv Hlv' x Hx Hx'.
      simplify_eq. by eapply Hdisj, Hin.
    + by apply IH2.
Qed.

(** *** [deep_update] on a tree of new objects *)

Lemma dict_get_set_ne k k' v items :
  k' ≠ k → dict_get k' (dict_set k v items) = dict_get k' items.
Proof.
  intros Hne. induction items as [|[k0 v0] items IH]; cbn.
  - destruct (String.eqb k' k) eqn:Hk; [|done]. by apply String.eqb_eq in Hk.
  - destruct (String.eqb k k0) eqn:Hk0; cbn.
    + apply String.eqb_eq in Hk0 as ->.
      destruct (String.eqb k' k0) eqn:Hk; [|done]. by apply String.eqb_eq in Hk.
    + by rewrite IH.
Qed.

Section DeepUpdateTree.
Variable n0 : nat.

Local Abbreviation old_ok := (old_ok n0).

Lemma old_ok_same hc hc' :
  old_ok hc → (∀ x, x < n0 → hc' !! x = hc !! x) → old_ok hc'.
Proof. intros Hok Hsame x items Hx. rewrite (Hsame x Hx). by apply Hok. Qed.

Lemma update_items_tree rec allow dm dk a f (lr : list addr) :
  (∀ hc a' b' l', footprint f hc (VRef a') = Some l' → NoDup l' →
     (∀ x, x ∈ l' → n0 ≤ x) → old_ok hc → b' < n0 →
     ∀ x, x ∉ l' → (rec hc a' b').1 !! x = hc !! x) →
  n0 ≤ a → a ∉ lr → (∀ x, x ∈ lr → n0 ≤ x) →
  ∀ items hc orig,
  NoDup items.*1 → (∀ c, VRef c ∈ items.*2 → c < n0) →
  hc !! a = Some (ODict orig) →
  (∀ k v, k ∈ items.*1 → dict_get k orig = Some v →
     ∃ lv, footprint f hc v = Some lv ∧ NoDup lv ∧ ∀ x, x ∈ lv → x ∈ lr) →
  (∀ k k' v v' lv lv', k ∈ items.*1 → k' ∈ items.*1 → k ≠ k' →
     dict_get k orig = Some v → dict_get k' orig = Some v' →
     footprint f hc v = Some lv → footprint f hc v' = Some lv' →
     ∀ x, x ∈ lv → x ∈ lv' → False) →
  old_ok hc →
  ∀ x, x ≠ a → x ∉ lr →
       (update_items rec allow dm dk a items hc).1 !! x = hc !! x.
Proof.
  intros Hrec Ha0 Halr Hlr.
  induction items as [|[k v] items IH];
    intros hc orig Hkeys Hvals Ha Hinv1 Hinv2 Hok x Hxa Hxlr; [done|].
  cbn [update_items]. rewrite Ha.
  apply NoDup_cons in Hkeys as [Hk Hkeys]. cbn [fmap list_fmap fst snd] in *.
  assert (∀ c, VRef c ∈ items.*2 → c < n0) as Hvals'.
  { intros c Hc. apply Hvals. by right. }
  assert (∀ k', k' ∈ items.*1 → k' ≠ k) as Hother.
  { intros k' Hk' ->. done. }
  (* the state after a step that changes the objects of [lw] only, where
     no later key has its value in [lw] *)
  assert (∀ hc1 orig1 (lw : list addr),
            hc1 !! a = Some (ODict orig1) →
            (∀ k', k' ≠ k → dict_get k' orig1 = dict_get k' orig) →
            (∀ y, y ∉ lw → y ≠ a → hc1 !! y = hc !! y) →
            (∀ y, y ∈ lw → n0 ≤ y) →
            (∀ y, y ∈ lw → y ∈ lr) →
            (∀ k' v' lv', k' ∈ items.*1 → dict_get k' orig = Some v' →
               footprint f hc v' = Some lv' → ∀ y, y ∈ lw → y ∈ lv' → False) →
            (update_items rec allow dm dk a items hc1).1 !! x = hc1 !! x) as Hnext.
  { intros hc1 orig1 lw Ha1 Hget Hsame Hlw Hlwlr Hdisj.
    assert (∀ k' v' lv', k' ∈ items.*1 → dict_get k' orig = Some v' →
              footprint f hc v' = Some lv' → (∀ y, y ∈ lv' → y ∈ lr) →
              footprint f hc1 v' = Some lv') as Hstable.
    { intros k' v' lv' Hk' Hv' Hlv' Hin. eapply footprint_stable; [done|].
      intros y Hy. apply Hsame.
      - intros Hyw. by eapply Hdisj.
      - intros ->. by apply Halr, Hin. }
    apply (IH hc1 orig1); [done..| | | |done|done].
    - intros k' v' Hk'. rewrite Hget by by apply Hother. intros Hv'.
      destruct (Hinv1 k' v' ltac:(by right) Hv') as (lv' & Hlv' & Hnd & Hin).
      exists lv'. split_and!; [|done..]. by eapply Hstable.
    - intros k1 k2 v1 v2 l1 l2 Hk1 Hk2 Hne.
      rewrite !Hget by by apply Hother. intros Hv1 Hv2 Hl1 Hl2.
      destruct (Hinv1 k1 v1 ltac:(by right) Hv1) as (l1' & Hl1' & _ & Hin1).
      destruct (Hinv1 k2 v2 ltac:(by right) Hv2) as (l2' & Hl2' & _ & Hin2).
      rewrite (Hstable k1 v1 l1' Hk1 Hv1 Hl1' Hin1) in Hl1.
      rewrite (Hstable k2 v2 l2' Hk2 Hv2 Hl2' Hin2) in Hl2. simplify_eq.
      eapply (Hinv2 k1 k2); [by right|by right|done..].
    - eapply old_ok_same; [done|]. intros y Hy. apply Hsame.
      + intros Hyw. apply Hlw in Hyw. lia.
      + lia. }
  assert (let hc1 := <[a := ODict (dict_set k v orig)]> hc in
          (update_items rec allow dm dk a items hc1).1 !! x = hc !! x) as Hreplace.
  { intros hc1.
    assert (a < length hc) as Hlt by by eapply lookup_lt_Some.
    rewrite (Hnext hc1 (dict_set k v orig) []).
    - subst hc1. by rewrite list_lookup_insert_ne.
    - subst hc1. by rewrite list_lookup_insert_eq.
    - intros k' Hk'. by apply dict_get_set_ne.
    - intros y _ Hy. subst hc1. by rewrite list_lookup_insert_ne.
    - by intros y ?%elem_of_nil.
    - by intros y ?%elem_of_nil.
    - by intros ??? _ _ _ y ?%elem_of_nil. }
  destruct (dict_get k orig) as [old|] eqn:Hold.
  2:{ by destruct allow. }
  destruct (as_dict hc old) as [[a' old_items]|] eqn:Hda; [|done].
  destruct (as_dict hc v) as [[b' new_items]|] eqn:Hdb; [|done].
  destruct (mem k dk && type_changes old_items new_items); [done|].
  destruct (mem k dm); [|done].
  apply as_dict_ref in Hda as [-> Ha'], Hdb as [-> Hb'].
  destruct (Hinv1 k (VRef a') ltac:(by left) Hold) as (la & Hla & Hnd & Hin).
  assert (b' < n0) as Hb'0 by (apply Hvals; by left).
  pose proof (Hrec hc a' b' la Hla Hnd ltac:(intros y Hy; by apply Hlr, Hin) Hok Hb'0)
    as Hframe.
  assert (x ∉ la) as Hxla by (intros Hx; by apply Hxlr, Hin).
  destruct (rec hc a' b') as [hc1 [[]| |]]; cbn [fst] in *; [|by apply Hframe..].
  rewrite (Hnext hc1 orig la).
  - by apply Hframe.
  - rewrite Hframe; [done|]. intros Hx. by apply Halr, Hin.
  - done.
  - intros y Hy _. by apply Hframe.
  - intros y Hy. by apply Hlr, Hin.
  - done.
  - intros k' v' lv' Hk' Hv' Hlv' y Hy Hy'.
    eapply (Hinv2 k k' (VRef a') v' la lv'); [by left|by right| |done..].
    intros ->. by apply (Hother k').
Qed.

Lemma deep_update_tree fuel dm dk :
  ∀ f hc a b allow l,
  footprint f hc (VRef a) = Some l → NoDup l → (∀ x, x ∈ l → n0 ≤ x) →
  old_ok hc → b < n0 →
  ∀ x, x ∉ l → (deep_update fuel dm dk hc a b allow).1 !! x = hc !! x.
Proof.
  induction fuel as [|fuel IH]; intros f hc a b allow l Hl Hnd Hfresh Hok Hb x Hx;
    [done|].
  cbn [deep_update].
  destruct (hc !! b) as [[items|]|] eqn:Hitems; [|done..].
  destruct (footprint_lookup _ _ _ _ Hl) as (f' & o & lr & -> & Ha & Hlr & ->).
  apply NoDup_cons in Hnd as [Halr Hnd].
  destruct o as [orig|lst].
  2:{ destruct items as [|[k v] items]; cbn; [done|]. by rewrite Ha. }
  destruct (Hok b items Hb Hitems) as [Hkeys Hvals].
  destruct (footprints_dict (footprint f' hc) orig lr Hlr Hnd) as [H1 H2].
  eapply (update_items_tree _ allow dm dk a f' lr); try done.
  - intros hc1 a' b' l' ??????. by eapply IH.
  - apply Hfresh. by left.
  - intros y Hy. apply Hfresh. by right.
  - intros k v _. apply H1.
  - intros k k' v v' lv lv' _ _. apply H2.
  - intros ->. apply Hx. by left.
  - intros Hxlr. apply Hx. by right.
Qed.

End DeepUpdateTree.

(** *** [deepcopy] of a tree *)

Lemma footprints_heap_stable f h h' xs l :
  footprints (footprint f h) xs = Some l → (∀ a, a ∈ l → h' !! a = h !! a) →
  footprints (footprint f h') xs = Some l.
Proof.
  intros Hl Hsame. eapply footprints_stable; [|done].
  intros x lx _ Hx Hin. eapply footprint_stable; [done|].
  intros a Ha. by apply Hsame, Hin.
Qed.

Lemma footprint_atom f h x : (∀ a, x ≠ VRef a) → footprint f h x = Some [].
Proof. intros Hx. destruct f, x; try done; by destruct (Hx a). Qed.

Lemma deepcopy_atom fuel h m x :
  (∀ a, x ≠ VRef a) → deepcopy fuel h m x = Some (h, m, x).
Proof. intros Hx. destruct fuel, x; try done; by destruct (Hx a). Qed.

Lemma value_cases x : (∃ a, x = VRef a) ∨ (∀ a, x ≠ VRef a).
Proof. destruct x; try (by right); left; by eexists. Qed.

Section CopyTree.
Variable h0 : heap.

Local Abbreviation copies_trees := (copies_trees h0).

Lemma copy_values_trees cp f xs :
  copies_trees cp f →
  ∀ hc m l hc' m' ys,
    footprints (footprint f h0) xs = Some l → NoDup l → (∀ a, a ∈ l → m !! a = None) →
    (∀ a, a < length h0 → hc !! a = h0 !! a) → length h0 ≤ length hc →
    copy_values cp hc m xs = Some (hc', m', ys) →
    ∃ l', footprints (footprint f hc') ys = Some l' ∧ NoDup l' ∧
          (∀ a, a ∈ l' → length hc ≤ a < length hc') ∧
          (∀ a, a < length hc → hc' !! a = hc !! a) ∧
          length hc ≤ length hc' ∧
          (∀ a, a ∉ l → m' !! a = m !! a) ∧
          length ys = length xs.
Proof.
  intros Hcp. induction xs as [|x xs IH]; intros hc m l hc' m' ys; cbn.
  { intros [= <-] _ _ _ _ [= <- <- <-]. exists []. split_and!; try done.
    - constructor.
    - by intros a ?%elem_of_nil. }
  destruct (footprint f h0 x) as [lx|] eqn:Hx; [|done].
  destruct (footprints (footprint f h0) xs) as [lxs|] eqn:Hxs; [|done].
  intros [= <-] [Hlx [Hdisj Hlxs]]%NoDup_app Hmemo Hagree Hlen.
  destruct (cp hc m x) as [[[h1 m1] y]|] eqn:Hy; [|done].
  destruct (copy_values cp h1 m1 xs) as [[[h2 m2] ys']|] eqn:Hys; [|done].
  intros [= <- <- <-].
  destruct (Hcp hc m x lx h1 m1 y Hx Hlx) as (l1 & Hl1 & Hnd1 & Hr1 & Ha1 & Hlen1 & Hm1);
    [intros a Ha; apply Hmemo, elem_of_app; by left|done..|].
  destruct (IH h1 m1 lxs h2 m2 ys' eq_refl Hlxs)
    as (l2 & Hl2 & Hnd2 & Hr2 & Ha2 & Hlen2 & Hm2 & Hlenys); [| |lia|done|].
  { intros a Ha. rewrite Hm1; [apply Hmemo, elem_of_app; by right|].
    intros Hax. by eapply Hdisj. }
  { intros a Ha. rewrite Ha1 by lia. by apply Hagree. }
  exists (l1 ++ l2). cbn. rewrite Hl2.
  rewrite (footprint_stable f h1 h2 y l1 Hl1).
  2:{ intros a Ha. apply Ha2. by apply Hr1. }
  split_and!; [done| | | |lia| |by rewrite Hlenys].
  - apply NoDup_app. split_and!; [done| |done].
    intros a Ha1' Ha2'. apply Hr1 in Ha1'. apply Hr2 in Ha2'. lia.
  - intros a [Ha|Ha]%elem_of_app; [apply Hr1 in Ha|apply Hr2 in Ha]; lia.
  - intros a Ha. rewrite Ha2 by lia. by apply Ha1.
  - intros a Ha. rewrite Hm2, Hm1; [done| |].
    + intros Hin. apply Ha, elem_of_app. by left.
    + intros Hin. apply Ha, elem_of_app. by right.
Qed.

Lemma deepcopy_trees fuel : ∀ f, copies_trees (deepcopy fuel) f.
Proof.
  assert (∀ n f hc m x l hc' m' y,
            (∀ a, x ≠ VRef a) → footprint f h0 x = Some l →
            deepcopy n hc m x = Some (hc', m', y) →
            ∃ l', footprint f hc' y = Some l' ∧ NoDup l' ∧
                  (∀ a, a ∈ l' → length hc ≤ a < length hc') ∧
                  (∀ a, a < length hc → hc' !! a = hc !! a) ∧
                  length hc ≤ length hc' ∧
                  (∀ a, a ∉ l → m' !! a = m !! a)) as Hatom.
  { intros n f hc m x l hc' m' y Hx. rewrite footprint_atom, deepcopy_atom by done.
    intros [= <-] [= <- <- <-]. exists []. rewrite footprint_atom by done.
    split_and!; try done; [constructor|by intros ? ?%elem_of_nil]. }
  induction fuel as [|fuel IH]; intros f hc m x l hc' m' y Hl Hnd Hmemo Hagree Hlen.
  - destruct (value_cases x) as [[a ->]|Hx]; [|by eapply Hatom].
    destruct (footprint_lookup _ _ _ _ Hl) as (f' & o & lr & -> & Ha & Hlr & ->).
    cbn. rewrite Hmemo by by left. done.
  - destruct (value_cases x) as [[a ->]|Hx]; [|by eapply Hatom].
    destruct (footprint_lookup _ _ _ _ Hl) as (f' & o & lr & -> & Ha & Hlr & ->).
    apply NoDup_cons in Hnd as [Halr Hnd].
    assert (a < length h0) as Hlt by by eapply lookup_lt_Some.
    cbn [deepcopy]. rewrite Hmemo by by left. rewrite (Hagree a Hlt), Ha.
    assert (∀ o0 : object, children o0 = [] →
              (∀ a', a' < length h0 → (hc ++ [o0]) !! a' = h0 !! a') ∧
              length h0 ≤ length (hc ++ [o0]) ∧
              (∀ a', a' ∈ lr → <[a:=length hc]> m !! a' = None)) as Hstart.
    { intros o0 _. split_and!.
      - intros a' Ha'. rewrite lookup_app_l by lia. by apply Hagree.
      - rewrite length_app. lia.
      - intros a' Ha'. rewrite lookup_insert_ne; [apply Hmemo; by right|].
        by intros ->. }
    assert (∀ (h1 : heap) (m1 : memo) vs lr' o1,
              children o1 = vs →
              footprints (footprint f' h1) vs = Some lr' → NoDup lr' →
              (∀ a', a' ∈ lr' → length hc + 1 ≤ a' < length h1) →
              (∀ a', a' < length hc → h1 !! a' = hc !! a') →
              length hc + 1 ≤ length h1 →
              (∀ a', a' ∉ lr → m1 !! a' = <[a:=length hc]> m !! a') →
              ∃ l', footprint (S f') (<[length hc := o1]> h1) (VRef (length hc)) = Some l' ∧
                    NoDup l' ∧
                    (∀ a', a' ∈ l' → length hc ≤ a' < length (<[length hc := o1]> h1)) ∧
                    (∀ a', a' < length hc → <[length hc := o1]> h1 !! a' = hc !! a') ∧
                    length hc ≤ length (<[length hc := o1]> h1) ∧
                    (∀ a', a' ∉ a :: lr → m1 !! a' = m !! a')) as Hfinish.
    { intros h1 m1 vs lr' o1 Ho1 Hlr' Hnd' Hr' Ha' Hlen' Hm'.
      exists (length hc :: lr'). cbn [footprint].
      rewrite list_lookup_insert_eq by lia. rewrite Ho1.
      rewrite (footprints_heap_stable f' h1 _ vs lr' Hlr').
      2:{ intros a' Hin. apply Hr' in Hin. rewrite list_lookup_insert_ne; [done|lia]. }
      rewrite length_insert.
      split_and!; [done| | | |lia|].
      - apply NoDup_cons. split; [|done]. intros Hin. apply Hr' in Hin. lia.
      - intros a' [->|Hin]%elem_of_cons; [lia|]. apply Hr' in Hin. lia.
      - intros a' Hlt'. rewrite list_lookup_insert_ne by lia. by apply Ha'.
      - intros a' Hnin. rewrite Hm'.
        + rewrite lookup_insert_ne; [done|]. intros ->. apply Hnin. by left.
        + intros Hin. apply Hnin. by right. }
    assert (∀ (o0 : object) (h1 : heap) (lr' : list addr),
              (∀ a', a' ∈ lr' → length (hc ++ [o0]) ≤ a' < length h1) →
              (∀ a', a' < length (hc ++ [o0]) → h1 !! a' = (hc ++ [o0]) !! a') →
              length (hc ++ [o0]) ≤ length h1 →
              (∀ a', a' ∈ lr' → length hc + 1 ≤ a' < length h1) ∧
              (∀ a', a' < length hc → h1 !! a' = hc !! a') ∧
              length hc + 1 ≤ length h1) as Hshift.
    { intros o0 h1 lr'. rewrite length_app. cbn [length]. intros Hr' Ha' Hlen'.
      split_and!; [done| |done].
      intros a' Hlt'. rewrite Ha' by lia. by rewrite lookup_app_l by lia. }
    destruct o as [items|items].
    + destruct (copy_values _ _ _ _) as [[[h1 m1] vs]|] eqn:Hcopy; [|done].
      intros [= <- <- <-].
      destruct (Hstart (ODict []) eq_refl) as (Hs1 & Hs2 & Hs3).
      destruct (copy_values_trees (deepcopy fuel) f' items.*2 (IH f') _ _ lr h1 m1 vs
                  Hlr Hnd Hs3 Hs1 Hs2 Hcopy)
        as (lr' & Hlr' & Hnd' & Hr' & Ha' & Hlen' & Hm' & Hlenvs).
      destruct (Hshift _ _ _ Hr' Ha' Hlen') as (? & ? & ?).
      apply (Hfinish h1 m1 vs lr'); try done.
      cbn. apply snd_zip. rewrite Hlenvs, !length_fmap. done.
    + destruct (copy_values _ _ _ _) as [[[h1 m1] vs]|] eqn:Hcopy; [|done].
      intros [= <- <- <-].
      destruct (Hstart (OList []) eq_refl) as (Hs1 & Hs2 & Hs3).
      destruct (copy_values_trees (deepcopy fuel) f' items (IH f') _ _ lr h1 m1 vs
                  Hlr Hnd Hs3 Hs1 Hs2 Hcopy)
        as (lr' & Hlr' & Hnd' & Hr' & Ha' & Hlen' & Hm' & Hlenvs).
      destruct (Hshift _ _ _ Hr' Ha' Hlen') as (? & ? & ?).
      by apply (Hfinish h1 m1 vs lr').
Qed.

End CopyTree.

Lemma well_formed_lookup h a o :
  well_formed h = true → h !! a = Some o →
  (∀ b, VRef b ∈ children o → b < length h) ∧
  (∀ items, o = ODict items → NoDup items.*1).
Proof.
  unfold well_formed. rewrite forallb_forall. intros Hwf Ha.
  specialize (Hwf o). rewrite <-list_elem_of_In in Hwf.
  specialize (Hwf ltac:(by eapply list_elem_of_lookup_2)).
  apply andb_true_iff in Hwf as [Hrefs Hkeys]. split.
  - intros b Hb. rewrite forallb_forall in Hrefs.
    specialize (Hrefs (VRef b)). rewrite <-list_elem_of_In in Hrefs.
    by apply Nat.ltb_lt, Hrefs.
  - intros items ->. by apply bool_decide_eq_true in Hkeys.
Qed.

Lemma dict_set_keys k v items : NoDup items.*1 → NoDup (dict_set k v items).*1.
Proof.
  induction items as [|[k0 v0] items IH]; cbn.
  - intros _. apply NoDup_singleton.
  - intros [Hk0 Hnd]%NoDup_cons. destruct (String.eqb k k0) eqn:Hk; cbn.
    + apply String.eqb_eq in Hk as ->. by apply NoDup_cons.
    + apply NoDup_cons. split; [|by apply IH].
      intros ([k1 v1] & -> & Hin)%list_elem_of_fmap. cbn in *.
      assert (k1 ∈ (k :: items.*1)) as [->|Hin']%elem_of_cons.
      { clear -Hin. induction items as [|[k2 v2] items IH]; cbn in *.
        - apply list_elem_of_singleton in Hin as [= -> _]. by left.
        - destruct (String.eqb k k2).
          + apply elem_of_cons in Hin as [[= -> _]|Hin]; [by left|].
            right. right. apply list_elem_of_fmap. by exists (k1, v1).
          + apply elem_of_cons in Hin as [[= -> _]|Hin]; [right; by left|].
            apply IH in Hin. apply elem_of_cons in Hin as [->|Hin]; [by left|].
            right. by right. }
      * by apply String.eqb_neq in Hk.
      * done.
Qed.

(** [merge_trainer_configs] writes to new objects and to the override
    dict, whose legacy callbacks dict it replaces by the factory, and to
    nothing else: every other object of the caller is as it was, however
    the call ends. *)
Lemma merge_trainer_configs_writes fuel f (h : heap) config1 config2 allow :
  well_formed h = true → is_tree f h config1 = true → is_Some (h !! config2) →
  let h' := (merge_trainer_configs fuel h config1 config2 allow).1 in
  (∀ a, a < length h → a ≠ config2 → h' !! a = h !! a) ∧
  (h' !! config2 = h !! config2 ∨
   ∃ items2 d,
     h !! config2 = Some (ODict items2) ∧
     dict_get "callbacks" items2 = Some (VRef d) ∧
     legacy_callbacks h config2 = true ∧
     h' !! config2 =
       Some (ODict (dict_set "callbacks" (VCallbacksFactory d) items2))).
Proof.
  intros Hwf Htree [o2 Ho2]. unfold merge_trainer_configs.
  destruct (deepcopy fuel h ∅ (VRef config1)) as [[[h1 m1] c1]|] eqn:Hcopy;
    [|by split; [|left]].
  unfold is_tree in Htree.
  destruct (footprint f h (VRef config1)) as [l|] eqn:Hl; [|done].
  apply bool_decide_eq_true in Htree.
  destruct (deepcopy_trees h fuel f h ∅ (VRef config1) l h1 m1 c1 Hl Htree)
    as (l' & Hl' & Hnd' & Hr' & Ha1 & Hlen1 & _); [done..|].
  destruct c1 as [| | | | | |config1']; try (by split; [|left]).
  cbv zeta.
  assert (config2 < length h) as Hc2 by by eapply lookup_lt_Some.
  rewrite (Ha1 config2 Hc2), Ho2.
  destruct o2 as [items2|]; [|cbn; split; [intros; by apply Ha1|left; by rewrite Ha1]].
  set (h2 := wrap_legacy_callbacks h1 config2 items2).
  assert (∀ x, x ≠ config2 → h2 !! x = h1 !! x) as Hw1.
  { intros x Hx. subst h2. unfold wrap_legacy_callbacks.
    destruct (dict_get "callbacks" items2) as [[| | | | | |d]|]; try done.
    destruct (h1 !! d) as [[]|]; try done. by rewrite list_lookup_insert_ne. }
  assert (h2 !! config2 = Some (ODict items2) ∨
          ∃ d, dict_get "callbacks" items2 = Some (VRef d) ∧
               legacy_callbacks h config2 = true ∧
               h2 !! config2 =
                 Some (ODict (dict_set "callbacks" (VCallbacksFactory d) items2)))
    as Hw2.
  { subst h2. unfold wrap_legacy_callbacks.
    destruct (dict_get "callbacks" items2) as [[| | | | | |d]|] eqn:Hcb;
      try (left; by rewrite Ha1).
    assert (d < length h) as Hd.
    { eapply (well_formed_lookup h config2); [done..|]. cbn.
      by eapply dict_get_children. }
    destruct (h1 !! d) as [[its|]|] eqn:Hd1; try (left; by rewrite Ha1).
    right. exists d. split_and!; [done| |].
    - unfold legacy_callbacks. rewrite Ho2, Hcb. rewrite <-(Ha1 d Hd), Hd1. done.
    - rewrite list_lookup_insert_eq; [done|]. lia. }
  assert (old_ok (length h) h2) as Hok.
  { intros x items Hx. destruct (decide (x = config2)) as [->|Hne].
    - destruct Hw2 as [Hsame|(d & _ & _ & Hset)].
      + rewrite Hsame. intros [= <-].
        destruct (well_formed_lookup h config2 _ Hwf Ho2) as [Hrefs Hkeys].
        split; [by apply Hkeys|]. apply Hrefs.
      + rewrite Hset. intros [= <-].
        destruct (well_formed_lookup h config2 _ Hwf Ho2) as [Hrefs Hkeys].
        split; [by apply dict_set_keys, Hkeys|].
        intros c [[=]|Hc]%dict_set_children. by apply Hrefs.
    - rewrite Hw1, Ha1 by done. intros Hx'.
      destruct (well_formed_lookup h x _ Hwf Hx') as [Hrefs Hkeys].
      split; [by apply Hkeys|]. apply Hrefs. }
  assert (footprint f h2 (VRef config1') = Some l') as Hl2.
  { eapply footprint_stable; [done|]. intros a Ha. apply Hw1.
    apply Hr' in Ha. lia. }
  pose proof (deep_update_tree (length h) fuel _allow_unknown_subkeys
                _override_all_subkeys_if_type_changes f h2 config1' config2
                (default _allow_unknown_configs allow) l' Hl2 Hnd'
                ltac:(intros x Hx; apply Hr' in Hx; lia) Hok Hc2) as Hframe.
  assert (∀ x, x < length h →
            (let '(h3, r) := deep_update fuel _allow_unknown_subkeys
                   _override_all_subkeys_if_type_changes h2 config1' config2
                   (default _allow_unknown_configs allow) in
             match r with
             | Returned _ => (h3, Returned config1')
             | Raised e => (h3, Raised e)
             | OutOfFuel => (h3, OutOfFuel)
             end).1 !! x = h2 !! x) as Hold.
  { intros x Hx. rewrite <-Hframe.
    - by destruct (deep_update _ _ _ _ _ _ _) as [h3 [[]| |]].
    - intros Hin. apply Hr' in Hin. lia. }
  cbv zeta. split.
  - intros a Ha Hne. rewrite Hold by done. by rewrite Hw1, Ha1.
  - rewrite Hold by done.
    destruct Hw2 as [->|(d & ? & ? & ->)]; [by left|]. right. by exists items2, d.
Qed.

(** When no object of the tree of the override config is an
    object of the tree of the base config, [merge_trainer_configs] leaves
    every object of the tree of the base config as it was, however the call
    ends. *)
Lemma merge_trainer_configs_separate fuel (h : heap) config1 config2 allow :
  (∀ a, reach h config1 a → reach h config2 a → False) →
  ∀ a o, reach h config1 a → h !! a = Some o →
         (merge_trainer_configs fuel h config1 config2 allow).1 !! a = Some o.
Proof.
  intros Hsep a o Hreach Ha. unfold merge_trainer_configs.
  destruct (deepcopy fuel h ∅ (VRef config1)) as [[[h1 m1] c1]|] eqn:Hcopy; [|done].
  destruct c1 as [| | | | | |config1']; try done.
  assert (extends h h ∅) as Hext0.
  { split_and!; [done..|]. intros a' o' b Hge Hlook.
    apply lookup_lt_Some in Hlook. lia. }
  destruct (deepcopy_well h fuel _ _ _ _ _ _ Hext0 Hcopy)
    as [(Hlen & Hold & _ & Hnew) Hc1].
  assert (a < length h) as Hlt by by eapply lookup_lt_Some.
  assert (h1 !! a = Some o) as Ha1 by by rewrite Hold.
  destruct (h1 !! config2) as [[items2|]|] eqn:Hitems2; [|done..].
  set (S := λ b : addr, length h ≤ b ∨ reach h config2 b).
  assert (closed_under h1 S) as Hclosed1.
  { intros a' o' b [Hge|Hr] Hlook Hb.
    - left. by eapply Hnew.
    - destruct (decide (a' < length h)) as [Hlt'|Hge].
      + right. eapply reach_step; [done| |done]. by rewrite <-Hold.
      + left. eapply Hnew; [|done..]. lia. }
  assert (S config2) as HS2 by (right; constructor).
  assert (S config1') as HS1 by (left; by apply Hc1).
  assert (¬ S a) as HSa.
  { intros [?|?]; [lia|]. by eapply Hsep. }
  destruct (wrap_legacy_callbacks_frame S h1 config2 items2 Hclosed1 HS2 Hitems2)
    as [Hframe2 Hclosed2].
  destruct (deep_update_frame S fuel _allow_unknown_subkeys
              _override_all_subkeys_if_type_changes _ config1' config2
              (default _allow_unknown_configs allow) Hclosed2 HS1 HS2)
    as [Hframe3 _].
  cbv zeta in Hframe3.
  destruct (deep_update _ _ _ _ _ _ _) as [h3 [[]| |]]; cbn [fst] in *;
    by rewrite (Hframe3 a HSa), (Hframe2 a HSa).
Qed.

(** C10 (amended).  In a store of well-formed objects, when the base
    config is a tree, [merge_trainer_configs] leaves every object of the
    caller as it was, however the call ends, but for the override dict
    when it has a dict under [callbacks]: so the objects of the tree of the
    base config are as they were, unless the override dict is one of them
    and has a dict under [callbacks].  And when no object of the tree of
    the override config is an object of the tree of the base config, the
    objects of the tree of the base config are as they were, whatever the
    base config holds. *)
Theorem merge_trainer_configs_frame fuel f (h : heap) config1 config2 allow :
  let h' := (merge_trainer_configs fuel h config1 config2 allow).1 in
  (well_formed h = true → is_tree f h config1 = true → is_Some (h !! config2) →
   (∀ a, a < length h → a ≠ config2 → h' !! a = h !! a) ∧
   (legacy_callbacks h config2 = false → h' !! config2 = h !! config2) ∧
   ((reach h config1 config2 → legacy_callbacks h config2 = false) →
    ∀ a o, reach h config1 a → h !! a = Some o → h' !! a = Some o)) ∧
  ((∀ a, reach h config1 a → reach h config2 a → False) →
   ∀ a o, reach h config1 a → h !! a = Some o → h' !! a = Some o).
Proof.
  intros h'. split.
  - intros Hwf Htree Hc2.
    destruct (merge_trainer_configs_writes fuel f h config1 config2 allow Hwf Htree Hc2)
      as [Hother Hoverride]. fold h' in Hother, Hoverride.
    assert (legacy_callbacks h config2 = false → h' !! config2 = h !! config2) as Hsame.
    { intros Hno. destruct Hoverride as [?|(? & ? & _ & _ & Hyes & _)]; [done|].
      congruence. }
    split_and!; [done..|].
    intros Hcb a o Hreach Ha.
    destruct (decide (a = config2)) as [->|Hne].
    + rewrite Hsame; [done|]. by apply Hcb.
    + rewrite Hother; [done| |done]. by eapply lookup_lt_Some.
  - intros Hsep a o Hreach Ha. by apply merge_trainer_configs_separate.
Qed.

End ConfigStoreFacts.

(** ** [_try_recover]: the protocol of the health check *)

Section RecoverProtocol.
Context {Env : Type} `{Cluster Env}.
Local Abbreviation State := (@Sys Env).

Lemma terminated_app tr1 tr2 :
  terminated (tr1 ++ tr2) = terminated tr1 ++ terminated tr2.
Proof. apply omap_app. Qed.

Lemma terminated_issue (l : list worker) :
  terminated ((λ w, EvRemote w sample_with_count) <$> l) = [].
Proof. by induction l. Qed.

Lemma unhealthy_app tr1 tr2 : unhealthy (tr1 ++ tr2) = unhealthy tr1 ++ unhealthy tr2.
Proof. unfold unhealthy. by rewrite probe_results_app, List.filter_app, fmap_app. Qed.

Lemma unhealthy_issue (l : list worker) :
  unhealthy ((λ w, EvRemote w sample_with_count) <$> l) = [].
Proof. unfold unhealthy. by rewrite probe_results_issue. Qed.

(** The second loop terminates a worker exactly when its check failed, and
    waits for one check at a time. *)
Lemma check_loop_protocol ws i (l : list worker) acc (s : State) :
  drop i (remote_workers ws) = l →
  let x := check_loop ws i ((λ w, (w, sample_with_count)) <$> l) acc s in
  terminated (trace x) = unhealthy (trace x) ∧
  Forall one_check_at_a_time (trace x).
Proof.
  revert i acc s. induction l as [|w l IH]; intros i acc s Hdrop x; subst x.
  { done. }
  assert (remote_workers ws !! i = Some w) as Hw.
  { rewrite <-(Nat.add_0_r i), <-lookup_drop, Hdrop. done. }
  assert (drop (S i) (remote_workers ws) = l) as Hdrop'.
  { by rewrite <-(Nat.add_1_r i), <-drop_drop, Hdrop. }
  cbn [check_loop fmap list_fmap]. rewrite Hw.
  rewrite trace_bind, run_check_one.
  destruct (ray_get [(w, sample_with_count)] (env s)) as [[v|n] e1];
    cbn [res trace final fst snd].
  - destruct (IH (S i) (acc ++ [w]) {| self := self s; env := e1 |} Hdrop')
      as [Hterm Hone].
    rewrite terminated_app, unhealthy_app, Hterm. split; [done|].
    apply Forall_app. split; [|done].
    repeat constructor; try (by intros [? [=]]); intros refs r [=]; eauto.
  - destruct (IH (S i) acc {| self := self s; env := e1 |} Hdrop')
      as [Hterm Hone].
    rewrite terminated_app, unhealthy_app, Hterm. split; [done|].
    apply Forall_app. split; [|done].
    repeat constructor; try (by intros [? [=]]); intros refs r [=]; eauto.
Qed.

(** Recovery asks for an execution plan and a pool before it does
    anything. *)
Lemma run_try_recover_no_plan (s : State) :
  has_execution_plan (self s) = false →
  _try_recover s = (Raise AssertionError, [], s).
Proof.
  intros Hplan. unfold _try_recover. rewrite run_bind. cbn [get_self].
  by rewrite run_bind, Hplan.
Qed.

Lemma run_try_recover_no_workers (s : State) :
  has_execution_plan (self s) = true → workers (self s) = None →
  _try_recover s = (Raise (AttributeError "workers"), [], s).
Proof.
  intros Hplan Hws. unfold _try_recover. rewrite run_bind. cbn [get_self].
  rewrite run_bind, Hplan. cbn [ret]. rewrite run_bind.
  unfold self_workers. rewrite run_bind. cbn [get_self]. by rewrite Hws.
Qed.

(** Recovery terminates the workers whose check failed, each once and in the
    order of the pool, and no other worker. *)
Theorem try_recover_terminates_unhealthy (s : State) :
  terminated (trace (_try_recover s)) = unhealthy (trace (_try_recover s)).
Proof.
  destruct (has_execution_plan (self s)) eqn:Hplan;
    [|by rewrite run_try_recover_no_plan].
  destruct (workers (self s)) as [ws|] eqn:Hws;
    [|by rewrite run_try_recover_no_workers].
  rewrite (run_try_recover s ws Hws Hplan). cbv zeta.
  destruct (check_loop_protocol ws 0 (remote_workers ws) [] s eq_refl) as [Hterm _].
  set (c := check_loop ws 0 _ [] s) in *.
  assert (∀ tr, terminated
            (EvLog INFO "Health checking all workers..." []
               :: ((λ w, EvRemote w sample_with_count) <$> remote_workers ws) ++ tr)
          = terminated tr) as Hpre_t.
  { intros tr. change (terminated (?e :: ?l)) with (terminated l).
    by rewrite terminated_app, terminated_issue. }
  assert (∀ tr, unhealthy
            (EvLog INFO "Health checking all workers..." []
               :: ((λ w, EvRemote w sample_with_count) <$> remote_workers ws) ++ tr)
          = unhealthy tr) as Hpre_u.
  { intros tr. change (unhealthy (?e :: ?l)) with (unhealthy l).
    by rewrite unhealthy_app, unhealthy_issue. }
  destruct (res c) as [hw|e]; [destruct (length hw <? 1)|];
    unfold trace at 1 3; cbn [fst snd app];
    rewrite Hpre_t, Hpre_u, ?terminated_app, ?unhealthy_app, Hterm; done.
Qed.

(** Recovery sends the checks of all the workers of the pool, in order,
    before it waits for any of them, and then waits for one check at a
    time. *)
Theorem try_recover_checks_sent_first (s : State) ws :
  workers (self s) = Some ws →
  has_execution_plan (self s) = true →
  ∃ rest,
    trace (_try_recover s) =
      EvLog INFO "Health checking all workers..." []
        :: ((λ w, EvRemote w sample_with_count) <$> remote_workers ws) ++ rest ∧
    Forall one_check_at_a_time rest ∧
    (probe_results rest).*1 = remote_workers ws.
Proof.
  intros Hws Hplan. rewrite (run_try_recover s ws Hws Hplan). cbv zeta.
  destruct (check_loop_protocol ws 0 (remote_workers ws) [] s eq_refl) as [_ Hone].
  destruct (check_loop_spec ws 0 (remote_workers ws) [] s eq_refl) as (_ & Hprobes & _).
  set (c := check_loop ws 0 _ [] s) in *.
  destruct (res c) as [hw|e]; [destruct (length hw <? 1)|]; unfold trace at 1; cbn [fst snd].
  - by exists (trace c).
  - exists (trace c ++ [EvLog WARNING "Recreating execution plan after failure" []]).
    split; [done|]. split.
    + apply Forall_app. split; [done|]. repeat constructor; [by intros [? [=]]|by intros ?? [=]].
    + rewrite probe_results_app. cbn. by rewrite app_nil_r.
  - by exists (trace c).
Qed.

(** The remote calls of the second loop go to workers of the pool. *)
Lemma check_loop_targets ws i (l : list worker) acc (s : State) :
  drop i (remote_workers ws) = l →
  Forall (λ ev, ∀ w m, ev = EvRemote w m → w ∈ remote_workers ws)
    (trace (check_loop ws i ((λ w, (w, sample_with_count)) <$> l) acc s)).
Proof.
  revert i acc s. induction l as [|w l IH]; intros i acc s Hdrop; [done|].
  assert (remote_workers ws !! i = Some w) as Hw.
  { rewrite <-(Nat.add_0_r i), <-lookup_drop, Hdrop. done. }
  assert (drop (S i) (remote_workers ws) = l) as Hdrop'.
  { by rewrite <-(Nat.add_1_r i), <-drop_drop, Hdrop. }
  cbn [check_loop fmap list_fmap]. rewrite Hw.
  rewrite trace_bind, run_check_one.
  destruct (ray_get [(w, sample_with_count)] (env s)) as [[v|n] e1];
    cbn [res trace final fst snd]; apply Forall_app; (split; [|by apply IH]).
  - by repeat constructor.
  - repeat constructor; try done. intros w' m [= <- _].
    by eapply list_elem_of_lookup_2.
Qed.

(** Recovery changes the remote workers of the training pool and the
    execution plan, and nothing else of the trainer: the config, the
    evaluation pool, the optimizer, the replay buffer and the local worker
    are as they were.  Every remote call that it makes, a check or a
    termination, goes to a remote worker of the training pool. *)
Theorem try_recover_leaves_the_rest (s : State) :
  let t := self s in
  let t' := self (final (_try_recover s)) in
  config t' = config t ∧
  evaluation_workers t' = evaluation_workers t ∧
  optimizer t' = optimizer t ∧
  local_replay_buffer t' = local_replay_buffer t ∧
  has_execution_plan t' = has_execution_plan t ∧
  local_worker <$> workers t' = local_worker <$> workers t ∧
  Forall (λ ev, ∀ w m, ev = EvRemote w m →
                ∃ ws, workers t = Some ws ∧ w ∈ remote_workers ws)
    (trace (_try_recover s)).
Proof.
  cbv zeta.
  destruct (has_execution_plan (self s)) eqn:Hplan;
    [|by rewrite run_try_recover_no_plan].
  destruct (workers (self s)) as [ws|] eqn:Hws;
    [|rewrite (run_try_recover_no_workers s Hplan Hws); unfold final, trace;
      cbn [fst snd]; rewrite ?Hws, ?Hplan; by split_and!].
  rewrite (run_try_recover s ws Hws Hplan). cbv zeta.
  destruct (check_loop_spec ws 0 (remote_workers ws) [] s eq_refl) as (_ & _ & Hself).
  pose proof (check_loop_targets ws 0 (remote_workers ws) [] s eq_refl) as Htargets.
  set (c := check_loop ws 0 _ [] s) in *.
  assert (Forall (λ ev, ∀ w m, ev = EvRemote w m →
                        ∃ ws0, Some ws = Some ws0 ∧ w ∈ remote_workers ws0)
            (EvLog INFO "Health checking all workers..." []
               :: ((λ w, EvRemote w sample_with_count) <$> remote_workers ws)
               ++ trace c)) as Hpre.
  { constructor; [done|]. apply Forall_app. split.
    - apply Forall_fmap, Forall_forall. intros w Hin w' m [= <- _]. by exists ws.
    - eapply Forall_impl; [exact Htargets|]. intros ev Hev w m Heq. exists ws.
      split; [done|]. by eapply Hev. }
  unfold final, trace in *.
  destruct (res c) as [hw|e]; [destruct (length hw <? 1)|];
    cbn [fst snd app]; rewrite ?Hself, ?Hplan, ?Hws;
    (split_and!; [done..|]); try done.
  rewrite app_assoc, app_comm_cons. apply Forall_app. split; [done|].
  by repeat constructor.
Qed.

End RecoverProtocol.

(** ** [train]: filters and the pool *)

Section TrainPool.
Context {Env : Type} `{Cluster Env}.
Local Abbreviation State := (@Sys Env).
Local Abbreviation emits := (emits (Env:=Env)).
Local Abbreviation keeps_self := (keeps_self (Env:=Env)).

Lemma train_loop_emits (P : event → Prop) n :
  (∀ r t, P (EvTrainableTrain r t)) → P EvSleep →
  (∀ refs r, P (EvRayGet refs r)) → (∀ l f a, P (EvLog l f a)) →
  (∀ w m, P (EvRemote w m)) →
  emits P (train_loop n).
Proof.
  intros ?????. induction n as [|n IH]; cbn [train_loop]; [solve_emits|].
  apply emits_bind; [|intros [?|]; solve_emits].
  apply emits_try_except; [solve_emits|]. intros e.
  destruct (is_RayError e); [|solve_emits].
  apply emits_bind; [solve_emits|]. intros t.
  destruct (ignore_worker_failures (config t)); [|solve_emits].
  apply emits_bind; [solve_emits|]. intros _.
  apply emits_bind; [by apply _try_recover_emits|solve_emits].
Qed.

Lemma run_after_loop result (s : State) :
  after_loop result s =
  if is_None result
  then (Raise (RuntimeError "Failed to recover from worker crash"), [], s)
  else
    match workers (self s) with
    | Some ws =>
        if negb (String.eqb
                   (default "NoFilter" (observation_filter (config (self s))))
                   "NoFilter")
        then
          let c := FilterManager_synchronize ws (synchronize_filters (config (self s))) in
          match lib_call c (env s) with
          | (Ok v, e1) =>
              (Ok result, [EvLib c (Ok v); EvLog DEBUG "synchronized filters: {}" []],
               {| self := self s; env := e1 |})
          | (Raise e, e1) =>
              (Raise e, [EvLib c (Raise e)], {| self := self s; env := e1 |})
          end
        else (Ok result, [], s)
    | None => (Ok result, [], s)
    end.
Proof.
  unfold after_loop. rewrite run_bind.
  destruct (is_None result); [done|]. cbn [ret].
  rewrite run_bind. cbn [get_self]. rewrite run_bind.
  destruct (workers (self s)) as [ws|]; [|done].
  unfold _sync_filters_if_needed. rewrite run_bind. cbn [get_self].
  destruct (negb _); [|done].
  rewrite run_bind. unfold call_lib.
  by destruct (lib_call _ (env s)) as [[v|e] e1].
Qed.

Lemma keeps_after_loop result : keeps_self (after_loop result).
Proof.
  intros s. rewrite run_after_loop.
  destruct (is_None result); [done|].
  destruct (workers (self s)); [|done].
  destruct (negb _); [|done]. cbv zeta.
  by destruct (lib_call _ (env s)) as [[v|e] e1].
Qed.

(** [train] synchronizes the observation filters at most once, after the
    step that gave its result, over the pool that the trainer has then, and
    only when the config asks for a filter; it does so whenever it
    returns on such a config with a pool. *)
Theorem train_syncs_filters_after_success (s : State) :
  let x := train s in
  let t' := self (final x) in
  let filtered :=
    negb (String.eqb (default "NoFilter" (observation_filter (config t'))) "NoFilter") in
  (∀ ws u r, EvLib (FilterManager_synchronize ws u) r ∈ trace x →
     filtered = true ∧ workers t' = Some ws ∧ u = synchronize_filters (config t') ∧
     ∃ v t, v ≠ PyNone ∧ EvTrainableTrain (Ok v) t ∈ trace x) ∧
  (∀ v ws, res x = Ok v → workers t' = Some ws → filtered = true →
     ∃ r, EvLib (FilterManager_synchronize ws (synchronize_filters (config t'))) (Ok r)
          ∈ trace x) ∧
  count is_filter_sync (trace x) ≤ 1.
Proof.
  intros x t' filtered. subst x t' filtered.
  unfold train. rewrite res_bind, trace_bind, final_bind.
  set (n := 1 + MAX_WORKER_FAILURE_RETRIES).
  pose proof (train_loop_emits (λ ev, ∀ c r, ev ≠ EvLib c r) n
                ltac:(done) ltac:(done) ltac:(done) ltac:(done) ltac:(done) s) as Hloop.
  rewrite Forall_forall in Hloop.
  pose proof (train_loop_result n s) as Hresult.
  assert (count is_filter_sync (trace (train_loop n s)) = 0) as Hcount.
  { apply count_none. apply Forall_forall. intros ev Hev.
    specialize (Hloop ev Hev). destruct ev as [| | | |c r| |]; try done.
    by destruct (Hloop c r). }
  destruct (res (train_loop n s)) as [result|e].
  2:{ split_and!.
      - intros ws u r Hin. rewrite app_nil_r in Hin. by destruct (Hloop _ Hin _ r eq_refl).
      - done.
      - rewrite app_nil_r, Hcount. lia. }
  set (s1 := final (train_loop n s)) in *.
  pose proof (keeps_after_loop result s1) as Hself.
  rewrite Hself. rewrite run_after_loop in *.
  destruct (is_None result) eqn:Hnone.
  { cbn [res trace final fst snd] in *. split_and!.
    - intros ws u r Hin. rewrite app_nil_r in Hin. by destruct (Hloop _ Hin _ r eq_refl).
    - done.
    - rewrite app_nil_r, Hcount. lia. }
  assert (∃ t, EvTrainableTrain (Ok result) t ∈ trace (train_loop n s)) as [t Ht].
  { destruct (Hresult result eq_refl) as [->|?]; done. }
  assert (result ≠ PyNone) as Hv by (by intros ->).
  destruct (workers (self s1)) as [ws|] eqn:Hws.
  2:{ cbn [res trace final fst snd] in *. split_and!.
      - intros ws u r Hin. rewrite app_nil_r in Hin. by destruct (Hloop _ Hin _ r eq_refl).
      - done.
      - rewrite app_nil_r, Hcount. lia. }
  destruct (negb _) eqn:Hfilter.
  2:{ cbn [res trace final fst snd] in *. split_and!.
      - intros ws' u r Hin. rewrite app_nil_r in Hin. by destruct (Hloop _ Hin _ r eq_refl).
      - done.
      - rewrite app_nil_r, Hcount. lia. }
  cbv zeta in *.
  destruct (lib_call _ (env s1)) as [[v|e] e1]; cbn [res trace final fst snd] in *.
  - split_and!.
    + intros ws' u r [Hin|Hin]%elem_of_app; [by destruct (Hloop _ Hin _ r eq_refl)|].
      apply elem_of_cons in Hin as [[= -> -> ->]|Hin].
      * split_and!; [done..|]. exists result, t. split; [done|]. set_solver.
      * apply list_elem_of_singleton in Hin. done.
    + intros v' ws' _ [= <-] _. exists v. set_solver.
    + rewrite count_app, Hcount. cbn. lia.
  - split_and!.
    + intros ws' u r [Hin|Hin]%elem_of_app; [by destruct (Hloop _ Hin _ r eq_refl)|].
      apply list_elem_of_singleton in Hin as [= -> -> ->].
      split_and!; [done..|]. exists result, t. split; [done|]. set_solver.
    + done.
    + rewrite count_app, Hcount. cbn. lia.
Qed.

(** *** The pool through recoveries *)

Lemma pool_within_refl ws : pool_within ws ws.
Proof. by destruct ws. Qed.

Lemma pool_within_trans ws1 ws2 ws3 :
  pool_within ws1 ws2 → pool_within ws2 ws3 → pool_within ws1 ws3.
Proof.
  destruct ws1 as [ws1|], ws2 as [ws2|], ws3 as [ws3|]; try done.
  intros (? & ? & ?) (? & ? & ?). split_and!; [congruence|by etrans|auto].
Qed.

Lemma filter_fst_sublist {A B} (f : A * B → bool) (l : list (A * B)) :
  (List.filter f l).*1 `sublist_of` l.*1.
Proof.
  induction l as [|x l IH]; [done|]. cbn.
  destruct (f x); cbn; by constructor.
Qed.

Lemma try_recover_pool (s : State) :
  pool_within (workers (self s)) (workers (self (final (_try_recover s)))).
Proof.
  destruct (has_execution_plan (self s)) eqn:Hplan;
    [|rewrite run_try_recover_no_plan by done; apply pool_within_refl].
  destruct (workers (self s)) as [ws|] eqn:Hws;
    [|rewrite run_try_recover_no_workers by done; cbn; by rewrite Hws].
  rewrite (run_try_recover s ws Hws Hplan). cbv zeta.
  destruct (check_loop_spec ws 0 (remote_workers ws) [] s eq_refl)
    as (Hres & Hprobes & Hself).
  set (c := check_loop ws 0 _ [] s) in *.
  rewrite Hres. cbn [app].
  destruct (length (healthy (trace c)) <? 1) eqn:Hlen;
    unfold final at 1; cbn [fst snd].
  - rewrite Hself, Hws. apply (pool_within_refl (Some ws)).
  - cbn. split_and!; [done| |].
    + rewrite <-Hprobes. apply filter_fst_sublist.
    + intros _ Hnil. rewrite Hnil in Hlen. done.
Qed.

Lemma train_loop_pool n (s : State) :
  (∀ t e, workers (Trainable_train t e).1.2 = workers t) →
  pool_within (workers (self s)) (workers (self (final (train_loop n s)))).
Proof.
  intros Hstep. revert s. induction n as [|n IH]; intros s.
  { apply pool_within_refl. }
  rewrite train_loop_step. specialize (Hstep (self s) (env s)).
  destruct (Trainable_train (self s) (env s)) as [[[v|e] t1] e1]; cbn in Hstep.
  { cbn. rewrite Hstep. apply pool_within_refl. }
  destruct (is_RayError e); [|cbn; rewrite Hstep; apply pool_within_refl].
  destruct (ignore_worker_failures (config t1));
    [|cbn; rewrite Hstep; apply pool_within_refl].
  pose proof (try_recover_pool {| self := t1; env := e1 |}) as Hrec.
  cbn [self] in Hrec. rewrite Hstep in Hrec.
  destruct (_try_recover _) as [[[[]|e2] tr2] s2]; unfold final at 1 in Hrec;
    unfold final at 1; cbn [fst snd] in *; [|done].
  eapply pool_within_trans; [done|]. apply IH.
Qed.

(** When the training step leaves the pool of the trainer as it is, a call
    of [train] only removes remote workers: the pool keeps its local
    worker, its remote workers are some of those it had, in their order,
    and one is left when there was one. *)
Theorem train_only_removes_workers (s : State) :
  (∀ t e, workers (Trainable_train t e).1.2 = workers t) →
  pool_within (workers (self s)) (workers (self (final (train s)))).
Proof.
  intros Hstep. unfold train. rewrite final_bind.
  pose proof (train_loop_pool (1 + MAX_WORKER_FAILURE_RETRIES) s Hstep) as Hloop.
  destruct (res (train_loop _ s)); [|done].
  by rewrite keeps_after_loop.
Qed.

End TrainPool.


(** ** [evaluate]: weights, local evaluation and errors *)

Section EvaluateProtocol.
Context {Env : Type} `{Cluster Env}.
Local Abbreviation State := (@Sys Env).
Local Abbreviation emits := (emits (Env:=Env)).
Local Abbreviation keeps_self := (keeps_self (Env:=Env)).

(** The run of the broadcast of the weights. *)
Lemma run_sync_weights (s : State) ws ew :
  workers (self s) = Some ws →
  _sync_weights_to_workers (Some ew) s =
  let announce := EvLog INFO "Synchronizing weights to workers." [] in
  match local_call (local_worker ws) save (env s) with
  | (Ok state, e1) =>
      let c := foreach_worker_restore ew (ray_put state) in
      match lib_call c e1 with
      | (Ok r, e2) =>
          (Ok tt, [announce; EvLocal (local_worker ws) save (Ok state); EvLib c (Ok r)],
           {| self := self s; env := e2 |})
      | (Raise e, e2) =>
          (Raise e, [announce; EvLocal (local_worker ws) save (Ok state); EvLib c (Raise e)],
           {| self := self s; env := e2 |})
      end
  | (Raise e, e1) =>
      (Raise e, [announce; EvLocal (local_worker ws) save (Raise e)],
       {| self := self s; env := e1 |})
  end.
Proof.
  intros Hws. unfold _sync_weights_to_workers.
  rewrite run_bind. cbn [logger emit].
  rewrite run_bind, (run_self_workers _ _ Hws).
  rewrite run_bind. unfold call_local.
  destruct (local_call _ save (env s)) as [[state|e] e1]; [|done].
  rewrite run_bind. unfold call_lib. cbn [env self].
  by destruct (lib_call _ e1) as [[r|e] e2].
Qed.

(** The run of the synchronization of an evaluation pool, when it returns. *)
Lemma sync_evaluation_workers_ok (s : State) ew :
  evaluation_workers (self s) = Some ew →
  res (sync_evaluation_workers s) = Ok tt →
  ∃ ws state r rest,
    workers (self s) = Some ws ∧
    trace (sync_evaluation_workers s) =
      EvLog INFO "Synchronizing weights to workers." []
        :: EvLocal (local_worker ws) save (Ok state)
        :: EvLib (foreach_worker_restore ew (ray_put state)) (Ok r) :: rest.
Proof.
  intros Hew. unfold sync_evaluation_workers. rewrite run_bind. cbn [get_self].
  rewrite Hew. rewrite run_bind.
  destruct (workers (self s)) as [ws|] eqn:Hws.
  2:{ unfold _sync_weights_to_workers. rewrite run_bind. cbn [logger emit].
      rewrite run_bind. unfold self_workers. rewrite run_bind. cbn [get_self].
      by rewrite Hws. }
  rewrite (run_sync_weights s ws ew Hws). cbv zeta.
  destruct (local_call _ save (env s)) as [[state|e] e1]; [|done].
  destruct (lib_call _ e1) as [[r|e] e2]; [|done].
  match goal with |- context [_sync_filters_if_needed ew ?s'] =>
    destruct (_sync_filters_if_needed ew s') as [[r3 tr3] s3] end.
  intros _. exists ws, state, r, tr3. done.
Qed.

(** With an evaluation pool, every step of an evaluation comes after the
    pool was brought to the weights of the training pool: the state that
    the local worker of the training pool saved is what the evaluation pool
    restored. *)
Theorem evaluate_syncs_weights_first (s : State) ew pre ev post :
  evaluation_workers (self s) = Some ew →
  trace (evaluate s) = pre ++ ev :: post →
  is_evaluation_step ev →
  ∃ ws state r pre',
    workers (self s) = Some ws ∧
    pre = EvLog INFO "Synchronizing weights to workers." []
            :: EvLocal (local_worker ws) save (Ok state)
            :: EvLib (foreach_worker_restore ew (ray_put state)) (Ok r) :: pre'.
Proof.
  intros Hew Htr Hev. rewrite run_evaluate in Htr. cbv zeta in Htr.
  pose proof (sync_evaluation_workers_emits (λ ev, ¬ is_evaluation_step ev)) as Hsync.
  specialize (Hsync ltac:(by intros ??? [[]|(?&?&?&?&[=])])
                    ltac:(by intros ??? [[]|(?&?&?&?&[=])])
                    ltac:(by intros ??? [[]|(?&?&?&?&[=])])
                    ltac:(by intros ?? [[]|(?&?&?&?&[=])]) s).
  pose proof (sync_evaluation_workers_ok s ew Hew) as Hok.
  destruct (res (sync_evaluation_workers s)) as [[]|e]; unfold trace at 1 in Htr;
    cbn [fst snd] in Htr.
  - destruct (Hok eq_refl) as (ws & state & r & rest & Hws & Hshape).
    destruct (app_split_l is_evaluation_step _ _ _ _ _ Htr Hsync Hev)
      as (pre' & -> & _).
    exists ws, state, r, (rest ++ pre'). split; [done|]. by rewrite Hshape.
  - rewrite <-(app_nil_r (trace _)) in Htr.
    destruct (app_split_l is_evaluation_step _ _ _ _ _ Htr Hsync Hev)
      as (pre' & _ & Hnil).
    by destruct pre'.
Qed.

(** *** Evaluation on an in-process worker *)

(** The handler of [except ValueError] raises, and what it raises is
    [reraised]. *)
Lemma handler_raises (e : exn) :
  match e return @M Env pyval with
  | ValueError args =>
      match args return @M Env pyval with
      | [] => raise IndexError
      | arg0 :: _ =>
          match contains arg0 no_env_marker return @M Env pyval with
          | Ok true => raise (ValueError [PyStr no_env_message])
          | Ok false => raise e
          | Raise e' => raise e'
          end
      end
  | _ => raise e
  end = raise (reraised e).
Proof.
  destruct e as [|[|arg0 args]| | | | | | | |]; try done. cbn.
  by destruct (contains arg0 no_env_marker) as [[]|].
Qed.

Lemma run_local_call w m (s : State) :
  (call_local w m;; ret tt) s =
  match local_call w m (env s) with
  | (Ok r, e1) => (Ok tt, [EvLocal w m (Ok r)], {| self := self s; env := e1 |})
  | (Raise e, e1) => (Raise e, [EvLocal w m (Raise e)], {| self := self s; env := e1 |})
  end.
Proof.
  rewrite run_bind. unfold call_local.
  by destruct (local_call w m (env s)) as [[r|e] e1].
Qed.

(** A loop that samples on the worker [w] once per element of [l], when it
    returns: every call returned. *)
Lemma run_local_samples {A} (l : list A) w (s : State) :
  res (for_each l (λ _, call_local w sample;; ret tt) s) = Ok tt →
  ∃ rs, length rs = length l ∧
        trace (for_each l (λ _, call_local w sample;; ret tt) s) =
          (λ r, EvLocal w sample (Ok r)) <$> rs.
Proof.
  revert s. induction l as [|x l IH]; intros s.
  { intros _. by exists []. }
  cbn [for_each]. rewrite res_bind, trace_bind, run_local_call.
  destruct (local_call w sample (env s)) as [[r|e] e1]; [|done].
  cbn [res trace final fst snd app]. intros Hres.
  destruct (IH _ Hres) as (rs & Hlen & ->).
  exists (r :: rs). split; [cbn; by rewrite Hlen|done].
Qed.

Lemma count_local_samples w (rs : list pyval) :
  count is_local_sample ((λ r, EvLocal w sample (Ok r)) <$> rs) = length rs ∧
  count is_remote_sample ((λ r, EvLocal w sample (Ok r)) <$> rs) = 0 ∧
  count is_round ((λ r, EvLocal w sample (Ok r)) <$> rs) = 0.
Proof.
  induction rs as [|r rs (IH1 & IH2 & IH3)]; [done|].
  cbn [fmap list_fmap]. rewrite !count_cons. cbn [fmap] in *.
  rewrite IH1, IH2, IH3. done.
Qed.

(** The run of the default procedure on an in-process worker, when it
    returns: the worker is the local worker of the evaluation pool, or of
    the training pool when there is no evaluation pool. *)
Lemma compute_metrics_local (s : State) m :
  custom_eval_function (config (self s)) = None →
  (evaluation_workers (self s) = None ∨
   evaluation_num_workers (config (self s)) = 0%Z) →
  res (compute_metrics s) = Ok m →
  ∃ lw remotes rs,
    match evaluation_workers (self s) with
    | Some ew => lw = local_worker ew ∧ remotes = remote_workers ew
    | None => ∃ ws, workers (self s) = Some ws ∧ lw = local_worker ws ∧ remotes = []
              ∧ m ≠ PyNone
    end ∧
    length rs = Z.to_nat (evaluation_num_episodes (config (self s))) ∧
    trace (compute_metrics s) =
      EvLog INFO "Evaluating current policy for {} episodes."
        [PyInt (evaluation_num_episodes (config (self s)))]
      :: ((λ r, EvLocal lw sample (Ok r)) <$> rs)
      ++ [EvLib (collect_metrics lw remotes) (Ok m)].
Proof.
  intros Hcustom Hlocal. unfold compute_metrics. rewrite run_bind. cbn [get_self].
  rewrite Hcustom. rewrite run_bind. cbn [logger emit]. rewrite run_bind.
  unfold default_evaluation.
  destruct (evaluation_workers (self s)) as [ew|] eqn:Hew.
  - destruct Hlocal as [[=]|HN]. rewrite HN. cbn [Z.eqb]. rewrite run_bind.
    pose proof (run_local_samples (range (evaluation_num_episodes (config (self s))))
                  (local_worker ew) s) as Hloop.
    destruct (for_each _ _ s) as [[[[]|e] trl] sl]; cbn [res trace final fst snd] in *;
      [|done].
    destruct (Hloop eq_refl) as (rs & Hlen & ->).
    cbn [ret is_None]. unfold call_lib.
    destruct (lib_call _ (env sl)) as [[r|e] e1]; cbn [res trace final fst snd app];
      [|done].
    intros [= ->]. exists (local_worker ew), (remote_workers ew), rs.
    split; [done|]. split; [by rewrite Hlen; unfold range; rewrite length_seq|].
    by rewrite app_nil_r.
  - unfold try_except. rewrite run_bind.
    destruct (workers (self s)) as [ws|] eqn:Hws.
    2:{ unfold self_workers. rewrite run_bind. cbn [get_self]. rewrite Hws. done. }
    rewrite (run_self_workers _ _ Hws). rewrite run_bind.
    pose proof (run_local_samples (range (evaluation_num_episodes (config (self s))))
                  (local_worker ws) s) as Hloop.
    destruct (for_each _ _ s) as [[[[]|e] trl] sl]; cbn [res trace final fst snd] in *.
    2:{ by rewrite handler_raises. }
    destruct (Hloop eq_refl) as (rs & Hlen & ->).
    unfold call_lib.
    destruct (lib_call _ (env sl)) as [[r|e] e1]; cbn [res trace final fst snd app].
    2:{ by rewrite handler_raises. }
    destruct (is_None r) eqn:Hnone; [done|].
    cbn. intros [= ->]. exists (local_worker ws), [], rs.
    split; [exists ws; split_and!; try done; by intros ->|].
    split; [by rewrite Hlen; unfold range; rewrite length_seq|].
    by rewrite app_nil_r.
Qed.

(** Without a custom evaluation function, when there is no evaluation pool
    or no evaluation worker is configured, an evaluation that returns
    sampled once per episode asked for, each time on one in-process worker:
    the local worker of the evaluation pool, or of the training pool when
    there is no evaluation pool.  It sent nothing to a remote worker and
    waited for no round, and its metrics are those collected from that
    worker. *)
Theorem evaluate_on_local_worker (s : State) v :
  custom_eval_function (config (self s)) = None →
  (evaluation_workers (self s) = None ∨
   evaluation_num_workers (config (self s)) = 0%Z) →
  res (evaluate s) = Ok v →
  let tr := trace (evaluate s) in
  count is_local_sample tr = Z.to_nat (evaluation_num_episodes (config (self s))) ∧
  count is_remote_sample tr = 0 ∧
  count is_round tr = 0 ∧
  ∃ lw remotes metrics,
    match evaluation_workers (self s) with
    | Some ew => lw = local_worker ew ∧ remotes = remote_workers ew
    | None => ∃ ws, workers (self s) = Some ws ∧ lw = local_worker ws ∧ remotes = []
    end ∧
    (∀ w r, EvLocal w sample r ∈ tr → w = lw) ∧
    EvLib (collect_metrics lw remotes) (Ok metrics) ∈ tr ∧
    v = PyDict [("evaluation", metrics)].
Proof.
  intros Hcustom Hlocal. rewrite run_evaluate. cbv zeta.
  pose proof (sync_evaluation_workers_emits
    (λ ev, is_local_sample ev = false ∧ is_remote_sample ev = false ∧
           is_round ev = false)
    ltac:(done) ltac:(done) ltac:(done) ltac:(done) s) as Hsync.
  pose proof (keeps_sync_evaluation_workers s) as Hself.
  destruct (res (sync_evaluation_workers s)) as [[]|e]; [|done].
  set (s0 := final (sync_evaluation_workers s)) in *.
  set (tr0 := trace (sync_evaluation_workers s)) in *.
  rewrite <-Hself in Hcustom, Hlocal |- *.
  destruct (res (compute_metrics s0)) as [m|e] eqn:Hm; [|done].
  destruct (compute_metrics_local s0 m Hcustom Hlocal Hm)
    as (lw & remotes & rs & Hpool & Hlen & Htr).
  cbn [res trace final fst snd]. intros [= <-]. rewrite Htr.
  assert (count is_local_sample tr0 = 0 ∧ count is_remote_sample tr0 = 0 ∧
          count is_round tr0 = 0) as (Hc1 & Hc2 & Hc3).
  { split_and!; apply count_none; eapply Forall_impl; try apply Hsync; cbn; tauto. }
  destruct (count_local_samples lw rs) as (Hl1 & Hl2 & Hl3).
  rewrite !count_app, !count_cons, !count_app, !count_cons, Hc1, Hc2, Hc3, Hl1, Hl2, Hl3.
  cbn [is_local_sample is_remote_sample is_round]. change (count _ []) with 0.
  split_and!; [lia..|].
  exists lw, remotes, m. split_and!.
  - destruct (evaluation_workers (self s0)); [done|].
    destruct Hpool as (ws & ? & ? & ? & _). by exists ws.
  - intros w r [Hin|Hin]%elem_of_app.
    + rewrite Forall_forall in Hsync. by destruct (Hsync _ Hin) as [[=] _].
    + apply elem_of_cons in Hin as [[=]|[Hin|Hin]%elem_of_app].
      * apply list_elem_of_fmap in Hin as (? & [= -> _] & _). done.
      * by apply list_elem_of_singleton in Hin.
  - apply elem_of_app. right. apply elem_of_cons. right.
    apply elem_of_app. right. by apply list_elem_of_singleton.
  - done.
Qed.

(** *** Errors of an evaluation on the local worker *)



End EvaluateProtocol.

(** ** [__getstate__] and [__setstate__]: a checkpoint round trip *)

Section CheckpointRoundTrip.
Context {Env : Type} `{Cluster Env}.
Local Abbreviation State := (@Sys Env).
Local Abbreviation emits := (emits (Env:=Env)).
Local Abbreviation keeps_self := (keeps_self (Env:=Env)).


Lemma run_call_local_ret {A} w m (f : pyval → A) (s : State) :
  (call_local w m ≫= λ v, ret (f v)) s =
  match local_call w m (env s) with
  | (Ok v, e1) => (Ok (f v), [EvLocal w m (Ok v)], {| self := self s; env := e1 |})
  | (Raise e, e1) => (Raise e, [EvLocal w m (Raise e)], {| self := self s; env := e1 |})
  end.
Proof.
  rewrite run_bind. unfold call_local.
  by destruct (local_call w m (env s)) as [[r|e] e1].
Qed.

Lemma run_call_lib_ret {A} c (f : pyval → A) (s : State) :
  (call_lib c ≫= λ v, ret (f v)) s =
  match lib_call c (env s) with
  | (Ok v, e1) => (Ok (f v), [EvLib c (Ok v)], {| self := self s; env := e1 |})
  | (Raise e, e1) => (Raise e, [EvLib c (Raise e)], {| self := self s; env := e1 |})
  end.
Proof.
  rewrite run_bind. unfold call_lib.
  by destruct (lib_call c (env s)) as [[r|e] e1].
Qed.

(** The bundle that [__getstate__] returns and the calls it made: [w], [o]
    and [b] are the states of the local worker, of the optimizer and of the
    replay buffer that it saved. *)
Lemma getstate_spec (s : State) state :
  res (__getstate__ s) = Ok state →
  let t := self s in
  ∃ w o b : option pyval,
    state !! "worker" = w ∧ state !! "optimizer" = o ∧
    state !! "local_replay_buffer" = b ∧
    (∀ k, is_Some (state !! k) →
          k = "worker" ∨ k = "optimizer" ∨ k = "local_replay_buffer") ∧
    (is_Some w ↔ is_Some (workers t)) ∧
    (is_Some o ↔ optimizer t = Some true) ∧
    (is_Some b ↔ is_Some (local_replay_buffer t) ∧ store_buffer_requested t = true) ∧
    trace (__getstate__ s) =
      match w, workers t with
      | Some v, Some ws => [EvLocal (local_worker ws) save (Ok v)]
      | _, _ => []
      end
      ++ match o with Some v => [EvLib optimizer_save (Ok v)] | None => [] end
      ++ match b with Some v => [EvLib replay_buffer_get_state (Ok v)] | None => [] end.
Proof.
  assert (∀ k (m : gmap string pyval) k' v,
            is_Some (<[k' := v]> m !! k) → k = k' ∨ is_Some (m !! k)) as Hins.
  { intros k m k' v. destruct (decide (k = k')) as [->|Hne]; [by left|].
    rewrite lookup_insert_ne by done. by right. }
  assert (∀ k, ¬ is_Some ((∅ : gmap string pyval) !! k)) as Hempty.
  { intros k. rewrite lookup_empty. by intros [? [=]]. }
  unfold __getstate__. rewrite run_bind. cbn [get_self]. rewrite run_bind.
  cbv zeta.
  (* the state of the local worker *)
  assert (∃ (w : option pyval) tr1 s1,
    let st1 : gmap string pyval :=
      match w with Some v => <["worker" := v]> ∅ | None => ∅ end in
    (match workers (self s) with
     | Some workers => call_local (local_worker workers) save ≫= λ v, ret (<["worker" := v]> (∅ : gmap string pyval))
     | None => ret (∅ : gmap string pyval)
     end s = (Ok st1, tr1, s1) ∧
     (is_Some w ↔ is_Some (workers (self s))) ∧
     tr1 = match w, workers (self s) with
           | Some v, Some ws => [EvLocal (local_worker ws) save (Ok v)]
           | _, _ => []
           end) ∨
    ∃ e, match workers (self s) with
     | Some workers => call_local (local_worker workers) save ≫= λ v, ret (<["worker" := v]> (∅ : gmap string pyval))
     | None => ret (∅ : gmap string pyval)
     end s = (Raise e, tr1, s1)) as (w & tr1 & s1 & Hstage1).
  { destruct (workers (self s)) as [ws|].
    - rewrite run_call_local_ret.
      destruct (local_call _ save (env s)) as [[v|e] e1].
      + exists (Some v). do 2 eexists. left. split_and!; [done| |done].
        split; by eexists.
      + exists None. do 2 eexists. right. by eexists.
    - exists None. do 2 eexists. left. split_and!; [done| |done].
      split; by intros [? [=]]. }
  destruct Hstage1 as [(-> & Hw & ->)|[e ->]]; [|done].
  set (st1 := match w with Some v => <["worker" := v]> ∅ | None => ∅ end).
  rewrite run_bind.
  (* the state of the optimizer *)
  assert (∃ (o : option pyval) tr2 s2,
    let st2 : gmap string pyval :=
      match o with Some v => <["optimizer" := v]> st1 | None => st1 end in
    (match optimizer (self s) with
     | Some true => call_lib optimizer_save ≫= λ v, ret (<["optimizer" := v]> st1)
     | _ => ret st1
     end s1 = (Ok st2, tr2, s2) ∧
     (is_Some o ↔ optimizer (self s) = Some true) ∧
     tr2 = match o with Some v => [EvLib optimizer_save (Ok v)] | None => [] end) ∨
    ∃ e, match optimizer (self s) with
     | Some true => call_lib optimizer_save ≫= λ v, ret (<["optimizer" := v]> st1)
     | _ => ret st1
     end s1 = (Raise e, tr2, s2)) as (o & tr2 & s2 & Hstage2).
  { destruct (optimizer (self s)) as [[]|].
    - rewrite run_call_lib_ret.
      destruct (lib_call _ (env s1)) as [[v|e] e1].
      + exists (Some v). do 2 eexists. left. split_and!; [done| |done].
        split; [done|by eexists].
      + exists None. do 2 eexists. right. by eexists.
    - exists None. do 2 eexists. left. split_and!; [done| |done].
      split; [by intros [? [=]]|done].
    - exists None. do 2 eexists. left. split_and!; [done| |done].
      split; [by intros [? [=]]|done]. }
  destruct Hstage2 as [(-> & Ho & ->)|[e ->]]; [|done].
  set (st2 := match o with Some v => <["optimizer" := v]> st1 | None => st1 end).
  rewrite run_bind.
  (* the state of the replay buffer *)
  assert (∃ (b : option pyval) tr3 s3,
    let st3 : gmap string pyval :=
      match b with Some v => <["local_replay_buffer" := v]> st2 | None => st2 end in
    (match local_replay_buffer (self s) with
     | Some _ =>
         if store_buffer_requested (self s)
         then call_lib replay_buffer_get_state
                ≫= λ v, ret (<["local_replay_buffer" := v]> st2)
         else ret st2
     | None => ret st2
     end s2 = (Ok st3, tr3, s3) ∧
     (is_Some b ↔ is_Some (local_replay_buffer (self s)) ∧
                   store_buffer_requested (self s) = true) ∧
     tr3 = match b with Some v => [EvLib replay_buffer_get_state (Ok v)] | None => [] end) ∨
    ∃ e, match local_replay_buffer (self s) with
     | Some _ =>
         if store_buffer_requested (self s)
         then call_lib replay_buffer_get_state
                ≫= λ v, ret (<["local_replay_buffer" := v]> st2)
         else ret st2
     | None => ret st2
     end s2 = (Raise e, tr3, s3)) as (b & tr3 & s3 & Hstage3).
  { destruct (local_replay_buffer (self s)) as [buf|];
      [destruct (store_buffer_requested (self s))|].
    - rewrite run_call_lib_ret.
      destruct (lib_call _ (env s2)) as [[v|e] e1].
      + exists (Some v). do 2 eexists. left. split_and!; [done| |done].
        split; [done|]. intros _. by eexists.
      + exists None. do 2 eexists. right. by eexists.
    - exists None. do 2 eexists. left. split_and!; [done| |done].
      split; [by intros [? [=]]|by intros [_ [=]]].
    - exists None. do 2 eexists. left. split_and!; [done| |done].
      split; [by intros [? [=]]|by intros [[? [=]] _]]. }
  destruct Hstage3 as [(-> & Hb & ->)|[e ->]]; [|done].
  cbn [ret res trace final fst snd]. intros [= <-].
  exists w, o, b. rewrite !app_nil_r.
  split_and!; [..|done|done|done|done].
  - destruct w, o, b; subst st2 st1; cbn;
      by rewrite ?lookup_insert_ne, ?lookup_insert_eq, ?lookup_empty by done.
  - destruct w, o, b; subst st2 st1; cbn;
      by rewrite ?lookup_insert_ne, ?lookup_insert_eq, ?lookup_empty by done.
  - destruct w, o, b; subst st2 st1; cbn;
      by rewrite ?lookup_insert_ne, ?lookup_insert_eq, ?lookup_empty by done.
  - intros k Hk. destruct w, o, b; subst st2 st1; cbn in Hk;
      repeat (apply Hins in Hk as [->|Hk]; [tauto|]); by destruct (Hempty k).
Qed.


(** *** Restoring what was saved *)

Lemma run_restore_worker_state_skip state (s : State) :
  state !! "worker" = None ∨ workers (self s) = None →
  restore_worker_state state s = (Ok tt, [], s).
Proof.
  intros Hskip. unfold restore_worker_state. rewrite run_bind. cbn [get_self].
  destruct Hskip as [->| ->]; [done|]. by destruct (state !! "worker").
Qed.

Lemma run_restore_optimizer_state state v (s : State) :
  state !! "optimizer" = Some v → is_Some (optimizer (self s)) →
  restore_optimizer_state state s =
  match lib_call (optimizer_restore v) (env s) with
  | (Ok r, e1) =>
      (Ok tt, [EvLib (optimizer_restore v) (Ok r)], {| self := self s; env := e1 |})
  | (Raise e, e1) =>
      (Raise e, [EvLib (optimizer_restore v) (Raise e)], {| self := self s; env := e1 |})
  end.
Proof.
  intros Hstate [opt Hopt]. unfold restore_optimizer_state.
  rewrite run_bind. cbn [get_self]. rewrite Hstate, Hopt.
  rewrite (run_call_lib_ret _ (λ _, tt)).
  by destruct (lib_call _ (env s)) as [[r|e] e1].
Qed.

Lemma run_restore_optimizer_state_skip state (s : State) :
  state !! "optimizer" = None ∨ optimizer (self s) = None →
  restore_optimizer_state state s = (Ok tt, [], s).
Proof.
  intros Hskip. unfold restore_optimizer_state. rewrite run_bind. cbn [get_self].
  destruct Hskip as [->| ->]; [done|]. by destruct (state !! "optimizer").
Qed.

Lemma run_restore_replay_buffer state v (s : State) :
  is_Some (local_replay_buffer (self s)) → store_buffer_requested (self s) = true →
  state !! "local_replay_buffer" = Some v →
  restore_replay_buffer state s =
  match lib_call (replay_buffer_set_state v) (env s) with
  | (Ok r, e1) =>
      (Ok tt, [EvLib (replay_buffer_set_state v) (Ok r)], {| self := self s; env := e1 |})
  | (Raise e, e1) =>
      (Raise e, [EvLib (replay_buffer_set_state v) (Raise e)],
       {| self := self s; env := e1 |})
  end.
Proof.
  intros [buf Hbuf] Hreq Hstate. unfold restore_replay_buffer.
  rewrite run_bind. cbn [get_self]. rewrite Hbuf, Hreq, Hstate.
  rewrite (run_call_lib_ret _ (λ _, tt)).
  by destruct (lib_call _ (env s)) as [[r|e] e1].
Qed.

Lemma run_restore_replay_buffer_skip state (s : State) :
  state !! "local_replay_buffer" = None →
  ¬ (is_Some (local_replay_buffer (self s)) ∧ store_buffer_requested (self s) = true) →
  restore_replay_buffer state s = (Ok tt, [], s).
Proof.
  intros Hstate Hskip. unfold restore_replay_buffer.
  rewrite run_bind. cbn [get_self]. rewrite Hstate.
  destruct (local_replay_buffer (self s)) as [buf|]; [|done].
  destruct (store_buffer_requested (self s)); [|done].
  destruct Hskip. by split; [eexists|].
Qed.

(** A bundle that [__getstate__] returned, restored on a trainer with the
    same attributes and config: no warning is logged; and when the restore
    returns, every entry of the bundle was restored: the state of the local
    worker on the local worker and, by reference, on every remote worker of
    the pool, the state of the optimizer on the optimizer, the content of
    the replay buffer on the replay buffer. *)
Theorem checkpoint_round_trip (s s' : State) state :
  res (__getstate__ s) = Ok state →
  self s' = self s →
  let x := __setstate__ state s' in
  Forall (λ ev, (∀ fmt args, ev ≠ EvLog WARNING fmt args) ∧
                (∀ key r, ev ≠ EvLib (log_once key) r)) (trace x) ∧
  (res x = Ok tt →
   (∀ v, state !! "worker" = Some v →
      ∃ ws r, workers (self s) = Some ws ∧
        EvLocal (local_worker ws) (restore (ByValue v)) (Ok r) ∈ trace x ∧
        ∀ w, w ∈ remote_workers ws →
             EvRemote w (restore (ByRef (ray_put v))) ∈ trace x) ∧
   (∀ v, state !! "optimizer" = Some v →
      ∃ r, EvLib (optimizer_restore v) (Ok r) ∈ trace x) ∧
   (∀ v, state !! "local_replay_buffer" = Some v →
      ∃ r, EvLib (replay_buffer_set_state v) (Ok r) ∈ trace x)).
Proof.
  intros Hres Hself x.
  destruct (getstate_spec s state Hres)
    as (w & o & b & Hw & Ho & Hb & _ & Hiw & Hio & Hib & _).
  cbv zeta in *. rewrite <-Hself in Hiw, Hio, Hib |- *.
  subst x. unfold __setstate__. rewrite !res_bind, !trace_bind.
  (* the workers *)
  assert (∃ tr1,
    trace (restore_worker_state state s') = tr1 ∧
    Forall (λ ev, (∀ fmt args, ev ≠ EvLog WARNING fmt args) ∧
                  (∀ key r, ev ≠ EvLib (log_once key) r)) tr1 ∧
    self (final (restore_worker_state state s')) = self s' ∧
    (res (restore_worker_state state s') = Ok tt →
     ∀ v, state !! "worker" = Some v →
       ∃ ws r, workers (self s') = Some ws ∧
         EvLocal (local_worker ws) (restore (ByValue v)) (Ok r) ∈ tr1 ∧
         ∀ w, w ∈ remote_workers ws →
              EvRemote w (restore (ByRef (ray_put v))) ∈ tr1))
    as (tr1 & -> & Hno1 & Hself1 & Hdone1).
  { eexists. split; [done|]. split_and!.
    - by apply restore_worker_state_emits.
    - apply keeps_restore_worker_state.
    - intros Hret v Hv. rewrite Hv in Hw. subst w.
      destruct (proj1 Hiw ltac:(by eexists)) as [ws Hws]. revert Hret.
      rewrite (run_restore_worker_state state v ws s' Hv Hws).
      destruct (local_call _ _ (env s')) as [[r|e] e1]; [|done]. intros _.
      exists ws, r. split; [done|]. unfold trace; cbn [fst snd]. split.
      + apply elem_of_cons. by left.
      + intros w' Hw'. apply elem_of_cons. right.
        by apply (list_elem_of_fmap_2 (λ r, EvRemote r _)). }
  destruct (res (restore_worker_state state s')) as [[]|e1].
  2:{ rewrite app_nil_r. split; [done|]. done. }
  set (s1 := final (restore_worker_state state s')) in *.
  (* the optimizer *)
  assert (∃ tr2,
    trace (restore_optimizer_state state s1) = tr2 ∧
    Forall (λ ev, (∀ fmt args, ev ≠ EvLog WARNING fmt args) ∧
                  (∀ key r, ev ≠ EvLib (log_once key) r)) tr2 ∧
    self (final (restore_optimizer_state state s1)) = self s' ∧
    (res (restore_optimizer_state state s1) = Ok tt →
     ∀ v, state !! "optimizer" = Some v →
       ∃ r, EvLib (optimizer_restore v) (Ok r) ∈ tr2))
    as (tr2 & -> & Hno2 & Hself2 & Hdone2).
  { eexists. split; [done|]. split_and!.
    - by apply restore_optimizer_state_emits.
    - by rewrite keeps_restore_optimizer_state.
    - intros Hret v Hv. rewrite Hv in Ho. subst o.
      pose proof (proj1 Hio ltac:(by eexists)) as Hopt. rewrite <-Hself1 in Hopt.
      revert Hret. rewrite (run_restore_optimizer_state state v s1 Hv ltac:(by eexists)).
      destruct (lib_call _ (env s1)) as [[r|e] e1]; [|done]. intros _.
      exists r. by apply list_elem_of_singleton. }
  destruct (res (restore_optimizer_state state s1)) as [[]|e2].
  2:{ rewrite app_nil_r. split; [by apply Forall_app|]. done. }
  set (s2 := final (restore_optimizer_state state s1)) in *.
  (* the replay buffer *)
  assert (∃ tr3,
    trace (restore_replay_buffer state s2) = tr3 ∧
    Forall (λ ev, (∀ fmt args, ev ≠ EvLog WARNING fmt args) ∧
                  (∀ key r, ev ≠ EvLib (log_once key) r)) tr3 ∧
    (res (restore_replay_buffer state s2) = Ok tt →
     ∀ v, state !! "local_replay_buffer" = Some v →
       ∃ r, EvLib (replay_buffer_set_state v) (Ok r) ∈ tr3))
    as (tr3 & -> & Hno3 & Hdone3).
  { eexists. split; [done|]. rewrite <-Hself2 in Hib.
    destruct b as [v|].
    - destruct (proj1 Hib ltac:(by eexists)) as [Hbuf Hreq].
      rewrite (run_restore_replay_buffer state v s2 Hbuf Hreq Hb).
      destruct (lib_call _ (env s2)) as [[r|e] e3]; unfold res, trace; cbn [fst snd].
      + split; [apply Forall_singleton; by split|]. intros _ v' Hv'.
        assert (v' = v) as -> by congruence.
        exists r. by apply list_elem_of_singleton.
      + split; [apply Forall_singleton; by split|]. done.
    - rewrite (run_restore_replay_buffer_skip state s2 Hb).
      + split; [done|]. intros _ v Hv. congruence.
      + intros Hyes. apply Hib in Hyes as [? [=]]. }
  split; [by rewrite !Forall_app|].
  intros Hret. specialize (Hdone1 eq_refl). specialize (Hdone2 eq_refl).
  specialize (Hdone3 Hret). split_and!.
  - intros v Hv. destruct (Hdone1 v Hv) as (ws & r & Hws & Hlocal & Hremote).
    exists ws, r. split; [done|]. split.
    + apply elem_of_app. by left.
    + intros w' Hw'. apply elem_of_app. left. by apply Hremote.
  - intros v Hv. destruct (Hdone2 v Hv) as [r Hr]. exists r.
    apply elem_of_app. right. apply elem_of_app. by left.
  - intros v Hv. destruct (Hdone3 v Hv) as [r Hr]. exists r.
    apply elem_of_app. right. apply elem_of_app. by right.
Qed.

End CheckpointRoundTrip.

(** ** [_validate_config] *)

Module ValidationFacts.
Import Validation.

(** *** Runs of composed computations *)

Lemma validation_bind {A B} (m : V A) (k : A → V B) c :
  (m ≫= k) c =
  match m c with
  | (Returns a, ws, c1) => let '(r, ws', c2) := k a c1 in (r, ws ++ ws', c2)
  | (Raises e, ws, c1) => (Raises e, ws, c1)
  end.
Proof. reflexivity. Qed.

(** A composed computation that returned: its first part returned, and the
    rest ran on the config that the first part left. *)
Lemma returns_bind {A B} (m : V A) (k : A → V B) c b :
  answer_of ((m ≫= k) c) = Returns b →
  ∃ a, answer_of (m c) = Returns a ∧
       answer_of (k a (config_of (m c))) = Returns b ∧
       config_of ((m ≫= k) c) = config_of (k a (config_of (m c))) ∧
       warnings_of ((m ≫= k) c) =
         warnings_of (m c) ++ warnings_of (k a (config_of (m c))).
Proof.
  rewrite validation_bind. destruct (m c) as [[[a|e] ws] c1]; [|done].
  destruct (k a c1) as [[r ws'] c2] eqn:Hk. cbn. intros ->.
  exists a. by rewrite Hk.
Qed.

(** The config that a composed computation leaves. *)
Lemma config_of_bind {A B} (m : V A) (k : A → V B) c :
  config_of ((m ≫= k) c) =
  match answer_of (m c) with
  | Returns a => config_of (k a (config_of (m c)))
  | Raises _ => config_of (m c)
  end.
Proof.
  rewrite validation_bind. destruct (m c) as [[[a|e] ws] c1]; [|done].
  cbn. by destruct (k a c1) as [[r ws'] c2].
Qed.

(** *** What a statement leaves as it is *)

Lemma kept_bind {A B C} (f : Config → C) (m : V A) (k : A → V B) :
  keeps f m → (∀ a, keeps f (k a)) → keeps f (m ≫= k).
Proof.
  intros Hm Hk c. rewrite config_of_bind. specialize (Hm c).
  destruct (answer_of (m c)); [|done]. by rewrite Hk.
Qed.

Lemma kept_ret {A C} (f : Config → C) (a : A) : keeps f (ret a).
Proof. done. Qed.

Lemma kept_mret {A C} (f : Config → C) (a : A) : keeps f (mret a : V A).
Proof. done. Qed.

Lemma kept_raise {A C} (f : Config → C) e : keeps f (raise e : V A).
Proof. done. Qed.

Lemma kept_warn {C} (f : Config → C) w : keeps f (warn w).
Proof. done. Qed.

Lemma kept_reads {A C} (f : Config → C) (g : Config → A) : keeps f (reads g).
Proof. done. Qed.

Lemma kept_update {C} (f : Config → C) (g : Config → Config) :
  (∀ c, f (g c) = f c) → keeps f (update g).
Proof. intros Hg c. apply Hg. Qed.

Ltac solve_kept :=
  repeat first
    [ match goal with |- keeps _ (match ?x with _ => _ end) => destruct x end
    | match goal with |- ∀ _, _ => intro end
    | apply kept_bind | apply kept_ret | apply kept_mret | apply kept_raise
    | apply kept_warn | apply kept_reads | apply kept_update
    | match goal with H : ∀ v c, _ = _ |- _ = _ => apply H end
    | done ].

Section Kept.
Context {C : Type} (f : Config → C).

Lemma default_model_kept :
  (∀ v c, f (set_model v c) = f c) → keeps f default_model.
Proof. intros ?. unfold default_model. solve_kept. Qed.

Lemma replace_monitor_kept :
  (∀ v c, f (set_record_env v c) = f c) → keeps f replace_monitor.
Proof. intros ?. unfold replace_monitor. solve_kept. Qed.

Lemma default_record_env_kept :
  (∀ v c, f (set_record_env v c) = f c) → keeps f default_record_env.
Proof. intros ?. unfold default_record_env. solve_kept. Qed.

Lemma default_callbacks_kept :
  (∀ v c, f (set_callbacks v c) = f c) → keeps f default_callbacks.
Proof. intros ?. unfold default_callbacks. solve_kept. Qed.

Lemma read_simple_optimizer_kept : keeps f read_simple_optimizer.
Proof. unfold read_simple_optimizer. solve_kept. Qed.

Lemma check_policies_kept :
  (∀ v c, f (set_policies v c) = f c) → keeps f check_policies.
Proof. intros ?. unfold check_policies. solve_kept. Qed.

Lemma resolve_simple_optimizer_kept s b t :
  (∀ v c, f (set_simple_optimizer v c) = f c) →
  keeps f (resolve_simple_optimizer s b t).
Proof. intros ?. unfold resolve_simple_optimizer. solve_kept. Qed.

Lemma check_input_evaluation_kept :
  (∀ v c, f (set_input_evaluation v c) = f c) → keeps f check_input_evaluation.
Proof. intros ?. unfold check_input_evaluation. solve_kept. Qed.

Lemma replace_lstm_use_prev_action_reward_kept :
  (∀ v c, f (set_model v c) = f c) → keeps f replace_lstm_use_prev_action_reward.
Proof. intros ?. unfold replace_lstm_use_prev_action_reward. solve_kept. Qed.

Lemma check_batch_mode_kept : keeps f check_batch_mode.
Proof. unfold check_batch_mode. solve_kept. Qed.

Lemma check_count_steps_by_kept : keeps f check_count_steps_by.
Proof. unfold check_count_steps_by. solve_kept. Qed.

Lemma check_evaluation_kept :
  (∀ v c, f (set_evaluation_interval v c) = f c) →
  (∀ v c, f (set_evaluation_parallel_to_training v c) = f c) →
  keeps f check_evaluation.
Proof. intros ??. unfold check_evaluation. solve_kept. Qed.

End Kept.

(** *** The run of a validation that returns *)

(** The configs between the statements of a validation. *)
Lemma validate_returns t c :
  answer_of (_validate_config t c) = Returns tt →
  ∃ c1 c2 c3 c4 c5 c6 c7 c8 c9 c10 c11 s b,
    c1 = config_of (default_model c) ∧
    c2 = config_of (replace_monitor c1) ∧
    c3 = config_of (default_record_env c2) ∧
    c4 = config_of (default_callbacks c3) ∧
    answer_of (read_simple_optimizer c4) = Returns s ∧
    c5 = config_of (read_simple_optimizer c4) ∧
    answer_of (check_policies c5) = Returns b ∧
    c6 = config_of (check_policies c5) ∧
    answer_of (resolve_simple_optimizer s b t c6) = Returns tt ∧
    c7 = config_of (resolve_simple_optimizer s b t c6) ∧
    answer_of (check_input_evaluation c7) = Returns tt ∧
    c8 = config_of (check_input_evaluation c7) ∧
    answer_of (replace_lstm_use_prev_action_reward c8) = Returns tt ∧
    c9 = config_of (replace_lstm_use_prev_action_reward c8) ∧
    answer_of (check_batch_mode c9) = Returns tt ∧
    c10 = config_of (check_batch_mode c9) ∧
    answer_of (check_count_steps_by c10) = Returns tt ∧
    c11 = config_of (check_count_steps_by c10) ∧
    answer_of (check_evaluation c11) = Returns tt ∧
    config_of (_validate_config t c) = config_of (check_evaluation c11) ∧
    warnings_of (_validate_config t c) =
      warnings_of (default_model c) ++ warnings_of (replace_monitor c1)
      ++ warnings_of (default_record_env c2) ++ warnings_of (default_callbacks c3)
      ++ warnings_of (read_simple_optimizer c4) ++ warnings_of (check_policies c5)
      ++ warnings_of (resolve_simple_optimizer s b t c6)
      ++ warnings_of (check_input_evaluation c7)
      ++ warnings_of (replace_lstm_use_prev_action_reward c8)
      ++ warnings_of (check_batch_mode c9) ++ warnings_of (check_count_steps_by c10)
      ++ warnings_of (check_evaluation c11).
Proof.
  unfold _validate_config. intros Hret.
  apply returns_bind in Hret as ([] & _ & Hret & -> & ->).
  apply returns_bind in Hret as ([] & _ & Hret & -> & ->).
  apply returns_bind in Hret as ([] & _ & Hret & -> & ->).
  apply returns_bind in Hret as ([] & _ & Hret & -> & ->).
  apply returns_bind in Hret as (s & Hs & Hret & -> & ->).
  apply returns_bind in Hret as (b & Hb & Hret & -> & ->).
  apply returns_bind in Hret as ([] & H7 & Hret & -> & ->).
  apply returns_bind in Hret as ([] & H8 & Hret & -> & ->).
  apply returns_bind in Hret as ([] & H9 & Hret & -> & ->).
  apply returns_bind in Hret as ([] & H10 & Hret & -> & ->).
  apply returns_bind in Hret as ([] & H11 & Hret & -> & ->).
  do 11 eexists. exists s, b. split_and!; done.
Qed.

(** An observation that the statements before a given one keep has, at
    that statement, the value it had at the start. *)
Ltac carry f :=
  repeat first
    [ rewrite (check_evaluation_kept f) by done
    | rewrite (check_count_steps_by_kept f)
    | rewrite (check_batch_mode_kept f)
    | rewrite (replace_lstm_use_prev_action_reward_kept f) by done
    | rewrite (check_input_evaluation_kept f) by done
    | rewrite (resolve_simple_optimizer_kept f) by done
    | rewrite (check_policies_kept f) by done
    | rewrite (read_simple_optimizer_kept f)
    | rewrite (default_callbacks_kept f) by done
    | rewrite (default_record_env_kept f) by done
    | rewrite (replace_monitor_kept f) by done
    | rewrite (default_model_kept f) by done ].

(** *** The evaluation settings *)

Lemma run_check_evaluation c :
  check_evaluation c =
  let n := evaluation_num_workers c in
  if (0 <? n)%Z && negb (truthy (evaluation_interval c)) then
    (Returns tt, [logger_warning no_evaluation_interval_warning [PyInt n]],
     set_evaluation_interval (PyInt 1) c)
  else if (n =? 0)%Z
          && truthy (default (PyBool false) (evaluation_parallel_to_training c)) then
    (Returns tt, [logger_warning no_parallel_evaluation_warning []],
     set_evaluation_parallel_to_training (Some (PyBool false)) c)
  else (Returns tt, [], c).
Proof.
  unfold check_evaluation. cbv [mbind V_bind bind reads]. cbv zeta.
  destruct (_ && negb _); [reflexivity|]. destruct (_ && truthy _); reflexivity.
Qed.

(** A config that the validation accepts has an evaluation interval when it
    asks for evaluation workers, and no evaluation parallel to training
    when it asks for none.  The interval is the one given, or 1 when none
    was given with evaluation workers; a change of either setting is
    logged as a warning; the number of evaluation workers is as given. *)
Theorem validated_evaluation_settings t c :
  let x := _validate_config t c in
  answer_of x = Returns tt →
  let c' := config_of x in
  let n := evaluation_num_workers c in
  evaluation_num_workers c' = n ∧
  ((0 < n)%Z → truthy (evaluation_interval c') = true) ∧
  (n = 0%Z →
   truthy (default (PyBool false) (evaluation_parallel_to_training c')) = false) ∧
  evaluation_interval c' =
    (if (0 <? n)%Z && negb (truthy (evaluation_interval c))
     then PyInt 1 else evaluation_interval c) ∧
  (evaluation_interval c' ≠ evaluation_interval c →
   logger_warning no_evaluation_interval_warning [PyInt n] ∈ warnings_of x) ∧
  (evaluation_parallel_to_training c' ≠ evaluation_parallel_to_training c →
   logger_warning no_parallel_evaluation_warning [] ∈ warnings_of x).
Proof.
  intros x Hret c' n. subst x c' n.
  destruct (validate_returns t c Hret)
    as (c1 & c2 & c3 & c4 & c5 & c6 & c7 & c8 & c9 & c10 & c11 & s & b &
        -> & -> & -> & -> & _ & -> & _ & -> & _ & -> & _ & -> & _ & -> & _ & -> &
        _ & Hc11 & _ & -> & ->).
  assert (evaluation_num_workers c11 = evaluation_num_workers c) as Hn.
  { rewrite Hc11. by carry evaluation_num_workers. }
  assert (evaluation_interval c11 = evaluation_interval c) as Hi.
  { rewrite Hc11. by carry evaluation_interval. }
  assert (evaluation_parallel_to_training c11 = evaluation_parallel_to_training c) as Hp.
  { rewrite Hc11. by carry evaluation_parallel_to_training. }
  rewrite run_check_evaluation. cbv zeta. rewrite Hn, Hi, Hp.
  destruct (0 <? evaluation_num_workers c)%Z eqn:Hpos;
    [apply Z.ltb_lt in Hpos|apply Z.ltb_ge in Hpos];
    destruct (truthy (evaluation_interval c)) eqn:Htruthy; cbn [andb negb];
    try destruct (_ && _) eqn:Hpar;
    unfold config_of, warnings_of; cbn [fst snd];
    cbn [evaluation_num_workers evaluation_interval evaluation_parallel_to_training
         set_evaluation_interval set_evaluation_parallel_to_training];
    rewrite ?Hn, ?Hi, ?Hp;
    try (apply andb_true_iff in Hpar as [Hzero%Z.eqb_eq Hpar]);
    (split_and!;
     first [ done
           | by intros; lia
           | by intros _; repeat (apply elem_of_app; right);
                apply list_elem_of_singleton
           | by intros Hzero; rewrite Hzero in Hpar ]).
Qed.

(** *** The policies *)

Lemma check_policy_spec pid spec :
  isinstance_str pid = true →
  check_policy pid (Spec spec) =
  if is_None_obj (config spec)
  then (Spec (_replace_config spec (Val (PyDict []))), None)
  else if negb (isinstance_dict_obj (config spec))
       then (Spec spec, Some (policy_config_not_dict pid (config spec)))
       else (Spec spec, None).
Proof. intros Hpid. unfold check_policy. by rewrite Hpid. Qed.

Lemma check_policy_spec_ok pid spec entry' :
  isinstance_str pid = true →
  check_policy pid (Spec spec) = (entry', None) →
  normalized (pid, entry') ∧ check_policy pid entry' = (entry', None).
Proof.
  intros Hpid. rewrite (check_policy_spec pid spec Hpid).
  destruct (is_None_obj (config spec)) eqn:Hnone.
  - intros [= <-]. split; [split; [done|by eexists]|].
    by rewrite (check_policy_spec _ _ Hpid).
  - destruct (isinstance_dict_obj (config spec)) eqn:Hdict; cbn [negb]; [|done].
    intros [= <-]. split; [split; [done|by eexists]|].
    by rewrite (check_policy_spec _ _ Hpid), Hnone, Hdict.
Qed.

Lemma check_policy_ok pid entry entry' :
  check_policy pid entry = (entry', None) →
  normalized (pid, entry') ∧ check_policy pid entry' = (entry', None).
Proof.
  destruct (isinstance_str pid) eqn:Hpid.
  2:{ unfold check_policy. by rewrite Hpid. }
  destruct entry as [spec|elements|o].
  - by apply check_policy_spec_ok.
  - destruct elements as [|a [|b [|c [|d [|]]]]];
      try (unfold check_policy; by rewrite Hpid).
    intros Hseq. apply (check_policy_spec_ok pid
      {| policy_class := a; observation_space := b; action_space := c; config := d |});
      [done|].
    rewrite <-Hseq. unfold check_policy. by rewrite Hpid.
  - unfold check_policy. by rewrite Hpid.
Qed.

Lemma check_policy_loop_ok items checked :
  check_policy_loop items = (checked, None) →
  checked.*1 = items.*1 ∧ Forall normalized checked ∧
  check_policy_loop checked = (checked, None).
Proof.
  revert checked. induction items as [|[pid entry] items IH]; intros checked.
  { intros [= <-]. done. }
  cbn [check_policy_loop].
  destruct (check_policy pid entry) as [entry' [e|]] eqn:Hentry; [done|].
  destruct (check_policy_loop items) as [checked' r] eqn:Hloop.
  intros [= <- ->]. destruct (IH _ eq_refl) as (Hkeys & Hnorm & Hagain).
  destruct (check_policy_ok _ _ _ Hentry) as [Hn Hentry'].
  split_and!.
  - cbn. by rewrite Hkeys.
  - by constructor.
  - cbn [check_policy_loop]. by rewrite Hentry', Hagain.
Qed.

Lemma has_policy_keys pid items items' :
  items'.*1 = items.*1 → has_policy pid items' = has_policy pid items.
Proof.
  unfold has_policy. revert items'.
  induction items as [|item items IH]; intros [|item' items']; try done.
  cbn. intros [= -> Hkeys]. by rewrite (IH _ Hkeys).
Qed.

(** The loop over the policies, when it returns. *)
Lemma check_policies_returns c b :
  answer_of (check_policies c) = Returns b →
  ∃ items,
    policies (multiagent (config_of (check_policies c))) = Some (PolicyDict items) ∧
    items.*1 = policy_ids (policies (multiagent c)) ∧
    Forall normalized items ∧
    check_policy_loop items = (items, None) ∧
    b = (1 <? length items) || negb (has_policy DEFAULT_POLICY_ID items).
Proof.
  unfold check_policies. rewrite validation_bind. cbn [reads].
  set (given := policies (multiagent c)).
  set (ps := match given with
             | Some given' =>
                 if no_policies (Some given')
                 then PolicySet [PyStr DEFAULT_POLICY_ID] else given'
             | None => PolicySet [PyStr DEFAULT_POLICY_ID]
             end).
  assert (∃ items c0,
    match ps with
    | PolicySet pids =>
        update (set_policies
                  (Some (PolicyDict ((λ pid, (pid, Spec PolicySpec_default)) <$> pids))))
        ≫= λ _, ret ((λ pid, (pid, Spec PolicySpec_default)) <$> pids)
    | PolicyDict items => ret items
    end c = (Returns items, [], c0) ∧
    items.*1 = policy_ids given) as (items & c0 & Hps & Hkeys).
  { subst ps. destruct given as [[[|pid pids]|[|item items]]|]; cbn.
    - by do 2 eexists.
    - do 2 eexists. split; [done|]. cbn. f_equal.
      rewrite <-list_fmap_compose. by rewrite list_fmap_id.
    - by do 2 eexists.
    - by do 2 eexists.
    - by do 2 eexists. }
  rewrite validation_bind, Hps.
  destruct (check_policy_loop items) as [checked [e|]] eqn:Hloop; [done|].
  cbn. intros [= <-].
  destruct (check_policy_loop_ok _ _ Hloop) as (Hkeys' & Hnorm & Hagain).
  exists checked. split_and!; try done.
  - by rewrite Hkeys'.
  - rewrite (has_policy_keys _ _ _ Hkeys'), <-(length_fmap fst checked), Hkeys'.
    by rewrite length_fmap.
Qed.

(** A config that the validation accepts names its policies in a dict: one
    item for each policy id that was given, in their order, or one item for
    the default policy id when none was given; every key is a string and
    every value a [PolicySpec] whose config is a dict. *)
Theorem validated_policies t c :
  answer_of (_validate_config t c) = Returns tt →
  ∃ items,
    policies (multiagent (config_of (_validate_config t c))) = Some (PolicyDict items) ∧
    items.*1 = policy_ids (policies (multiagent c)) ∧
    items ≠ [] ∧
    Forall normalized items.
Proof.
  intros Hret.
  destruct (validate_returns t c Hret)
    as (c1 & c2 & c3 & c4 & c5 & c6 & c7 & c8 & c9 & c10 & c11 & s & b &
        -> & -> & -> & -> & _ & Hc5 & Hb & -> & _ & -> & _ & -> & _ & -> & _ & -> &
        _ & -> & _ & -> & _).
  carry (λ c, policies (multiagent c)).
  destruct (check_policies_returns c5 b Hb) as (items & -> & Hkeys & Hnorm & _).
  exists items. split; [done|].
  assert (policies (multiagent c5) = policies (multiagent c)) as Hsame.
  { rewrite Hc5. by carry (λ c, policies (multiagent c)). }
  rewrite Hsame in Hkeys. split_and!; [done| |done].
  intros ->. by destruct (policies (multiagent c)) as [[[|??]|[|??]]|].
Qed.

(** *** The runs of the other statements *)

Lemma run_default_model c :
  default_model c =
  (Returns tt, [],
   match model c with
   | None => set_model (Some {| lstm_use_prev_action_reward := None;
                                lstm_use_prev_action := None;
                                lstm_use_prev_reward := None |}) c
   | Some _ => c
   end).
Proof. unfold default_model. cbv [mbind V_bind bind reads]. by destruct (model c). Qed.

Lemma run_replace_monitor c :
  replace_monitor c =
  if negb (is_DEPRECATED_VALUE (default DEPRECATED_VALUE (monitor c)))
  then (Returns tt, [deprecation_warning "monitor" (Some "record_env")],
        set_record_env (Some (default (PyBool false) (monitor c))) c)
  else (Returns tt, [], c).
Proof.
  unfold replace_monitor. cbv [mbind V_bind bind reads].
  by destruct (negb _).
Qed.

Lemma run_default_record_env c :
  default_record_env c =
  (Returns tt, [],
   match record_env c with
   | Some v => if eq_str v "" then set_record_env (Some (PyBool true)) c else c
   | None => c
   end).
Proof.
  unfold default_record_env. cbv [mbind V_bind bind reads].
  destruct (record_env c) as [v|]; [|done]. by destruct (eq_str v "").
Qed.

Lemma run_default_callbacks c :
  default_callbacks c =
  (Returns tt, [],
   match callbacks c with
   | CallbacksNone => set_callbacks DefaultCallbacks c
   | _ => c
   end).
Proof.
  unfold default_callbacks. cbv [mbind V_bind bind reads]. by destruct (callbacks c).
Qed.

Lemma run_read_simple_optimizer c :
  read_simple_optimizer c =
  let simple_optim_setting := default DEPRECATED_VALUE (simple_optimizer c) in
  (Returns simple_optim_setting,
   if negb (is_DEPRECATED_VALUE simple_optim_setting)
   then [deprecation_warning "simple_optimizer" None] else [],
   c).
Proof.
  unfold read_simple_optimizer. cbv [mbind V_bind bind reads]. cbv zeta.
  by destruct (negb _).
Qed.

Lemma run_resolve_simple_optimizer s b t c :
  resolve_simple_optimizer s b t c =
  if multi_gpu_setting (num_gpus c) then
    if eager (framework c) then (Raises (ValueError (multi_gpu_eager (framework c))), [], c)
    else if is_True s then (Raises (ValueError simple_optimizer_multi_gpu), [], c)
    else (Returns tt, [], set_simple_optimizer (Some (PyBool false)) c)
  else if is_DEPRECATED_VALUE s then
    if negb (graph_or_torch (framework c))
    then (Returns tt, [], set_simple_optimizer (Some (PyBool true)) c)
    else if b then
      match any_needs_simple_optimizer (default_policy_cls t)
              match policies (multiagent c) with
              | Some (PolicyDict items) => items.*2
              | _ => []
              end with
      | inl e => (Raises e, [], c)
      | inr v => (Returns tt, [], set_simple_optimizer (Some (PyBool v)) c)
      end
    else (Returns tt, [], set_simple_optimizer (Some (PyBool false)) c)
  else if is_False s then
    if eager (framework c)
    then (Raises (ValueError (simple_optimizer_off_eager (framework c))), [], c)
    else (Returns tt, [], c)
  else (Returns tt, [], c).
Proof.
  unfold resolve_simple_optimizer. cbv [mbind V_bind bind reads]. cbv zeta.
  destruct (multi_gpu_setting _); [by destruct (eager _), (is_True s)|].
  destruct (is_DEPRECATED_VALUE s).
  - destruct (negb _); [done|]. destruct b; [|done].
    by destruct (any_needs_simple_optimizer _ _) as [e|[]].
  - destruct (is_False s); [|done]. by destruct (eager _).
Qed.

Lemma run_check_input_evaluation c :
  check_input_evaluation c =
  match input_evaluation c with
  | InputTuple elements => (Returns tt, [], set_input_evaluation (InputList elements) c)
  | InputList _ => (Returns tt, [], c)
  | InputOther _ =>
      (Raises (ValueError (input_evaluation_not_list (input_evaluation c))), [], c)
  end.
Proof.
  unfold check_input_evaluation. cbv [mbind V_bind bind reads].
  by destruct (input_evaluation c).
Qed.

Lemma run_replace_lstm_use_prev_action_reward c :
  replace_lstm_use_prev_action_reward c =
  let model_config :=
    default {| lstm_use_prev_action_reward := None; lstm_use_prev_action := None;
               lstm_use_prev_reward := None |} (model c) in
  let prev_a_r := default DEPRECATED_VALUE (lstm_use_prev_action_reward model_config) in
  if negb (is_DEPRECATED_VALUE prev_a_r)
  then (Returns tt,
        [deprecation_warning "model.lstm_use_prev_action_reward"
           (Some "model.lstm_use_prev_action and model.lstm_use_prev_reward")],
        set_model
          (Some {| lstm_use_prev_action_reward := lstm_use_prev_action_reward model_config;
                   lstm_use_prev_action := Some prev_a_r;
                   lstm_use_prev_reward := Some prev_a_r |}) c)
  else (Returns tt, [], c).
Proof.
  unfold replace_lstm_use_prev_action_reward. cbv [mbind V_bind bind reads]. cbv zeta.
  by destruct (negb _).
Qed.

Lemma run_check_batch_mode c :
  check_batch_mode c =
  if eq_str (batch_mode c) "truncate_episodes" || eq_str (batch_mode c) "complete_episodes"
  then (Returns tt, [], c)
  else (Raises (ValueError (batch_mode_unknown (batch_mode c))), [], c).
Proof.
  unfold check_batch_mode. cbv [mbind V_bind bind reads]. by destruct (_ || _).
Qed.

Lemma run_check_count_steps_by c :
  check_count_steps_by c =
  let v := default (PyStr "env_steps") (count_steps_by (multiagent c)) in
  if eq_str v "env_steps" || eq_str v "agent_steps"
  then (Returns tt, [], c)
  else (Raises (ValueError (count_steps_by_unknown v)), [], c).
Proof.
  unfold check_count_steps_by. cbv [mbind V_bind bind reads]. cbv zeta.
  by destruct (_ || _).
Qed.

(** *** The optimizer setting *)

Lemma eager_not_graph_or_torch framework :
  eager framework = true → graph_or_torch framework = false.
Proof.
  destruct framework as [f|]; [|done]. cbn.
  intros [->%String.eqb_eq| ->%String.eqb_eq]%orb_true_iff; done.
Qed.

(** The setting that the statement on the optimizer leaves, when it
    returns; [s] is the setting it was given and [b] is [is_multiagent]. *)
Lemma resolve_simple_optimizer_returns s b t c :
  answer_of (resolve_simple_optimizer s b t c) = Returns tt →
  s = default DEPRECATED_VALUE (simple_optimizer c) →
  let c' := config_of (resolve_simple_optimizer s b t c) in
  (∃ v, simple_optimizer c' = Some v ∧ is_DEPRECATED_VALUE v = false) ∧
  (multi_gpu_setting (num_gpus c) = true →
   simple_optimizer c' = Some (PyBool false) ∧ eager (framework c) = false ∧
   is_True s = false) ∧
  (eager (framework c) = true → simple_optimizer c' ≠ Some (PyBool false)) ∧
  (multi_gpu_setting (num_gpus c) = false → is_DEPRECATED_VALUE s = false →
   simple_optimizer c' = simple_optimizer c) ∧
  (multi_gpu_setting (num_gpus c) = false → is_DEPRECATED_VALUE s = true →
   (graph_or_torch (framework c) = false → simple_optimizer c' = Some (PyBool true)) ∧
   (graph_or_torch (framework c) = true → b = false →
    simple_optimizer c' = Some (PyBool false))).
Proof.
  intros Hret Hs. cbv zeta. rewrite run_resolve_simple_optimizer in Hret |- *.
  destruct (multi_gpu_setting (num_gpus c)) eqn:Hmg.
  { destruct (eager (framework c)) eqn:Heager; [done|].
    destruct (is_True _) eqn:Htrue; [done|].
    unfold config_of; cbn. split_and!; try done. by eexists. }
  destruct (is_DEPRECATED_VALUE s) eqn:Hdep.
  { destruct (graph_or_torch (framework c)) eqn:Hgraph; cbn [negb] in *.
    - assert (eager (framework c) = false) as Heager.
      { destruct (eager (framework c)) eqn:Heager; [|done].
        by rewrite (eager_not_graph_or_torch _ Heager) in Hgraph. }
      rewrite Heager. destruct b.
      + destruct (any_needs_simple_optimizer _ _) as [e|v]; [done|].
        unfold config_of; cbn. split_and!; try done. by eexists.
      + unfold config_of; cbn. split_and!; try done. by eexists.
    - unfold config_of; cbn. split_and!; try done. by eexists. }
  assert (∃ v, simple_optimizer c = Some v ∧ is_DEPRECATED_VALUE v = false ∧ s = v)
    as (v & Hv & Hvdep & ->).
  { subst s. destruct (simple_optimizer c) as [v|]; [|done]. by exists v. }
  destruct (is_False _) eqn:Hfalse.
  - destruct (eager (framework c)) eqn:Heager; [done|].
    unfold config_of; cbn. split_and!; try done. by exists v.
  - unfold config_of; cbn. split_and!; try done; [by exists v|].
    intros _ Hoff. rewrite Hv in Hoff. injection Hoff as ->. done.
Qed.

(** A config that the validation accepts has [simple_optimizer] set, and
    not to the deprecated default.  With more than one GPU it is [False],
    and the framework is not an eager one; with an eager framework it is
    never [False].  With at most one GPU, a setting that was given is kept;
    without one, it is [True] for a framework other than [tf] and [torch],
    and [False] for [tf] or [torch] with the default policy alone. *)
Theorem validated_simple_optimizer t c :
  answer_of (_validate_config t c) = Returns tt →
  let c' := config_of (_validate_config t c) in
  let given := default DEPRECATED_VALUE (simple_optimizer c) in
  (∃ v, simple_optimizer c' = Some v ∧ is_DEPRECATED_VALUE v = false) ∧
  (multi_gpu_setting (num_gpus c) = true →
   simple_optimizer c' = Some (PyBool false) ∧ eager (framework c) = false ∧
   is_True given = false) ∧
  (eager (framework c) = true → simple_optimizer c' ≠ Some (PyBool false)) ∧
  (multi_gpu_setting (num_gpus c) = false → is_DEPRECATED_VALUE given = false →
   simple_optimizer c' = simple_optimizer c) ∧
  (multi_gpu_setting (num_gpus c) = false → is_DEPRECATED_VALUE given = true →
   (graph_or_torch (framework c) = false → simple_optimizer c' = Some (PyBool true)) ∧
   (graph_or_torch (framework c) = true →
    policy_ids (policies (multiagent c)) = [PyStr DEFAULT_POLICY_ID] →
    simple_optimizer c' = Some (PyBool false))).
Proof.
  intros Hret c' given. subst c' given.
  destruct (validate_returns t c Hret)
    as (c1 & c2 & c3 & c4 & c5 & c6 & c7 & c8 & c9 & c10 & c11 & s & b &
        -> & -> & -> & Hc4 & Hs & Hc5 & Hb & Hc6 & H7 & -> & _ & -> & _ & -> & _ & -> &
        _ & -> & _ & -> & _).
  carry simple_optimizer.
  rewrite run_read_simple_optimizer in Hs, Hc5. cbv zeta in Hs, Hc5.
  unfold answer_of in Hs; cbn [fst snd] in Hs.
  unfold config_of in Hc5 at 1; cbn [fst snd] in Hc5. subst c5.
  assert (simple_optimizer c4 = simple_optimizer c) as Hsame.
  { rewrite Hc4. by carry simple_optimizer. }
  assert (simple_optimizer c6 = simple_optimizer c) as Hsame6.
  { rewrite Hc6. by carry simple_optimizer. }
  assert (framework c6 = framework c) as Hframework.
  { rewrite Hc6, Hc4. by carry framework. }
  assert (num_gpus c6 = num_gpus c) as Hgpus.
  { rewrite Hc6, Hc4. by carry num_gpus. }
  destruct (check_policies_returns c4 b Hb) as (items & _ & Hkeys & _ & _ & Hmulti).
  assert (policies (multiagent c4) = policies (multiagent c)) as Hpol.
  { rewrite Hc4. by carry (λ c, policies (multiagent c)). }
  rewrite Hpol in Hkeys. rewrite Hsame in Hs. injection Hs as <-.
  pose proof (resolve_simple_optimizer_returns _ b t c6 H7 ltac:(by rewrite Hsame6))
    as (Hset & Hmg & Heager & Hkept & Hauto).
  cbv zeta in *. rewrite Hframework, Hgpus, Hsame6 in *.
  split_and!; try done.
  intros H1 H2. destruct (Hauto H1 H2) as [Hon Hoff]. split; [done|].
  intros Hgraph Hids. apply Hoff; [done|]. rewrite Hids in Hkeys.
  destruct items as [|[pid entry] [|]]; try done. cbn in Hkeys.
  injection Hkeys as ->. done.
Qed.

(** *** The keys that are checked, and the keys that are left alone *)

Lemma validate_kept {C} (f : Config → C) t :
  (∀ v c, f (set_model v c) = f c) → (∀ v c, f (set_record_env v c) = f c) →
  (∀ v c, f (set_callbacks v c) = f c) → (∀ v c, f (set_policies v c) = f c) →
  (∀ v c, f (set_simple_optimizer v c) = f c) →
  (∀ v c, f (set_input_evaluation v c) = f c) →
  (∀ v c, f (set_evaluation_interval v c) = f c) →
  (∀ v c, f (set_evaluation_parallel_to_training v c) = f c) →
  keeps f (_validate_config t).
Proof.
  intros. unfold _validate_config.
  apply kept_bind; [by apply default_model_kept|intros _].
  apply kept_bind; [by apply replace_monitor_kept|intros _].
  apply kept_bind; [by apply default_record_env_kept|intros _].
  apply kept_bind; [by apply default_callbacks_kept|intros _].
  apply kept_bind; [by apply read_simple_optimizer_kept|intros s].
  apply kept_bind; [by apply check_policies_kept|intros b].
  apply kept_bind; [by apply resolve_simple_optimizer_kept|intros _].
  apply kept_bind; [by apply check_input_evaluation_kept|intros _].
  apply kept_bind; [by apply replace_lstm_use_prev_action_reward_kept|intros _].
  apply kept_bind; [by apply check_batch_mode_kept|intros _].
  apply kept_bind; [by apply check_count_steps_by_kept|intros _].
  by apply check_evaluation_kept.
Qed.

(** However it ends, the validation leaves [monitor], [framework],
    [num_gpus], [batch_mode], [evaluation_num_workers] and
    [multiagent.count_steps_by] as they are.  A config that it accepts has
    one of the two batch modes, one of the two ways to count steps (or
    none, which stands for [env_steps]), a list under [input_evaluation],
    which holds what the list or tuple that was given held, callbacks that
    are those given, or [DefaultCallbacks] for [None], and a dict under
    [model]. *)
Theorem validation_checks t c :
  let x := _validate_config t c in
  fixed_keys (config_of x) = fixed_keys c ∧
  (answer_of x = Returns tt →
   eq_str (batch_mode c) "truncate_episodes"
     || eq_str (batch_mode c) "complete_episodes" = true ∧
   (let v := default (PyStr "env_steps") (count_steps_by (multiagent c)) in
    eq_str v "env_steps" || eq_str v "agent_steps" = true) ∧
   (∃ l, input_evaluation (config_of x) = InputList l ∧
         (input_evaluation c = InputList l ∨ input_evaluation c = InputTuple l)) ∧
   callbacks (config_of x) =
     match callbacks c with CallbacksNone => DefaultCallbacks | given => given end ∧
   is_Some (model (config_of x))).
Proof.
  intros x. subst x. split; [by apply validate_kept|]. intros Hret.
  destruct (validate_returns t c Hret)
    as (c1 & c2 & c3 & c4 & c5 & c6 & c7 & c8 & c9 & c10 & c11 & s & b &
        Hc1 & Hc2 & Hc3 & Hc4 & _ & Hc5 & _ & Hc6 & _ & Hc7 & H8 & Hc8 & _ & Hc9 &
        H10 & Hc10 & H11 & Hc11 & _ & -> & _).
  split_and!.
  - rewrite run_check_batch_mode in H10.
    assert (batch_mode c9 = batch_mode c) as <-.
    { rewrite Hc9, Hc8, Hc7, Hc6, Hc5, Hc4, Hc3, Hc2, Hc1. by carry batch_mode. }
    by destruct (_ || _).
  - rewrite run_check_count_steps_by in H11. cbv zeta in *.
    assert (count_steps_by (multiagent c10) = count_steps_by (multiagent c)) as <-.
    { rewrite Hc10, Hc9, Hc8, Hc7, Hc6, Hc5, Hc4, Hc3, Hc2, Hc1.
      by carry (λ c, count_steps_by (multiagent c)). }
    by destruct (_ || _).
  - rewrite Hc11, Hc10, Hc9. carry input_evaluation. rewrite Hc8.
    assert (input_evaluation c7 = input_evaluation c) as Hsame.
    { rewrite Hc7, Hc6, Hc5, Hc4, Hc3, Hc2, Hc1. by carry input_evaluation. }
    rewrite run_check_input_evaluation in H8 |- *. rewrite <-Hsame.
    destruct (input_evaluation c7) as [l|l|v] eqn:Hin; [| |done].
    + exists l. split; [done|]. by right.
    + exists l. split; [done|]. by left.
  - rewrite Hc11, Hc10, Hc9, Hc8, Hc7, Hc6, Hc5. carry callbacks. rewrite Hc4.
    assert (callbacks c3 = callbacks c) as Hsame.
    { rewrite Hc3, Hc2, Hc1. by carry callbacks. }
    rewrite run_default_callbacks. unfold config_of; cbn [fst snd].
    rewrite <-Hsame. by destruct (callbacks c3) eqn:Hcb; rewrite ?Hcb.
  - rewrite Hc11, Hc10. carry model. rewrite Hc9.
    rewrite run_replace_lstm_use_prev_action_reward. cbv zeta.
    assert (is_Some (model c8)) as [m Hm].
    { rewrite Hc8, Hc7, Hc6, Hc5, Hc4, Hc3, Hc2. carry model. rewrite Hc1.
      rewrite run_default_model. unfold config_of; cbn [fst snd].
      destruct (model c) eqn:Hmodel; [by rewrite Hmodel|done]. }
    destruct (negb _); unfold config_of; cbn [fst snd]; [done|by rewrite Hm].
Qed.

(** *** Validating twice *)

Lemma bind_triple {A B} (m : V A) (k : A → V B) c a ws c1 r ws' c2 :
  m c = (Returns a, ws, c1) → k a c1 = (r, ws', c2) →
  (m ≫= k) c = (r, ws ++ ws', c2).
Proof. intros Hm Hk. by rewrite validation_bind, Hm, Hk. Qed.

Lemma set_record_env_same v c : record_env c = v → set_record_env v c = c.
Proof. intros <-. by destruct c. Qed.

Lemma set_record_env_twice v v' c :
  set_record_env v (set_record_env v' c) = set_record_env v c.
Proof. done. Qed.

Lemma set_simple_optimizer_same v c :
  simple_optimizer c = v → set_simple_optimizer v c = c.
Proof. intros <-. by destruct c. Qed.

Lemma set_policies_same v c : policies (multiagent c) = v → set_policies v c = c.
Proof. intros <-. destruct c as [? ? ? ? ? [] ? ? ? ? ? ? ?]. done. Qed.

Lemma set_model_same v c : model c = v → set_model v c = c.
Proof. intros <-. by destruct c. Qed.

(** The two statements on [monitor] and [record_env], on a config where
    [record_env] has the value that they give it. *)
Lemma monitor_statements_fixed c :
  (∀ m, monitor c = Some m → is_DEPRECATED_VALUE m = false →
        record_env c = Some (if eq_str m "" then PyBool true else m)) →
  (∀ v, record_env c = Some v → eq_str v "" = false) →
  ∃ ws c2, replace_monitor c = (Returns tt, ws, c2) ∧
           default_record_env c2 = (Returns tt, [], c).
Proof.
  intros Hmonitor Hrecord. rewrite run_replace_monitor.
  destruct (is_DEPRECATED_VALUE (default DEPRECATED_VALUE (monitor c))) eqn:Hdep;
    cbn [negb].
  - do 2 eexists. split; [done|]. rewrite run_default_record_env.
    destruct (record_env c) as [v|] eqn:Hv; [|done]. by rewrite (Hrecord v).
  - destruct (monitor c) as [m|] eqn:Hm; [|done]. cbn [default from_option id] in *.
    do 2 eexists. split; [done|]. rewrite run_default_record_env.
    change (record_env (set_record_env (Some m) c)) with (Some m). cbv iota.
    specialize (Hmonitor m eq_refl Hdep).
    destruct (eq_str m "").
    + rewrite set_record_env_twice. by rewrite set_record_env_same.
    + by rewrite set_record_env_same.
Qed.

Lemma check_policies_fixed c items :
  policies (multiagent c) = Some (PolicyDict items) → items ≠ [] →
  check_policy_loop items = (items, None) →
  check_policies c =
  (Returns ((1 <? length items) || negb (has_policy DEFAULT_POLICY_ID items)), [], c).
Proof.
  intros Hitems Hne Hloop. unfold check_policies. cbv [mbind V_bind bind reads].
  rewrite Hitems. destruct items as [|item items]; [done|]. cbn [no_policies].
  cbn [mret V_ret ret]. rewrite Hloop. cbn [update].
  by rewrite set_policies_same.
Qed.

(** On a settled config the validation returns, and leaves the config as it
    is; it logs the warning for a [simple_optimizer] that is set. *)
Lemma settled_fixed t c :
  settled c →
  ∃ ws, _validate_config t c = (Returns tt, ws, c) ∧
        deprecation_warning "simple_optimizer" None ∈ ws.
Proof.
  intros ((m & Hmodel & Hlstm) & Hmonitor & Hrecord & Hcallbacks &
          (items & Hitems & Hne & Hloop) & (v & Hopt & Hdep & Hmulti & Heager) &
          (l & Hinput) & Hbatch & Hcount & Heval1 & Heval2).
  destruct (monitor_statements_fixed c Hmonitor Hrecord) as (ws2 & c2 & Hrun2 & Hrun3).
  assert (default_model c = (Returns tt, [], c)) as Hrun1.
  { by rewrite run_default_model, Hmodel. }
  assert (default_callbacks c = (Returns tt, [], c)) as Hrun4.
  { rewrite run_default_callbacks. by destruct (callbacks c). }
  assert (read_simple_optimizer c =
          (Returns v, [deprecation_warning "simple_optimizer" None], c)) as Hrun5.
  { rewrite run_read_simple_optimizer, Hopt. cbn [default from_option id]. by rewrite Hdep. }
  pose proof (check_policies_fixed c items Hitems Hne Hloop) as Hrun6.
  set (b := (1 <? length items) || negb (has_policy DEFAULT_POLICY_ID items)) in *.
  assert (resolve_simple_optimizer v b t c = (Returns tt, [], c)) as Hrun7.
  { rewrite run_resolve_simple_optimizer, Hdep.
    destruct (multi_gpu_setting (num_gpus c)).
    - destruct (Hmulti eq_refl) as [-> ->]. cbn [is_True].
      by rewrite set_simple_optimizer_same.
    - destruct (is_False v) eqn:Hfalse; [|done].
      destruct (eager (framework c)); [|done].
      destruct (Heager eq_refl). by destruct v as [|[]| | | |]. }
  assert (check_input_evaluation c = (Returns tt, [], c)) as Hrun8.
  { by rewrite run_check_input_evaluation, Hinput. }
  assert (∃ ws9, replace_lstm_use_prev_action_reward c = (Returns tt, ws9, c))
    as [ws9 Hrun9].
  { rewrite run_replace_lstm_use_prev_action_reward, Hmodel. cbn [default from_option id].
    destruct (lstm_use_prev_action_reward m) as [prev|] eqn:Hprev;
      cbn [default from_option id]; [|by eexists].
    destruct (is_DEPRECATED_VALUE prev) eqn:Hprevdep; cbn [negb]; [by eexists|].
    destruct (Hlstm prev eq_refl Hprevdep) as [Ha Hr].
    eexists. f_equal. apply set_model_same. rewrite Hmodel. f_equal.
    destruct m. cbn in *. by subst. }
  assert (check_batch_mode c = (Returns tt, [], c)) as Hrun10.
  { by rewrite run_check_batch_mode, Hbatch. }
  assert (check_count_steps_by c = (Returns tt, [], c)) as Hrun11.
  { rewrite run_check_count_steps_by. cbv zeta in *. by rewrite Hcount. }
  assert (check_evaluation c = (Returns tt, [], c)) as Hrun12.
  { rewrite run_check_evaluation. cbv zeta. by rewrite Heval1, Heval2. }
  eexists. split.
  - unfold _validate_config.
    eapply bind_triple; [exact Hrun1|].
    eapply bind_triple; [exact Hrun2|].
    eapply bind_triple; [exact Hrun3|].
    eapply bind_triple; [exact Hrun4|].
    eapply bind_triple; [exact Hrun5|].
    eapply bind_triple; [exact Hrun6|].
    eapply bind_triple; [exact Hrun7|].
    eapply bind_triple; [exact Hrun8|].
    eapply bind_triple; [exact Hrun9|].
    eapply bind_triple; [exact Hrun10|].
    eapply bind_triple; [exact Hrun11|].
    exact Hrun12.
  - cbn [app]. apply elem_of_app. right. apply elem_of_cons. by left.
Qed.

(** What the two statements on [monitor] and [record_env] leave. *)
Lemma monitor_statements_spec c :
  let c3 := config_of (default_record_env (config_of (replace_monitor c))) in
  (∀ v, record_env c3 = Some v → eq_str v "" = false) ∧
  (∀ m, monitor c = Some m → is_DEPRECATED_VALUE m = false →
        record_env c3 = Some (if eq_str m "" then PyBool true else m)) ∧
  (is_DEPRECATED_VALUE (default DEPRECATED_VALUE (monitor c)) = true →
   record_env c3 = match record_env c with
                   | Some v => Some (if eq_str v "" then PyBool true else v)
                   | None => None
                   end).
Proof.
  cbv zeta. pose proof (run_replace_monitor c) as Hrun.
  destruct (replace_monitor c) as [[r2 ws2] c2].
  unfold config_of. cbn [fst snd]. rewrite run_default_record_env. cbn [fst snd].
  destruct (is_DEPRECATED_VALUE (default DEPRECATED_VALUE (monitor c))) eqn:Hdep;
    cbn [negb] in Hrun; injection Hrun as -> -> ->.
  - split_and!.
    + intros v. destruct (record_env c) as [v'|] eqn:Hv; cbv iota;
        [|by rewrite Hv].
      destruct (eq_str v' "") eqn:Hempty; [by intros [= <-]|].
      rewrite Hv. by intros [= <-].
    + intros m Hm Hm'. rewrite Hm in Hdep. cbn in Hdep. congruence.
    + intros _. destruct (record_env c) as [v'|] eqn:Hv; cbv iota; [|done].
      by destruct (eq_str v' "") eqn:Hempty; [|rewrite Hv].
  - destruct (monitor c) as [m|] eqn:Hm; [|done]. cbn [default from_option id] in *.
    change (record_env (set_record_env (Some m) c)) with (Some m). cbv iota.
    split_and!; [| |done].
    + intros v. by destruct (eq_str m "") eqn:Hempty; intros [= <-].
    + intros m' [= <-] _. by destruct (eq_str m "").
Qed.

(** The statement on the evaluation leaves nothing for itself to do. *)
Lemma check_evaluation_settles c :
  let c' := config_of (check_evaluation c) in
  (0 <? evaluation_num_workers c')%Z && negb (truthy (evaluation_interval c')) = false ∧
  (evaluation_num_workers c' =? 0)%Z
    && truthy (default (PyBool false) (evaluation_parallel_to_training c')) = false.
Proof.
  cbv zeta. rewrite run_check_evaluation. cbv zeta.
  destruct (0 <? evaluation_num_workers c)%Z eqn:Hpos;
    destruct (truthy (evaluation_interval c)) eqn:Htruthy;
    destruct (evaluation_num_workers c =? 0)%Z eqn:Hzero;
    destruct (truthy (default (PyBool false) (evaluation_parallel_to_training c)))
      eqn:Hpar;
    cbn [andb negb]; unfold config_of; cbn [fst snd];
    cbn [evaluation_num_workers evaluation_interval evaluation_parallel_to_training
         set_evaluation_interval set_evaluation_parallel_to_training];
    rewrite ?Hpos, ?Htruthy, ?Hzero, ?Hpar; cbn; try done;
    apply Z.ltb_lt in Hpos; apply Z.eqb_eq in Hzero; lia.
Qed.

(** A config that the validation accepts is settled. *)
Lemma validated_settled t c :
  answer_of (_validate_config t c) = Returns tt →
  settled (config_of (_validate_config t c)).
Proof.
  intros Hret.
  pose proof (validate_kept fixed_keys t ltac:(done) ltac:(done) ltac:(done)
                ltac:(done) ltac:(done) ltac:(done) ltac:(done) ltac:(done) c) as Hfixed.
  destruct (validate_returns t c Hret)
    as (c1 & c2 & c3 & c4 & c5 & c6 & c7 & c8 & c9 & c10 & c11 & s & b &
        Hc1 & Hc2 & Hc3 & Hc4 & Hs & Hc5 & Hb & Hc6 & H7 & Hc7 & H8 & Hc8 & H9 & Hc9 &
        H10 & Hc10 & H11 & Hc11 & H12 & Hc' & _).
  rewrite Hc' in *.
  set (c' := config_of (check_evaluation c11)) in *.
  unfold fixed_keys in Hfixed.
  injection Hfixed as Hmonitor Hframework Hgpus Hbatch Hworkers Hcount.
  unfold settled. split_and!.
  - (* the model *)
    assert (model c' = model c9) as ->.
    { subst c'. carry model. rewrite Hc11, Hc10. by carry model. }
    assert (∃ m8, model c8 = Some m8) as [m8 Hm8].
    { rewrite Hc8, Hc7, Hc6, Hc5, Hc4, Hc3, Hc2. carry model. rewrite Hc1.
      rewrite run_default_model. unfold config_of; cbn [fst snd].
      destruct (model c) eqn:Hmodel; [rewrite Hmodel|]; by eexists. }
    rewrite Hc9, run_replace_lstm_use_prev_action_reward, Hm8. cbv zeta.
    cbn [default from_option id].
    destruct (is_DEPRECATED_VALUE
                (default DEPRECATED_VALUE (lstm_use_prev_action_reward m8))) eqn:Hdep;
      cbn [negb]; unfold config_of; cbn [fst snd].
    + exists m8. split; [done|]. intros v Hv Hv'. rewrite Hv in Hdep. cbn in Hdep.
      congruence.
    + eexists. split; [done|]. cbn. intros v Hv _. rewrite Hv. done.
  - (* the monitor *)
    assert (record_env c' = record_env c3) as ->.
    { subst c'. carry record_env.
      rewrite Hc11, Hc10, Hc9, Hc8, Hc7, Hc6, Hc5, Hc4. by carry record_env. }
    rewrite Hmonitor. rewrite Hc3, Hc2.
    assert (monitor c1 = monitor c) as <-.
    { rewrite Hc1. by carry monitor. }
    apply (monitor_statements_spec c1).
  - assert (record_env c' = record_env c3) as ->.
    { subst c'. carry record_env.
      rewrite Hc11, Hc10, Hc9, Hc8, Hc7, Hc6, Hc5, Hc4. by carry record_env. }
    rewrite Hc3, Hc2. apply (monitor_statements_spec c1).
  - (* the callbacks *)
    assert (callbacks c' = callbacks c4) as ->.
    { subst c'. carry callbacks.
      rewrite Hc11, Hc10, Hc9, Hc8, Hc7, Hc6, Hc5. by carry callbacks. }
    rewrite Hc4, run_default_callbacks. unfold config_of; cbn [fst snd].
    by destruct (callbacks c3) eqn:Hcb; rewrite ?Hcb.
  - (* the policies *)
    assert (policies (multiagent c') = policies (multiagent c6)) as ->.
    { subst c'. carry (λ c, policies (multiagent c)).
      rewrite Hc11, Hc10, Hc9, Hc8, Hc7. by carry (λ c, policies (multiagent c)). }
    destruct (check_policies_returns c5 b Hb) as (items & Hitems & Hkeys & _ & Hloop & _).
    rewrite <-Hc6 in Hitems. exists items. split_and!; [done| |done].
    intros ->. by destruct (policies (multiagent c5)) as [[[|??]|[|??]]|].
  - (* the optimizer *)
    assert (simple_optimizer c' = simple_optimizer c7) as ->.
    { subst c'. carry simple_optimizer.
      rewrite Hc11, Hc10, Hc9, Hc8. by carry simple_optimizer. }
    rewrite Hframework, Hgpus.
    assert (framework c6 = framework c) as Hf6.
    { rewrite Hc6, Hc5, Hc4, Hc3, Hc2, Hc1. by carry framework. }
    assert (num_gpus c6 = num_gpus c) as Hg6.
    { rewrite Hc6, Hc5, Hc4, Hc3, Hc2, Hc1. by carry num_gpus. }
    assert (s = default DEPRECATED_VALUE (simple_optimizer c6)) as Hs6.
    { rewrite run_read_simple_optimizer in Hs. cbv zeta in Hs.
      unfold answer_of in Hs; cbn [fst snd] in Hs. injection Hs as <-.
      rewrite Hc6, Hc5. by carry simple_optimizer. }
    pose proof (resolve_simple_optimizer_returns s b t c6 H7 Hs6)
      as ((v & Hv & Hdep) & Hmg & Heager & _).
    rewrite <-Hc7 in Hv, Hmg, Heager. rewrite Hf6, Hg6 in *.
    exists v. split_and!; [done..| |].
    + intros Hmulti. destruct (Hmg Hmulti) as (Hoff & ? & _).
      split; [congruence|done].
    + intros Hyes Hoff. apply (Heager Hyes). congruence.
  - (* the offline settings *)
    assert (input_evaluation c' = input_evaluation c8) as ->.
    { subst c'. carry input_evaluation. rewrite Hc11, Hc10, Hc9.
      by carry input_evaluation. }
    rewrite Hc8. rewrite run_check_input_evaluation in H8 |- *.
    destruct (input_evaluation c7) as [l|l|v] eqn:Hin; [| |done].
    + by exists l.
    + exists l. by rewrite <-Hin.
  - (* the batch mode *)
    rewrite Hbatch. rewrite run_check_batch_mode in H10.
    assert (batch_mode c9 = batch_mode c) as <-.
    { rewrite Hc9, Hc8, Hc7, Hc6, Hc5, Hc4, Hc3, Hc2, Hc1. by carry batch_mode. }
    by destruct (_ || _).
  - (* the count of steps *)
    cbv zeta. rewrite Hcount. rewrite run_check_count_steps_by in H11. cbv zeta in H11.
    assert (count_steps_by (multiagent c10) = count_steps_by (multiagent c)) as <-.
    { rewrite Hc10, Hc9, Hc8, Hc7, Hc6, Hc5, Hc4, Hc3, Hc2, Hc1.
      by carry (λ c, count_steps_by (multiagent c)). }
    by destruct (_ || _).
  - subst c'. apply check_evaluation_settles.
  - subst c'. apply check_evaluation_settles.
Qed.

(** A config that the validation accepts is accepted again, whatever
    trainer is given, and the second validation changes nothing in it; it
    logs the deprecation of [simple_optimizer], since the first validation
    has set that key. *)
Theorem validate_idempotent t t' c :
  answer_of (_validate_config t c) = Returns tt →
  let c' := config_of (_validate_config t c) in
  answer_of (_validate_config t' c') = Returns tt ∧
  config_of (_validate_config t' c') = c' ∧
  deprecation_warning "simple_optimizer" None ∈ warnings_of (_validate_config t' c').
Proof.
  intros Hret c'.
  destruct (settled_fixed t' c' (validated_settled t c Hret)) as (ws & -> & Hws).
  done.
Qed.

(** A config that the validation accepts has no empty string under
    [record_env].  When [monitor] was set, [record_env] has its value
    ([True] for the empty string) and the deprecation of [monitor] is
    logged; when it was not, [record_env] is as given, [True] for the
    empty string.  When [simple_optimizer] was set, its deprecation is
    logged.  When [lstm_use_prev_action_reward] was set in the model,
    [lstm_use_prev_action] and [lstm_use_prev_reward] have its value and
    its deprecation is logged. *)
Theorem validated_deprecated_keys t c :
  let x := _validate_config t c in
  answer_of x = Returns tt →
  let c' := config_of x in
  (∀ v, record_env c' = Some v → eq_str v "" = false) ∧
  (∀ m, monitor c = Some m → is_DEPRECATED_VALUE m = false →
     record_env c' = Some (if eq_str m "" then PyBool true else m) ∧
     deprecation_warning "monitor" (Some "record_env") ∈ warnings_of x) ∧
  (is_DEPRECATED_VALUE (default DEPRECATED_VALUE (monitor c)) = true →
   record_env c' = match record_env c with
                   | Some v => Some (if eq_str v "" then PyBool true else v)
                   | None => None
                   end) ∧
  (∀ v, simple_optimizer c = Some v → is_DEPRECATED_VALUE v = false →
     deprecation_warning "simple_optimizer" None ∈ warnings_of x) ∧
  (∀ m v, model c = Some m → lstm_use_prev_action_reward m = Some v →
     is_DEPRECATED_VALUE v = false →
     model c' = Some {| lstm_use_prev_action_reward := Some v;
                        lstm_use_prev_action := Some v;
                        lstm_use_prev_reward := Some v |} ∧
     deprecation_warning "model.lstm_use_prev_action_reward"
       (Some "model.lstm_use_prev_action and model.lstm_use_prev_reward")
       ∈ warnings_of x).
Proof.
  intros x Hret c'. subst x c'.
  destruct (validate_returns t c Hret)
    as (c1 & c2 & c3 & c4 & c5 & c6 & c7 & c8 & c9 & c10 & c11 & s & b &
        Hc1 & Hc2 & Hc3 & Hc4 & Hs & Hc5 & Hb & Hc6 & H7 & Hc7 & H8 & Hc8 & H9 & Hc9 &
        H10 & Hc10 & H11 & Hc11 & H12 & -> & ->).
  assert (record_env (config_of (check_evaluation c11)) = record_env c3) as ->.
  { carry record_env.
    rewrite Hc11, Hc10, Hc9, Hc8, Hc7, Hc6, Hc5, Hc4. by carry record_env. }
  assert (monitor c1 = monitor c) as Hmonitor.
  { rewrite Hc1. by carry monitor. }
  assert (record_env c1 = record_env c) as Hrecord.
  { rewrite Hc1. by carry record_env. }
  destruct (monitor_statements_spec c1) as (Hempty & Hset & Hnot).
  cbv zeta in Hempty, Hset, Hnot.
  rewrite <-Hc2, <-Hc3 in Hempty, Hset, Hnot. rewrite Hmonitor in Hset, Hnot.
  rewrite Hrecord in Hnot.
  split_and!; [exact Hempty| |exact Hnot| |].
  - intros m Hm Hdep. split; [by apply Hset|].
    apply elem_of_app. right. apply elem_of_app. left.
    rewrite run_replace_monitor, Hmonitor, Hm. cbn [default from_option id].
    rewrite Hdep. by apply list_elem_of_singleton.
  - intros v Hv Hdep. do 4 (apply elem_of_app; right). apply elem_of_app. left.
    assert (simple_optimizer c4 = simple_optimizer c) as Hsame.
    { rewrite Hc4, Hc3, Hc2, Hc1. by carry simple_optimizer. }
    rewrite run_read_simple_optimizer, Hsame, Hv. cbn [default from_option id].
    rewrite Hdep. by apply list_elem_of_singleton.
  - intros m v Hm Hv Hdep.
    assert (model c8 = Some m) as Hm8.
    { rewrite Hc8, Hc7, Hc6, Hc5, Hc4, Hc3, Hc2. carry model. rewrite Hc1.
      rewrite run_default_model. unfold config_of; cbn [fst snd]. by rewrite Hm. }
    split.
    + carry model. rewrite Hc11, Hc10. carry model. rewrite Hc9.
      rewrite run_replace_lstm_use_prev_action_reward, Hm8. cbv zeta.
      cbn [default from_option id]. rewrite Hv. cbn [default from_option id].
      rewrite Hdep. done.
    + do 8 (apply elem_of_app; right). apply elem_of_app. left.
      rewrite run_replace_lstm_use_prev_action_reward, Hm8. cbv zeta.
      cbn [default from_option id]. rewrite Hv. cbn [default from_option id].
      rewrite Hdep. by apply list_elem_of_singleton.
Qed.

End ValidationFacts.

(** ** The theorems at work on the scripted cluster *)

(** A step that fails once with a worker error: the trainer recovers,
    loses the worker whose check failed, and returns the result of the
    second attempt. *)
Example train_recovers :
  let x := train {| self := sample_trainer true; env := flaky_step |} in
  res x = Ok train_result ∧ attempts (trace x) = 2 ∧
  workers (self (final x)) = Some (reset sample_pool [1; 3]).
Proof. by vm_compute. Qed.

(** A step that fails every time: four attempts, then the hard error. *)
Example train_gives_up :
  let x := train {| self := sample_trainer true; env := broken_step |} in
  res x = Raise (RuntimeError "Not enough healthy workers remain to continue.") ∨
  (res x = Raise (RuntimeError "Failed to recover from worker crash") ∧
   attempts (trace x) = 4).
Proof. right. by vm_compute. Qed.

(** Without tolerance the first worker error ends the call. *)
Example train_propagates :
  let x := train {| self := sample_trainer false; env := flaky_step |} in
  res x = Raise (RayError 1) ∧ attempts (trace x) = 1.
Proof. by vm_compute. Qed.

(** Recovery when the check of the second of three workers fails: the
    pool is left with the first and the third. *)
Lemma try_recover_prunes_witness :
  workers (self recover_state) = Some sample_pool ∧
  has_execution_plan (self recover_state) = true ∧
  unhealthy (trace (_try_recover recover_state)) = [2] ∧
  res (_try_recover recover_state) = Ok tt ∧
  ∃ ws', workers (self (final (_try_recover recover_state))) = Some ws' ∧
         remote_workers ws' = [1; 3] ∧
         local_worker ws' = 0 ∧
         train_exec_impl (self (final (_try_recover recover_state))) =
           Some (execution_plan ws' (sample_config true)).
Proof.
  destruct (try_recover_prunes recover_state sample_pool eq_refl eq_refl)
    as (_ & Hsome & _).
  destruct Hsome as (Hres & (ws' & Hws & Hremote & _ & _ & _ & Hlocal & Hplan) & _);
    [vm_compute; lia|].
  split_and!; [reflexivity|reflexivity|reflexivity|exact Hres|].
  exists ws'. split_and!; [exact Hws|exact Hremote|exact Hlocal|exact Hplan].
Defined.

(** A first attempt that fails with a worker error on a tolerant trainer:
    the recovery is announced and run, and the call goes on with the
    second attempt, which returns. *)
Lemma train_failure_policy_witness :
  let s := {| self := sample_trainer true; env := flaky_step |} in
  let s1 := {| self := sample_trainer true; env := flaky_step_failed |} in
  Trainable_train (self s) (env s) = (Raise (RayError 1), self s1, env s1) ∧
  ∃ rest,
    trace (train s) =
      EvTrainableTrain (Raise (RayError 1)) (sample_trainer true)
        :: EvLog ERROR attempting_to_recover_message []
        :: trace (_try_recover s1) ++ rest ∧
    ∃ rest', rest = EvTrainableTrain (Ok train_result)
                      (self (final (_try_recover s1))) :: rest'.
Proof.
  intros s s1. split; [reflexivity|].
  destruct (train_failure_policy s) as (_ & _ & _ & _ & _ & Hfirst).
  exact (Hfirst (RayError 1) (sample_trainer true) flaky_step_failed eq_refl).
Defined.

(** Restoring a bundle with worker state onto a pool of three workers. *)
Lemma setstate_broadcasts_worker_state_witness :
  worker_bundle !! "worker" = Some worker_blob ∧
  workers (self checkpoint_state) = Some sample_pool ∧
  local_call (local_worker sample_pool) (restore (ByValue worker_blob))
    (env checkpoint_state) = (Ok PyNone, quiet) ∧
  ∀ r, r ∈ remote_workers sample_pool →
       EvRemote r (restore (ByRef (ray_put worker_blob)))
       ∈ trace (__setstate__ worker_bundle checkpoint_state).
Proof.
  split_and!; [reflexivity..|].
  apply (setstate_broadcasts_worker_state checkpoint_state worker_bundle worker_blob
           sample_pool PyNone quiet); reflexivity.
Defined.




(** Evaluation on a local worker that has no environment. *)
Lemma evaluate_without_env_witness :
  evaluation_workers (self no_env_state) = None ∧
  custom_eval_function (config (self no_env_state)) = None ∧
  (1 ≤ evaluation_num_episodes (config (self no_env_state)))%Z ∧
  str_in no_env_marker no_env_error = true ∧
  res (evaluate no_env_state) = Raise (ValueError [PyStr no_env_message]).
Proof.
  split_and!; [reflexivity|reflexivity|by vm_compute|reflexivity|].
  apply (evaluate_without_env no_env_state sample_pool no_env_error [] quiet);
    first [reflexivity | by vm_compute].
Defined.

(** Two trainers without an evaluation pool, on a local worker without an
    environment, where sampling would raise: one is asked for no episode,
    the other has a custom evaluation function.  No sample is taken, and
    [evaluate] returns the metrics it is given. *)
Lemma no_episodes_no_error :
  (evaluation_workers (self no_episodes_state) = None ∧
   custom_eval_function (config (self no_episodes_state)) = None ∧
   evaluation_num_episodes (config (self no_episodes_state)) = 0%Z ∧
   workers (self no_episodes_state) = Some sample_pool ∧
   (local_call (local_worker sample_pool) sample (env no_episodes_state)).1
     = Raise (ValueError [PyStr no_env_error]) ∧
   str_in no_env_marker no_env_error = true ∧
   res (evaluate no_episodes_state) = Ok (PyDict [("evaluation", train_result)]) ∧
   ∀ e, res (evaluate no_episodes_state) ≠ Raise e) ∧
  (evaluation_workers (self custom_eval_no_env_state) = None ∧
   custom_eval_function (config (self custom_eval_no_env_state)) = Some 0 ∧
   evaluation_num_episodes (config (self custom_eval_no_env_state)) = 10%Z ∧
   workers (self custom_eval_no_env_state) = Some sample_pool ∧
   (local_call (local_worker sample_pool) sample (env custom_eval_no_env_state)).1
     = Raise (ValueError [PyStr no_env_error]) ∧
   res (evaluate custom_eval_no_env_state) = Ok (PyDict [("evaluation", train_result)]) ∧
   ∀ e, res (evaluate custom_eval_no_env_state) ≠ Raise e).
Proof. split; (split_and!; [reflexivity..|done]). Qed.



(** A trainer without a replay buffer, asked to store the buffer in
    checkpoints, restores a bundle without buffer state: request and bundle
    disagree, the restore returns, and no warning is logged. *)
Lemma no_warning_without_replay_buffer :
  store_buffer_requested (self bufferless_state) = true ∧
  worker_bundle !! "local_replay_buffer" = None ∧
  res (__setstate__ worker_bundle bufferless_state) = Ok tt ∧
  Forall (λ ev, ∀ msg args, ev ≠ EvLog WARNING msg args)
    (trace (__setstate__ worker_bundle bufferless_state)).
Proof.
  split_and!; [reflexivity..|]. vm_compute. repeat constructor; done.
Qed.

Module ConfigStoreExamples.
Import ConfigStore ConfigStoreFacts.

Lemma reach_base a : reach separate_configs 0 a → a = 0 ∨ a = 1.
Proof.
  induction 1 as [|a o b _ IH Ho Hb]; [by left|].
  destruct IH as [-> | ->]; cbn in Ho; injection Ho as <-; cbn in Hb;
    apply list_elem_of_In in Hb; cbn in Hb;
    repeat (destruct Hb as [Hb|Hb]); try done; injection Hb as <-; auto.
Qed.

Lemma reach_override a : reach separate_configs 2 a → a = 2 ∨ a = 3.
Proof.
  induction 1 as [|a o b _ IH Ho Hb]; [by left|].
  destruct IH as [-> | ->]; cbn in Ho; injection Ho as <-; cbn in Hb;
    apply list_elem_of_In in Hb; cbn in Hb;
    repeat (destruct Hb as [Hb|Hb]); try done; injection Hb as <-; auto.
Qed.

(** A merge of a base config with a shallow copy of it: the two share the
    dict under [model]; the call returns and the base is as it was. *)
Lemma merge_trainer_configs_frame_witness :
  well_formed shallow_configs = true ∧
  is_tree 5 shallow_configs 0 = true ∧
  shallow_configs !! 1 = Some (ODict [("fcnet", VInt 256)]) ∧
  reach shallow_configs 0 1 ∧ reach shallow_configs 2 1 ∧
  (merge_trainer_configs 5 shallow_configs 0 2 None).2 = Returned 3 ∧
  ∀ a o, reach shallow_configs 0 a → shallow_configs !! a = Some o →
         (merge_trainer_configs 5 shallow_configs 0 2 None).1 !! a = Some o.
Proof.
  split_and!; [reflexivity..| | |reflexivity|].
  - eapply reach_step; [constructor|reflexivity|]. apply list_elem_of_In. by left.
  - eapply reach_step; [constructor|reflexivity|]. apply list_elem_of_In. by left.
  - destruct (merge_trainer_configs_frame 5 5 shallow_configs 0 2 None) as [Htree _].
    destruct (Htree eq_refl eq_refl (mk_is_Some _ _ eq_refl)) as (_ & _ & Hbase).
    apply Hbase. intros _. reflexivity.
Defined.

(** Two configs that share no object: the base is as it was. *)
Example merge_keeps_separate_base a o :
  reach separate_configs 0 a → separate_configs !! a = Some o →
  (merge_trainer_configs 5 separate_configs 0 2 None).1 !! a = Some o.
Proof.
  apply merge_trainer_configs_separate.
  intros b [-> | ->]%reach_base [? | ?]%reach_override; lia.
Qed.

(** The merged dict of the example: the sub-dict under [model] is merged,
    the learning rate is the override's. *)
Example merge_separate_configs :
  let h := (merge_trainer_configs 5 separate_configs 0 2 None).1 in
  h !! 4 = Some (ODict [("model", VRef 5); ("lr", VInt 2)]) ∧
  h !! 5 = Some (ODict [("fcnet", VInt 256); ("lstm", VBool true)]).
Proof. by vm_compute. Qed.

(** One dict without a callbacks dict passed as base and as override: the
    call returns a new dict, and the base is as it was. *)
Example merge_keeps_plain_shared_base :
  legacy_callbacks shallow_configs 0 = false ∧
  (merge_trainer_configs 5 shallow_configs 0 0 None).2 = Returned 3 ∧
  ∀ a, a < length shallow_configs →
       (merge_trainer_configs 5 shallow_configs 0 0 None).1 !! a = shallow_configs !! a.
Proof.
  split_and!; [reflexivity..|].
  intros [|[|[|a]]] Ha; [reflexivity..|]. cbn in Ha. lia.
Qed.

(** One dict with legacy callbacks passed as base and as override: the
    call returns, and the base dict holds the callbacks factory where it
    held the callbacks dict. *)
Lemma merge_changes_shared_base :
  well_formed shared_config = true ∧
  is_tree 5 shared_config 0 = true ∧
  legacy_callbacks shared_config 0 = true ∧
  reach shared_config 0 0 ∧
  shared_config !! 0 = Some (ODict [("callbacks", VRef 1)]) ∧
  (merge_trainer_configs 5 shared_config 0 0 None).2 = Returned 2 ∧
  (merge_trainer_configs 5 shared_config 0 0 None).1 !! 0 =
    Some (ODict [("callbacks", VCallbacksFactory 1)]) ∧
  (merge_trainer_configs 5 shared_config 0 0 None).1 !! 0 ≠ shared_config !! 0.
Proof.
  split_and!; [reflexivity|reflexivity|reflexivity|constructor|reflexivity..|done].
Qed.

(** A base config that holds one dict twice, merged with an override that
    holds the dict which the base has under [optimizer]: the override dict
    is no object of the base and has no callbacks, and the merge writes
    the learning rate of the override into the dict of the base. *)
Example merge_changes_aliased_base :
  well_formed aliased_configs = true ∧
  is_tree 5 aliased_configs 0 = false ∧
  legacy_callbacks aliased_configs 3 = false ∧
  reach aliased_configs 0 2 ∧
  aliased_configs !! 2 = Some (ODict [("lr", VInt 1)]) ∧
  (merge_trainer_configs 5 aliased_configs 0 3 None).2 = Returned 7 ∧
  (merge_trainer_configs 5 aliased_configs 0 3 None).1 !! 2 =
    Some (ODict [("lr", VInt 7)]).
Proof.
  split_and!; [reflexivity|reflexivity|reflexivity| |reflexivity..].
  eapply reach_step; [constructor|reflexivity|].
  apply list_elem_of_In. right. right. by left.
Qed.

End ConfigStoreExamples.

(** ** The further theorems at work *)

(** The health check of three workers: the three checks are sent, then
    awaited one by one. *)
Lemma try_recover_checks_sent_first_witness :
  ∃ rest,
    trace (_try_recover recover_state) =
      EvLog INFO "Health checking all workers..." []
        :: ((λ w, EvRemote w sample_with_count) <$> remote_workers sample_pool) ++ rest ∧
    Forall one_check_at_a_time rest ∧
    (probe_results rest).*1 = remote_workers sample_pool.
Proof.
  apply (try_recover_checks_sent_first recover_state sample_pool); reflexivity.
Defined.

(** A call of [train] that recovers once keeps a part of the pool. *)
Lemma train_only_removes_workers_witness :
  pool_within (Some sample_pool)
    (workers (self (final (train {| self := sample_trainer true; env := flaky_step |})))).
Proof.
  apply (train_only_removes_workers {| self := sample_trainer true; env := flaky_step |}).
  intros t e. cbn. by destruct (pop (Ok PyNone) (steps e)).
Defined.

(** The first sampling call of an evaluation on the evaluation pool comes
    after the weights were saved and broadcast. *)
Lemma evaluate_syncs_weights_first_witness :
  ∃ ws state r pre',
    workers (self evaluating_state) = Some ws ∧
    take 5 (trace (evaluate evaluating_state)) =
      EvLog INFO "Synchronizing weights to workers." []
        :: EvLocal (local_worker ws) save (Ok state)
        :: EvLib (foreach_worker_restore evaluation_pool (ray_put state)) (Ok r) :: pre'.
Proof.
  apply (evaluate_syncs_weights_first evaluating_state evaluation_pool
           (take 5 (trace (evaluate evaluating_state))) (EvRemote 11 sample)
           (drop 6 (trace (evaluate evaluating_state))));
    [reflexivity|by vm_compute|left; exact I].
Defined.

(** Ten episodes on the local worker of a trainer without an evaluation
    pool. *)
Lemma evaluate_on_local_worker_witness :
  let tr := trace (evaluate local_evaluation_state) in
  count is_local_sample tr = 10 ∧
  count is_remote_sample tr = 0 ∧
  count is_round tr = 0 ∧
  ∃ lw remotes metrics,
    (∃ ws, workers (self local_evaluation_state) = Some ws ∧
           lw = local_worker ws ∧ remotes = []) ∧
    (∀ w r, EvLocal w sample r ∈ tr → w = lw) ∧
    EvLib (collect_metrics lw remotes) (Ok metrics) ∈ tr ∧
    PyDict [("evaluation", train_result)] = PyDict [("evaluation", metrics)].
Proof.
  apply (evaluate_on_local_worker local_evaluation_state
           (PyDict [("evaluation", train_result)]));
    [reflexivity|by left|by vm_compute].
Defined.



(** The bundle saved from that trainer, restored on it: no warning, and the
    replay buffer gets back the content that was saved. *)
Lemma checkpoint_round_trip_witness :
  res (__getstate__ buffered_state) = Ok buffered_bundle ∧
  res (__setstate__ buffered_bundle restored_state) = Ok tt ∧
  Forall (λ ev, (∀ fmt args, ev ≠ EvLog WARNING fmt args) ∧
                (∀ key r, ev ≠ EvLib (log_once key) r))
    (trace (__setstate__ buffered_bundle restored_state)) ∧
  ∃ r, EvLib (replay_buffer_set_state (PyInt 2)) (Ok r)
       ∈ trace (__setstate__ buffered_bundle restored_state).
Proof.
  assert (res (__getstate__ buffered_state) = Ok buffered_bundle) as Hres
    by reflexivity.
  assert (res (__setstate__ buffered_bundle restored_state) = Ok tt) as Hret
    by (by vm_compute).
  split; [exact Hres|]. split; [exact Hret|].
  destruct (checkpoint_round_trip buffered_state restored_state buffered_bundle
              Hres eq_refl) as (Hquiet & Hall).
  split; [exact Hquiet|].
  destruct (Hall Hret) as (_ & _ & Hbuffer). apply Hbuffer. by vm_compute.
Defined.

Module ValidationExamples.
Import Validation ValidationFacts.

(** The validation of the config with deprecated keys. *)
Example validate_legacy_settings :
  let x := _validate_config None legacy_settings in
  answer_of x = Returns tt ∧
  evaluation_interval (config_of x) = PyInt 1 ∧
  simple_optimizer (config_of x) = Some (PyBool true) ∧
  record_env (config_of x) = Some (PyBool true) ∧
  input_evaluation (config_of x) = InputList [PyStr "is"] ∧
  callbacks (config_of x) = DefaultCallbacks ∧
  length (warnings_of x) = 3.
Proof. by vm_compute. Qed.

(** The default settings are accepted, with [simple_optimizer] off. *)
Example validate_default_settings :
  let x := _validate_config None default_settings in
  answer_of x = Returns tt ∧
  simple_optimizer (config_of x) = Some (PyBool false) ∧
  warnings_of x = [].
Proof. by vm_compute. Qed.

Lemma validated_evaluation_settings_witness :
  answer_of (_validate_config None legacy_settings) = Returns tt ∧
  truthy (evaluation_interval (config_of (_validate_config None legacy_settings))) = true ∧
  logger_warning no_evaluation_interval_warning [PyInt 2]
    ∈ warnings_of (_validate_config None legacy_settings).
Proof.
  assert (answer_of (_validate_config None legacy_settings) = Returns tt) as Hret
    by (by vm_compute).
  split; [exact Hret|].
  destruct (validated_evaluation_settings None legacy_settings Hret)
    as (_ & Hinterval & _ & _ & Hwarned & _).
  split; [apply Hinterval; by vm_compute|apply Hwarned; by vm_compute].
Defined.

Lemma validated_policies_witness :
  answer_of (_validate_config None legacy_settings) = Returns tt ∧
  ∃ items,
    policies (multiagent (config_of (_validate_config None legacy_settings)))
      = Some (PolicyDict items) ∧
    items.*1 = [PyStr "pursuer"; PyStr "evader"] ∧
    items ≠ [] ∧
    Forall normalized items.
Proof.
  assert (answer_of (_validate_config None legacy_settings) = Returns tt) as Hret
    by (by vm_compute).
  split; [exact Hret|]. exact (validated_policies None legacy_settings Hret).
Defined.

Lemma validated_simple_optimizer_witness :
  answer_of (_validate_config None legacy_settings) = Returns tt ∧
  ∃ v, simple_optimizer (config_of (_validate_config None legacy_settings)) = Some v ∧
       is_DEPRECATED_VALUE v = false.
Proof.
  assert (answer_of (_validate_config None legacy_settings) = Returns tt) as Hret
    by (by vm_compute).
  split; [exact Hret|].
  exact (proj1 (validated_simple_optimizer None legacy_settings Hret)).
Defined.

Lemma validate_idempotent_witness :
  answer_of (_validate_config None legacy_settings) = Returns tt ∧
  let c' := config_of (_validate_config None legacy_settings) in
  answer_of (_validate_config None c') = Returns tt ∧
  config_of (_validate_config None c') = c' ∧
  deprecation_warning "simple_optimizer" None ∈ warnings_of (_validate_config None c').
Proof.
  assert (answer_of (_validate_config None legacy_settings) = Returns tt) as Hret
    by (by vm_compute).
  split; [exact Hret|]. exact (validate_idempotent None None legacy_settings Hret).
Defined.

Lemma validated_deprecated_keys_witness :
  answer_of (_validate_config None legacy_settings) = Returns tt ∧
  record_env (config_of (_validate_config None legacy_settings)) = Some (PyBool true) ∧
  deprecation_warning "monitor" (Some "record_env")
    ∈ warnings_of (_validate_config None legacy_settings).
Proof.
  assert (answer_of (_validate_config None legacy_settings) = Returns tt) as Hret
    by (by vm_compute).
  split; [exact Hret|].
  destruct (validated_deprecated_keys None legacy_settings Hret) as (_ & Hmonitor & _).
  exact (Hmonitor (PyStr "") eq_refl eq_refl).
Defined.

End ValidationExamples.
